(** * Context-window management of the Discord agent: a shallow embedding

    The development follows the TypeScript sources of the Discord agent:

    - [constants]  : [MESSAGE_BUFFER_CONFIG] (src/unnamed/part_001)
    - [MyAgent]    : [addMessage], [summarizeAndPruneMessages],
                     [buildContextFromDiscord] (src/unnamed/part_002)
    - [tools]      : [memoryInsert], [memoryReplace], [internetSearch],
                     [readWebsites], [callTool] (src/unnamed/part_003)
    - [DiscordAgent.splitMessageByNewline]
                     (src/agents/discord-agent/src/context.ts)
    - [MyAgent]    : [getMessages], [doSomethingSmart], [onDmMessage]
                     (src/unnamed/part_002)
    - [DiscordAgent] : [ensureDmChannel], [sendDm], [sendChannelMessage]
                     (src/agents/discord-agent/src/context.ts)
    - [utils]      : [Memory], [hexToBytes], [discordFetch]
                     (src/unnamed/part_004)
    - [slack]      : the digest text of [hmacSHA256], [timingSafeEqual]
                     (src/agents/slack/src/slack.ts)

    JavaScript strings are Rocq [string]s (sequences of 8-bit code units),
    JavaScript numbers that hold array lengths and indices are [nat]/[Z],
    the one genuinely fractional number ([PRUNE_PERCENTAGE = 0.7]) is an
    IEEE-754 binary64 value of the Standard Library's [SpecFloat], and the
    product [bufferSize * PRUNE_PERCENTAGE] is the rounded binary64
    product.  Code that can throw lives in a small state-and-exception
    monad; [async] functions return a settled [Promise]. *)

From Stdlib Require Import ZArith NArith Lia Ascii String List.
From Stdlib Require Import Floats.SpecFloat.
From stdpp Require Import base option list gmap strings
  pretty sorting.

Set Default Proof Using "Type".
Local Open Scope Z_scope.

(* ===================================================================== *)
(** * Part I: definitions                                                 *)
(* ===================================================================== *)

(** ** JavaScript values shared by all components *)

Module Js.

(** What a [throw] carries: an [Error] object with its [message], or any
    other value (the dispatcher distinguishes the two with
    [e instanceof Error]). *)
Inductive JsError : Type :=
| ErrorObj (message : string)
| NonError.

(** Outcome of evaluating synchronous code. *)
Inductive Completion (A : Type) : Type :=
| Normal (a : A)
| Throw (e : JsError).
Arguments Normal {A} a.
Arguments Throw {A} e.

(** A settled promise, as seen by the code that awaits it. *)
Inductive Promise (A : Type) : Type :=
| Fulfilled (a : A)
| Rejected (e : JsError).
Arguments Fulfilled {A} a.
Arguments Rejected {A} e.

(** [await p] inside a [try] block or at the top of an [async] body. *)
Definition await {A} (p : Promise A) : Completion A :=
  match p with
  | Fulfilled a => Normal a
  | Rejected e => Throw e
  end.

(** The promise an [async] function hands back when its body completes. *)
Definition settle {A} (c : Completion A) : Promise A :=
  match c with
  | Normal a => Fulfilled a
  | Throw e => Rejected e
  end.

(** State-and-exception monad: a [throw] keeps the state reached so far
    (JavaScript has no rollback). *)
Definition M (S A : Type) : Type := S -> Completion A * S.

Definition ret {S A} (a : A) : M S A := fun s => (Normal a, s).
Definition bind {S A B} (m : M S A) (k : A -> M S B) : M S B :=
  fun s =>
    match m s with
    | (Normal a, s') => k a s'
    | (Throw e, s') => (Throw e, s')
    end.
Definition throw {S A} (e : JsError) : M S A := fun s => (Throw e, s).
Definition get {S} : M S S := fun s => (Normal s, s).
Definition put {S} (s : S) : M S unit := fun _ => (Normal tt, s).
Definition modify {S} (f : S -> S) : M S unit := fun s => (Normal tt, f s).

(** A number that has gone through [Math.floor]: an integer, an infinity
    or NaN. *)
Inductive Integral : Type :=
| Int (z : Z)
| PosInf
| NegInf
| NaN.

(** [Array.prototype.slice(start, end)]: relative indices, negative ones
    count from the end, everything is clamped to [0 .. len]. *)
Definition relativeIndex (len : Z) (i : Integral) : Z :=
  match i with
  | Int z => if z <? 0 then Z.max (len + z) 0 else Z.min z len
  | PosInf => len
  | NegInf => 0
  | NaN => 0
  end.

Definition slice {A} (l : list A) (start : Integral) (end_ : option Integral)
  : list A :=
  let len := Z.of_nat (length l) in
  let k := relativeIndex len start in
  let final := match end_ with
               | None => len
               | Some e => relativeIndex len e
               end in
  take (Z.to_nat (Z.max (final - k) 0)) (drop (Z.to_nat k) l).

End Js.
Export Js.

(** The monad is used through stdpp's notation [x ← m; k]. *)
#[global] Instance M_ret {S} : MRet (Js.M S) := fun A => @Js.ret S A.
#[global] Instance M_bind {S} : MBind (Js.M S) := fun A B k m => Js.bind m k.

(** ** IEEE-754 binary64 numbers *)

Module Float64.

Definition prec : Z := 53.
Definition emax : Z := 1024.

Definition double : Type := spec_float.

(** The number an integer literal or an array length denotes. *)
Definition of_Z (z : Z) : double := binary_normalize prec emax z 0 false.

(** The [*] of two numbers. *)
Definition mul (x y : double) : double := SFmul prec emax x y.

(** [Math.floor]. The floor of a finite binary64 value is an integer. *)
Definition Math_floor (x : double) : Integral :=
  match x with
  | S754_zero _ => Int 0
  | S754_infinity false => PosInf
  | S754_infinity true => NegInf
  | S754_nan => NaN
  | S754_finite s m e => Int (Z.shiftl (cond_Zopp s (Zpos m)) e)
  end.

(** The binary64 value nearest to the decimal literal [0.7]:
    [0x1.6666666666666p-1]. *)
Definition lit_0_7 : double := S754_finite false 6305039478318694 (-53).

End Float64.

(** ** constants.ts *)

Module Constants.

Record BufferConfig : Type := {
  MAX_MESSAGES : nat;
  PRUNE_PERCENTAGE : Float64.double;
  SUMMARY_MESSAGE_ID_PREFIX : string
}.

Definition MESSAGE_BUFFER_CONFIG : BufferConfig := {|
  MAX_MESSAGES := 50;
  PRUNE_PERCENTAGE := Float64.lit_0_7;
  SUMMARY_MESSAGE_ID_PREFIX := "summary_"
|}.

End Constants.
Export Constants.

(** ** index.ts: the agent's durable state *)

Module MyAgent.

(** Roles a stored message can have ([addMessage]'s parameter type). *)
Inductive Role : Type := RoleUser | RoleAssistant | RoleTool.

#[global] Instance Role_eq_dec : EqDecision Role.
Proof. solve_decision. Defined.

(** One entry of an assistant message's [tool_calls]. *)
Record ToolCall : Type := {
  tc_id : string;
  tc_name : string;
  tc_arguments : string
}.

(** The argument of [addMessage]. *)
Record MessageInput : Type := {
  mi_id : string;
  mi_role : Role;
  mi_content : option string;
  mi_tool_calls : option (list ToolCall);
  mi_tool_call_id : option string
}.

(** A row of the SQL table
    [messages (id TEXT PRIMARY KEY, role, content, tool_calls, tool_call_id)];
    the key is kept by the map. [tool_calls] holds what [JSON.stringify]
    serialises and [JSON.parse] reads back. *)
Record Row : Type := {
  row_role : Role;
  row_content : option string;
  row_tool_calls : option (list ToolCall);
  row_tool_call_id : option string
}.

(** The message object rebuilt from a row ([if (row.content) ...]: a field
    that is null or empty is left out). *)
Record ChatMessage : Type := {
  cm_role : Role;
  cm_content : option string;
  cm_tool_calls : option (list ToolCall);
  cm_tool_call_id : option string
}.

Definition truthy_string (o : option string) : option string :=
  match o with
  | Some s => if decide (s = "") then None else Some s
  | None => None
  end.

Definition message_of_row (r : Row) : ChatMessage := {|
  cm_role := row_role r;
  cm_content := truthy_string (row_content r);
  cm_tool_calls := row_tool_calls r;
  cm_tool_call_id := truthy_string (row_tool_call_id r)
|}.

(** What the model is asked. The summarisation request carries the
    messages that [JSON.stringify] would print into the user turn. *)
Inductive LlmRequest : Type :=
| SummarizeConversation (messagesToSummarize : list ChatMessage)
| SummarizeThread (previousSummary : string) (text : string).

(** [message.content] of a completion. *)
Inductive Content : Type :=
| ContentString (s : string)
| ContentNull
| ContentUndefined.

Record LlmMessage : Type := {
  content : Content;
  tool_calls : option (list ToolCall)
}.

(** A template literal [`${c}`]. *)
Definition template (c : Content) : string :=
  match c with
  | ContentString s => s
  | ContentNull => "null"
  | ContentUndefined => "undefined"
  end.

(** Per-channel checkpoint. Discord ids are decimal snowflakes; an id is
    represented by the number [BigInt(id)] that the code compares. *)
Record ChannelCheckpoint : Type := {
  oldestSeenMessageId : option N;
  summary : option string
}.

(** [MemoryBlockI] (utils.ts). *)
Record MemoryBlockI : Type := {
  label : string;
  description : string;
  value : string;
  limit : N;
  readOnly : option bool;
  lastUpdated : N
}.

(** The state one agent owns: the SQL table, [memory.messageBuffer],
    [memory.channelCheckpoints], [memory.blocks], and the log of requests
    sent to the model (a ghost field: the trace of [callLlm]). *)
Record World : Type := {
  messages : gmap string Row;
  messageBuffer : list string;
  channelCheckpoints : gmap string ChannelCheckpoint;
  blocks : list MemoryBlockI;
  llmCalls : list LlmRequest
}.

Definition set_messages (f : gmap string Row -> gmap string Row) (w : World)
  : World :=
  {| messages := f (messages w); messageBuffer := messageBuffer w;
     channelCheckpoints := channelCheckpoints w; blocks := blocks w;
     llmCalls := llmCalls w |}.

Definition set_messageBuffer (f : list string -> list string) (w : World)
  : World :=
  {| messages := messages w; messageBuffer := f (messageBuffer w);
     channelCheckpoints := channelCheckpoints w; blocks := blocks w;
     llmCalls := llmCalls w |}.

Definition set_channelCheckpoints
  (f : gmap string ChannelCheckpoint -> gmap string ChannelCheckpoint)
  (w : World) : World :=
  {| messages := messages w; messageBuffer := messageBuffer w;
     channelCheckpoints := f (channelCheckpoints w); blocks := blocks w;
     llmCalls := llmCalls w |}.

Definition set_llmCalls (f : list LlmRequest -> list LlmRequest) (w : World)
  : World :=
  {| messages := messages w; messageBuffer := messageBuffer w;
     channelCheckpoints := channelCheckpoints w; blocks := blocks w;
     llmCalls := f (llmCalls w) |}.

Definition set_blocks (f : list MemoryBlockI -> list MemoryBlockI) (w : World)
  : World :=
  {| messages := messages w; messageBuffer := messageBuffer w;
     channelCheckpoints := channelCheckpoints w; blocks := f (blocks w);
     llmCalls := llmCalls w |}.

(** State after the constructor and [dmOnBoot]/[guildOnBoot]: empty table,
    empty buffer, no checkpoint, the default blocks of the scope. *)
Definition initial (defaultBlocks : list MemoryBlockI) : World := {|
  messages := ∅; messageBuffer := []; channelCheckpoints := ∅;
  blocks := defaultBlocks; llmCalls := []
|}.

(** [INSERT OR REPLACE INTO messages ...]. *)
Definition sql_insert_or_replace (id : string) (r : Row) : M World unit :=
  modify (set_messages (<[id := r]>)).

(** [callLlm]: the request is sent, then the completion is returned or an
    exception is raised (network failure, a reply without [choices]; a
    reply without [message] raises when the caller reads [message.content],
    which is before the caller writes anything). *)
Definition callLlm (llm : LlmRequest -> Completion LlmMessage)
  (req : LlmRequest) : M World LlmMessage :=
  fun w => (llm req, set_llmCalls (fun l => l ++ [req]) w).

Section Agent.

Variable cfg : BufferConfig.
Variable llm : LlmRequest -> Completion LlmMessage.
(** [Date.now()]. *)
Variable now : N.

Definition addMessage (message : MessageInput) : M World unit :=
  sql_insert_or_replace (mi_id message)
    {| row_role := mi_role message;
       row_content := mi_content message;
       row_tool_calls := mi_tool_calls message;
       row_tool_call_id := mi_tool_call_id message |};;
  modify (set_messageBuffer (fun buf => buf ++ [mi_id message])).

(** [Math.floor(bufferSize * PRUNE_PERCENTAGE)]. *)
Definition numToRemove (bufferSize : nat) : Integral :=
  Float64.Math_floor
    (Float64.mul (Float64.of_Z (Z.of_nat bufferSize)) (PRUNE_PERCENTAGE cfg)).

Definition summaryMessageId : string :=
  SUMMARY_MESSAGE_ID_PREFIX cfg +:+ pretty now.

Definition summaryMessage (summary : Content) : string :=
  "The following is a summary of the previous messages:" +:+
  String "010" (template summary).

Definition summaryRow (summary : Content) : Row := {|
  row_role := RoleUser;
  row_content := Some (summaryMessage summary);
  row_tool_calls := None;
  row_tool_call_id := None
|}.

Definition summarizeAndPruneMessages : M World unit :=
  w ← get;
  let bufferSize := length (messageBuffer w) in
  if (bufferSize <=? MAX_MESSAGES cfg)%nat then mret tt
  else
    let idsToSummarize :=
      slice (messageBuffer w) (Int 0) (Some (numToRemove bufferSize)) in
    let idsToKeep := slice (messageBuffer w) (numToRemove bufferSize) None in
    let messagesToSummarize :=
      omap (fun id => message_of_row <$> (messages w !! id)) idsToSummarize in
    message ← callLlm llm (SummarizeConversation messagesToSummarize);
    sql_insert_or_replace summaryMessageId (summaryRow (content message));;
    modify (set_messageBuffer (fun _ => summaryMessageId :: idsToKeep)).

End Agent.

End MyAgent.

(** ** The built-in string and array operations the sources call *)

Module JsString.

Definition newline : ascii := "010"%char.

(** [s.substring(start, end)] for indices that are not negative: both are
    clamped to the length and swapped when out of order. *)
Definition substring (s : string) (start : nat) (end_ : option nat) : string :=
  let len := String.length s in
  let intStart := Nat.min start len in
  let intEnd := match end_ with Some e => Nat.min e len | None => len end in
  let from := Nat.min intStart intEnd in
  let to := Nat.max intStart intEnd in
  String.substring from (to - from) s.

(** [s.lastIndexOf(searchString, position)]: the largest index [k] with
    [k <= position] at which [searchString] occurs, or [-1]. The scan walks
    [s] from index [i] and remembers the last hit in [acc]. *)
Fixpoint lastIndexOf_from (s searchString : string) (position i : nat)
  (acc : Z) : Z :=
  if (position <? i)%nat then acc
  else
    let acc' := if String.prefix searchString s then Z.of_nat i else acc in
    match s with
    | EmptyString => acc'
    | String _ rest => lastIndexOf_from rest searchString position (S i) acc'
    end.

Definition lastIndexOf (s searchString : string) (position : nat) : Z :=
  lastIndexOf_from s searchString position 0 (-1).

(** [s.split(sep)] for a separator of one character. *)
Fixpoint split (sep : ascii) (s : string) : list string :=
  match s with
  | EmptyString => [EmptyString]
  | String c rest =>
      if decide (c = sep) then EmptyString :: split sep rest
      else
        match split sep rest with
        | line :: lines => String c line :: lines
        | [] => [String c EmptyString]
        end
  end.

(** [lines.join(sep)]. *)
Fixpoint join (sep : string) (lines : list string) : string :=
  match lines with
  | [] => EmptyString
  | [line] => line
  | line :: rest => line +:+ sep +:+ join sep rest
  end.

(** [lines.splice(start, 0, item)]: insertion at a relative index. *)
Definition splice_insert {A} (lines : list A) (start : Z) (item : A) : list A :=
  let k := Z.to_nat (relativeIndex (Z.of_nat (length lines)) (Int start)) in
  take k lines ++ item :: drop k lines.

(** [GetSubstitution] of ECMA-262 for a string pattern (no captures):
    in the replacement template [$$] stands for a dollar sign, [$&] for the
    matched text, [$`] and [$'] for the text before and after the match;
    any other [$] is copied. *)
Fixpoint GetSubstitution (matched before after template : string) : string :=
  match template with
  | EmptyString => EmptyString
  | String c rest =>
      if decide (c = "$"%char) then
        match rest with
        | String d rest' =>
            if decide (d = "$"%char) then
              String "$" (GetSubstitution matched before after rest')
            else if decide (d = "&"%char) then
              matched +:+ GetSubstitution matched before after rest'
            else if decide (d = "`"%char) then
              before +:+ GetSubstitution matched before after rest'
            else if decide (d = "'"%char) then
              after +:+ GetSubstitution matched before after rest'
            else String c (GetSubstitution matched before after rest)
        | EmptyString => String c EmptyString
        end
      else String c (GetSubstitution matched before after rest)
  end.

(** [s.replaceAll(searchString, replaceValue)] with two strings: one scan
    from left to right over the matches that do not overlap. [rest] is the
    text from index [pos] on; [skip] counts the characters of the current
    match still to pass over. An empty [searchString] matches before every
    character and at the end. *)
Fixpoint replaceAll_from (whole searchString replaceValue : string)
  (rest : string) (pos skip : nat) : string :=
  match skip with
  | S skip' =>
      match rest with
      | EmptyString => EmptyString
      | String _ rest' =>
          replaceAll_from whole searchString replaceValue rest' (S pos) skip'
      end
  | O =>
      if String.prefix searchString rest then
        let replacement :=
          GetSubstitution searchString
            (substring whole 0 (Some pos))
            (substring whole (pos + String.length searchString) None)
            replaceValue in
        match rest with
        | EmptyString => replacement
        | String c rest' =>
            match String.length searchString with
            | O =>
                replacement +:+
                String c
                  (replaceAll_from whole searchString replaceValue rest'
                     (S pos) 0)
            | S n =>
                replacement +:+
                replaceAll_from whole searchString replaceValue rest'
                  (S pos) n
            end
        end
      else
        match rest with
        | EmptyString => EmptyString
        | String c rest' =>
            String c
              (replaceAll_from whole searchString replaceValue rest' (S pos) 0)
        end
  end.

Definition replaceAll (s searchString replaceValue : string) : string :=
  replaceAll_from s searchString replaceValue s 0 0.

(** White space of [String.prototype.trim] among the Latin-1 characters. *)
Definition is_whitespace (c : ascii) : bool :=
  let n := nat_of_ascii c in
  ((9 <=? n) && (n <=? 13) || (n =? 32) || (n =? 160))%nat.

Fixpoint trimStart (s : string) : string :=
  match s with
  | EmptyString => EmptyString
  | String c rest => if is_whitespace c then trimStart rest else s
  end.

Fixpoint trimEnd (s : string) : string :=
  match s with
  | EmptyString => EmptyString
  | String c rest =>
      match trimEnd rest with
      | EmptyString => if is_whitespace c then EmptyString
                       else String c EmptyString
      | rest' => String c rest'
      end
  end.

Definition trim (s : string) : string := trimEnd (trimStart s).

End JsString.

(** ** index.ts: context of a guild channel *)

Module GuildContext.
Import MyAgent JsString.

(** A message returned by the Discord REST API. [dm_id] is [BigInt(m.id)]. *)
Record DiscordMessage : Type := {
  dm_id : N;
  dm_author : string;
  dm_content : string
}.

(** The context handed to the prompt builder. *)
Record Context : Type := {
  ctx_summary : string;
  ctx_recentMessages : list DiscordMessage
}.

(** [a || b] on strings that may be undefined. *)
Definition or_else (a : option string) (b : string) : string :=
  match truthy_string a with
  | Some s => s
  | None => b
  end.

(** [msgs.reduce((oldest, msg) =>
       BigInt(msg.id) < BigInt(oldest.id) ? msg : oldest)]
    on an array whose first element is [first]. *)
Definition oldestOf (first : DiscordMessage) (others : list DiscordMessage)
  : DiscordMessage :=
  fold_left
    (fun oldest msg => if (dm_id msg <? dm_id oldest)%N then msg else oldest)
    others first.

(** Insertion into a list sorted by id, oldest first: the order that
    [msgs.sort((a, b) => (BigInt(a.id) < BigInt(b.id) ? -1 : 1))] produces
    on messages with distinct ids. *)
Fixpoint insert_by_id (m : DiscordMessage) (l : list DiscordMessage)
  : list DiscordMessage :=
  match l with
  | [] => [m]
  | x :: rest =>
      if (dm_id m <? dm_id x)%N then m :: l else x :: insert_by_id m rest
  end.

Definition sort_by_id (msgs : list DiscordMessage) : list DiscordMessage :=
  foldr insert_by_id [] msgs.

Section Context.

(** [fetchChannelMessages(channelId, { limit: 100, before })]: the reply of
    the platform, or the rejection of the request. *)
Variable fetchChannelMessages :
  string -> option N -> Promise (list DiscordMessage).
Variable llm : LlmRequest -> Completion LlmMessage.

Definition liftP {A} (p : Promise A) : M World A := fun w => (await p, w).

Definition summarizeMessages (previousSummary : string)
  (msgs : list DiscordMessage) : M World string :=
  let sorted := sort_by_id msgs in
  let text :=
    join (String newline EmptyString)
      (map (fun m => dm_author m +:+ ": " +:+ dm_content m) sorted) in
  completion ← callLlm llm (SummarizeThread previousSummary text);
  let trimmed :=
    match content completion with
    | ContentString s => Some (trim s)
    | _ => None
    end in
  mret (or_else trimmed (or_else (Some previousSummary) "")).

Definition buildContextFromDiscord (channelId : string) : M World Context :=
  w ← get;
  let checkpoint :=
    default {| oldestSeenMessageId := None; summary := None |}
      (channelCheckpoints w !! channelId) in
  recentMessages ← liftP (fetchChannelMessages channelId None);
  match recentMessages with
  | [] =>
      mret {| ctx_summary := or_else (summary checkpoint) "";
              ctx_recentMessages := [] |}
  | first :: others =>
      let oldestRecent := oldestOf first others in
      let needsSummarization :=
        (length recentMessages =? 100)%nat &&
        match oldestSeenMessageId checkpoint with
        | None => true
        | Some seen => negb (dm_id oldestRecent =? seen)%N
        end in
      let summary0 := or_else (summary checkpoint) "" in
      if needsSummarization then
        olderMessages ←
          liftP (fetchChannelMessages channelId (Some (dm_id oldestRecent)));
        if (0 <? length olderMessages)%nat then
          summary1 ← summarizeMessages summary0 olderMessages;
          modify (set_channelCheckpoints
                    (<[channelId :=
                         {| oldestSeenMessageId := Some (dm_id oldestRecent);
                            summary := Some summary1 |}]>));;
          mret {| ctx_summary := summary1;
                  ctx_recentMessages := recentMessages |}
        else
          mret {| ctx_summary := summary0;
                  ctx_recentMessages := recentMessages |}
      else
        mret {| ctx_summary := summary0;
                ctx_recentMessages := recentMessages |}
  end.

End Context.

End GuildContext.

(** ** tools.ts *)

Module Tools.
Import MyAgent JsString.

(** [insert_line] holds the integral part of the number ([splice]
    truncates a fractional index). *)
Record MemoryInsertParamsT : Type := {
  mi_label : string;
  mi_new_str : string;
  mi_insert_line : Z
}.

Record MemoryReplaceParamsT : Type := {
  mr_label : string;
  mr_old_str : string;
  mr_new_str : string
}.

(** The parsed [arguments] object of a tool call: each tool reads the
    properties its schema names. *)
Record Args : Type := {
  arg_label : string;
  arg_new_str : string;
  arg_insert_line : Z;
  arg_old_str : string;
  arg_query : string;
  arg_urls : list string
}.

Definition insertParams (a : Args) : MemoryInsertParamsT :=
  {| mi_label := arg_label a; mi_new_str := arg_new_str a;
     mi_insert_line := arg_insert_line a |}.

Definition replaceParams (a : Args) : MemoryReplaceParamsT :=
  {| mr_label := arg_label a; mr_old_str := arg_old_str a;
     mr_new_str := arg_new_str a |}.

(** What [getCurrentAgent()] finds: the agent whose request is being
    served, or nothing outside of an agent context. *)
Definition AgentSlot : Type := option World.

Definition with_value (b : MemoryBlockI) (v : string) (t : N) : MemoryBlockI :=
  {| label := label b; description := description b; value := v;
     limit := limit b; readOnly := readOnly b; lastUpdated := t |}.

Definition hasBlock (w : World) (l : string) : bool :=
  bool_decide (Exists (fun b => label b = l) (blocks w)).

Section Memory.

(** [Date.now()]. *)
Variable now : N.

Definition memoryInsert (params : MemoryInsertParamsT) : M AgentSlot string :=
  slot ← get;
  match slot with
  | None => throw (ErrorObj "Expected agent")
  | Some agent =>
      if negb (hasBlock agent (mi_label params)) then mret "Block not found"
      else
        let blocks' :=
          map (fun b =>
                 if decide (label b = mi_label params) then
                   let lines := split newline (value b) in
                   let lines' :=
                     splice_insert lines (mi_insert_line params)
                       (mi_new_str params) in
                   with_value b (join (String newline EmptyString) lines') now
                 else b)
              (blocks agent) in
        put (Some (set_blocks (fun _ => blocks') agent));;
        mret "Successfully inserted into memory block"
  end.

Definition memoryReplace (params : MemoryReplaceParamsT) : M AgentSlot string :=
  slot ← get;
  match slot with
  | None => throw (ErrorObj "Expected agent")
  | Some agent =>
      if negb (hasBlock agent (mr_label params)) then mret "Block not found"
      else
        let blocks' :=
          map (fun b =>
                 if decide (label b = mr_label params) then
                   with_value b
                     (replaceAll (value b) (mr_old_str params)
                        (mr_new_str params))
                     now
                 else b)
              (blocks agent) in
        put (Some (set_blocks (fun _ => blocks') agent));;
        mret "Successfully inserted into memory block"
  end.

End Memory.

(** An HTTP response as the tools read it; [text] is the promise that
    [response.text()] returns. *)
Record Response : Type := {
  status : N;
  statusText : string;
  text : Promise string
}.

Definition ok (r : Response) : bool := ((200 <=? status r) && (status r <=? 299))%N.

Section Search.

(** The outcome of the [i]-th call of [fetch] made by one tool run. *)
Variable fetch : nat -> Promise Response.

Definition retries : nat := 3.

(** The body of [for (let i = 0; i < retries; i++) { try ... catch ... }]
    followed by the final [return]: [remaining] iterations are left and the
    loop variable is [i]. [failure] is the message of the error thrown on a
    response that is not ok, [exhausted] what is returned after the loop. *)
Fixpoint retryLoop (failure exhausted : string) (remaining i : nat)
  : Promise string :=
  match remaining with
  | O => Fulfilled exhausted
  | S remaining' =>
      match await (fetch i) with
      | Normal response =>
          if (status response =? 429)%N then
            retryLoop failure exhausted remaining' (S i)
          else if negb (ok response) then
            if (retries - 1 <=? i)%nat then
              Rejected (ErrorObj (failure +:+ statusText response))
            else retryLoop failure exhausted remaining' (S i)
          else text response
      | Throw error =>
          if (retries - 1 <=? i)%nat then Rejected error
          else retryLoop failure exhausted remaining' (S i)
      end
  end.

Definition internetSearch (query : string) : Promise string :=
  retryLoop "Failed to search the internet: "
    "Error: Failed to search the internet" retries 0.

Definition readWebsites (urls : list string) : Promise string :=
  retryLoop "Failed to search the internet: "
    "Error: Failed to read the website(s)" retries 0.

End Search.

Section Dispatch.

Variable now : N.
Variable fetch : nat -> Promise Response.

Definition errorMessage (e : JsError) : string :=
  match e with
  | ErrorObj message => message
  | NonError => "Unknown error"
  end.

(** A synchronous tool called inside [try { return tool(args) } catch ...]:
    a throw is caught and its message returned. *)
Definition tryReturn (tool : M AgentSlot string)
  : AgentSlot -> Promise (option string) * AgentSlot :=
  fun slot =>
    match tool slot with
    | (Normal result, slot') => (Fulfilled (Some result), slot')
    | (Throw e, slot') => (Fulfilled (Some (errorMessage e)), slot')
    end.

(** An [async] tool called inside the same [try]: the call itself returns a
    promise without throwing, and [return promise] (no [await]) hands that
    promise to the caller; the [catch] clause never sees its rejection. *)
Definition returnPromise (p : Promise string)
  : AgentSlot -> Promise (option string) * AgentSlot :=
  fun slot =>
    (match p with
     | Fulfilled result => Fulfilled (Some result)
     | Rejected e => Rejected e
     end, slot).

(** [callTool(toolName, args)]: the promise it returns and the agent state
    it leaves. An unknown name falls through: the promise fulfils with
    [undefined]. *)
Definition callTool (toolName : string) (args : Args)
  : AgentSlot -> Promise (option string) * AgentSlot :=
  if decide (toolName = "memory_insert") then
    tryReturn (memoryInsert now (insertParams args))
  else if decide (toolName = "memory_replace") then
    tryReturn (memoryReplace now (replaceParams args))
  else if decide (toolName = "internet_search") then
    returnPromise (internetSearch fetch (arg_query args))
  else if decide (toolName = "read_website") then
    returnPromise (readWebsites fetch (arg_urls args))
  else fun slot => (Fulfilled None, slot).

End Dispatch.

End Tools.

(** ** discord/agent.ts: splitting a reply into messages *)

Module DiscordAgent.
Import JsString.

(** One pass of the [while (remaining.length > 0)] loop per unit of fuel;
    [None] when the fuel runs out before the loop ends. *)
Fixpoint splitLoop (fuel maxLength : nat) (remaining : string)
  (chunks : list string) : option (list string) :=
  match fuel with
  | O => None
  | S fuel' =>
      if (String.length remaining =? 0)%nat then Some chunks
      else if (String.length remaining <=? maxLength)%nat then
        Some (chunks ++ [remaining])
      else
        let splitIndex :=
          lastIndexOf remaining (String newline EmptyString) maxLength in
        let splitIndex :=
          if (splitIndex =? -1) || (splitIndex =? 0)
          then lastIndexOf remaining " " maxLength else splitIndex in
        let splitIndex :=
          if (splitIndex =? -1) || (splitIndex =? 0)
          then Z.of_nat maxLength else splitIndex in
        splitLoop fuel' maxLength
          (substring remaining (Z.to_nat (splitIndex + 1)) None)
          (chunks ++ [substring remaining 0 (Some (Z.to_nat splitIndex))])
  end.

Definition splitMessageByNewline (text : string) (maxLength : nat)
  : option (list string) :=
  if (String.length text <=? maxLength)%nat then Some [text]
  else splitLoop (S (String.length text)) maxLength text [].

End DiscordAgent.

(** ** Predicates and environments used by the statements *)

Module Props.
Import MyAgent GuildContext.

(** No dangling reference: every id of the buffer names a stored row. *)
Definition no_dangling (w : World) : Prop :=
  forall id : string, id ∈ messageBuffer w -> is_Some (messages w !! id).

(** The request that [summarizeAndPruneMessages] sends when it fires. *)
Definition pruneRequest (cfg : BufferConfig) (w : World) : LlmRequest :=
  SummarizeConversation
    (omap (fun id => message_of_row <$> (messages w !! id))
       (slice (messageBuffer w) (Int 0)
          (Some (numToRemove cfg (length (messageBuffer w)))))).

(** The mantissa of [Float64.lit_0_7]: [0.7 * 2^53] rounded to an integer,
    so that the literal denotes [mant_0_7 / 2^53]. *)
Definition mant_0_7 : Z := 6305039478318694.

(** Modelled from the spec: the reply of the chat platform to
    [fetchRecentMessages(channelId, {limit, before?})] (sections 4.3 and 6),
    which the sources reach through the Discord REST API and do not
    contain. [log] is the history of the channel, oldest first; the reply
    is the page of the (at most) 100 most recent messages, of those older
    than [before] when it is given, newest first. *)
Definition page (log : list DiscordMessage) (before : option N)
  : list DiscordMessage :=
  let eligible :=
    match before with
    | None => log
    | Some b => filter (fun m => (dm_id m < b)%N) log
    end in
  reverse (drop (length eligible - 100) eligible).

Definition platform (log : list DiscordMessage)
  : string -> option N -> Promise (list DiscordMessage) :=
  fun _ before => Fulfilled (page log before).


Definition seenId (channelId : string) (w : World) : option N :=
  cp ← channelCheckpoints w !! channelId; oldestSeenMessageId cp.

Section Run.

Variable channelId : string.
Variable llm : LlmRequest -> Completion LlmMessage.





End Run.

End Props.

(** ** Measures on strings used by the statements *)

Module StringFacts.
Import JsString.

Definition nl : string := String newline EmptyString.

(** [c] occurs in [s]. *)
Fixpoint occurs (c : ascii) (s : string) : bool :=
  match s with
  | EmptyString => false
  | String a rest => bool_decide (a = c) || occurs c rest
  end.

(** Number of occurrences of a character. *)
Fixpoint count (c : ascii) (s : string) : nat :=
  match s with
  | EmptyString => 0
  | String a rest => (if decide (a = c) then 1 else 0) + count c rest
  end.

(** Every [c] of [s] replaced by the text [new]. *)
Fixpoint subst_char (c : ascii) (new : string) (s : string) : string :=
  match s with
  | EmptyString => EmptyString
  | String a rest =>
      if decide (a = c) then new +:+ subst_char c new rest
      else String a (subst_char c new rest)
  end.

Definition short (maxLength : nat) (chunk : string) : Prop :=
  (String.length chunk <= maxLength)%nat.

End StringFacts.

(** ** Concrete states and environments the theorems are run on *)

Module Samples.
Import JsString MyAgent GuildContext Tools Props StringFacts.

(** A table that holds one row per id of the buffer. *)
Definition sampleRow (id : string) : Row :=
  {| row_role := RoleUser; row_content := Some id;
     row_tool_calls := None; row_tool_call_id := None |}.

Definition sampleIds (n : nat) : list string :=
  map (fun i : nat => "m" +:+ pretty i) (seq 0 n).

Definition sampleWorld (n : nat) : World :=
  {| messages := list_to_map (map (fun id => (id, sampleRow id)) (sampleIds n));
     messageBuffer := sampleIds n;
     channelCheckpoints := ∅; blocks := []; llmCalls := [] |}.

Definition sampleMessage : LlmMessage :=
  {| content := ContentString "We talked."; tool_calls := None |}.

Definition llm_ok (_ : LlmRequest) : Completion LlmMessage :=
  Normal sampleMessage.

Definition llm_down (_ : LlmRequest) : Completion LlmMessage :=
  Throw (ErrorObj "fetch failed").

Definition sampleBlock : MemoryBlockI :=
  {| label := "human"; description := "What I know about the user.";
     value := "First name: ?" +:+ nl +:+ "Last name: ?"; limit := 5000;
     readOnly := None; lastUpdated := 0 |}.

Definition sampleAgent : World :=
  {| messages := ∅; messageBuffer := []; channelCheckpoints := ∅;
     blocks := [sampleBlock]; llmCalls := [] |}.

Definition xBlock : MemoryBlockI :=
  {| label := "notes"; description := ""; value := "axbxcx"; limit := 5000;
     readOnly := None; lastUpdated := 0 |}.

Definition xAgent : World :=
  {| messages := ∅; messageBuffer := []; channelCheckpoints := ∅;
     blocks := [xBlock]; llmCalls := [] |}.

Definition mkMessage (i : nat) : DiscordMessage :=
  {| dm_id := N.of_nat i; dm_author := "user"; dm_content := "hello" |}.

(** A channel with the messages 1, 2, ..., n. *)
Definition history (n : nat) : list DiscordMessage := map mkMessage (seq 1 n).

Definition llm_sum (_ : LlmRequest) : Completion LlmMessage :=
  Normal {| content := ContentString "So far: greetings.";
            tool_calls := None |}.






(** A search service that answers every request with HTTP 500. *)
Definition fetch_500 (_ : nat) : Promise Response :=
  Fulfilled {| status := 500; statusText := "Internal Server Error";
               text := Fulfilled "" |}.

Definition sampleArgs : Args :=
  {| arg_label := "human"; arg_new_str := "Age: ?"; arg_insert_line := 0;
     arg_old_str := ""; arg_query := "weather in Lisbon"; arg_urls := [] |}.

End Samples.

(** ** Further measures used by the statements *)

Module TextFacts.
Import JsString.

(** The text that is read back from the chunks of a split message when
    the character dropped after each chunk is put back: chunk, gap, chunk,
    gap, ... (a last chunk may come without gap). *)
Fixpoint rebuild (chunks : list string) (gaps : list ascii) : string :=
  match chunks with
  | [] => EmptyString
  | chunk :: chunks' =>
      match gaps with
      | [] => chunk +:+ rebuild chunks' []
      | gap :: gaps' => chunk +:+ String gap (rebuild chunks' gaps')
      end
  end.

(** [search] occurs in [s] at some index. *)
Fixpoint includes (s search : string) : bool :=
  String.prefix search s ||
  match s with
  | EmptyString => false
  | String _ rest => includes rest search
  end.

(** The character dropped after a chunk is a line break or a space, or
    the chunk was cut at full length. *)
Definition gaps_ok (maxLength : nat) (chunks : list string)
  (gaps : list ascii) : Prop :=
  forall (i : nat) (chunk : string) (gap : ascii),
    chunks !! i = Some chunk -> gaps !! i = Some gap ->
    gap = newline \/ gap = " "%char \/ String.length chunk = maxLength.
(** Sum of the lengths of the lines of a block. *)
Definition total_length (lines : list string) : nat :=
  foldr (fun line n => (String.length line + n)%nat) 0%nat lines.

End TextFacts.

(** ** index.ts: reading the context window *)

Module Conversation.
Import MyAgent.

(** [getMessages]: the rows of the ids of the buffer, turned into message
    objects and listed in buffer order; an id without row is left out. *)
Definition getMessages : M World (list ChatMessage) :=
  w ← get;
  if (length (messageBuffer w) =? 0)%nat then mret []
  else
    mret (omap (fun id => message_of_row <$> (messages w !! id))
            (messageBuffer w)).

(** The message object that [getMessages] shows for a turn passed to
    [addMessage]. *)
Definition message_of_input (m : MessageInput) : ChatMessage :=
  message_of_row
    {| row_role := mi_role m; row_content := mi_content m;
       row_tool_calls := mi_tool_calls m;
       row_tool_call_id := mi_tool_call_id m |}.

End Conversation.

(** ** Order of the messages of a channel *)

Module GuildFacts.
Import GuildContext.

(** [a] was posted before [b]. *)
Definition older_than (a b : DiscordMessage) : Prop := (dm_id a < dm_id b)%N.

End GuildFacts.

(** ** Outcomes of one HTTP attempt *)

Module Attempts.
Import Tools.

(** An attempt that the retry loop of the search tools passes over when
    it is not the last one: the request failed, or the answer is not ok
    (HTTP 429 included). *)
Definition soft (p : Promise Response) : Prop :=
  match p with
  | Fulfilled response => ok response = false
  | Rejected _ => True
  end.

End Attempts.

(** ** More concrete environments *)

Module MoreSamples.
Import MyAgent Tools Samples.

Definition response_sunny : Response :=
  {| status := 200; statusText := "OK"; text := Fulfilled "sunny" |}.

(** A search service that answers 500 twice and then recovers. *)
Definition fetch_recovers (i : nat) : Promise Response :=
  if (i <? 2)%nat then fetch_500 i else Fulfilled response_sunny.

End MoreSamples.

(** ** utils.ts: the [Memory] class and [hexToBytes] *)

Module Utils.
Import MyAgent JsString.

Section Render.

(** [CORE_MEMORY_LINE_NUMBER_WARNING]; the text holds an arrow that is
    not an 8-bit character, so it is taken as given. *)
Variable CORE_MEMORY_LINE_NUMBER_WARNING : string.
(** [new Date(ms).toDateString()]. *)
Variable toDateString : N -> string.
(** [Date.now()] when the prompt is compiled. *)
Variable today : N.

Definition lf : string := String newline EmptyString.

(** The lines of a value with their numbers:
    [value.split("\n").forEach((line, idx) => s += `Line ${idx}: ${line}\n`)]. *)
Fixpoint numberedLines (idx : nat) (lines : list string) : string :=
  match lines with
  | [] => EmptyString
  | line :: rest =>
      "Line " +:+ pretty idx +:+ ": " +:+ line +:+ lf
      +:+ numberedLines (S idx) rest
  end.

(** What one pass of [this.blocks.forEach] appends for a block; [last]
    tells whether [idx] is [this.blocks.length - 1]. *)
Definition renderBlock (includeLineNumbers last : bool) (block : MemoryBlockI)
  : string :=
  "<" +:+ label block +:+ ">" +:+ lf
  +:+ "<description>" +:+ lf
  +:+ description block +:+ lf
  +:+ "</description>" +:+ lf
  +:+ "<metadata>"
  +:+ (match readOnly block with
       | Some true => lf +:+ "- read_only=true"
       | _ => EmptyString
       end)
  +:+ lf +:+ "- chars_current=" +:+ pretty (String.length (value block))
  +:+ lf +:+ "- chars_limit=" +:+ pretty (limit block) +:+ lf
  +:+ "</metadata>" +:+ lf
  +:+ "<value>" +:+ lf
  +:+ (if includeLineNumbers then
         CORE_MEMORY_LINE_NUMBER_WARNING +:+ lf
         +:+ (if decide (value block = EmptyString) then EmptyString
              else numberedLines 0 (split newline (value block)))
       else value block +:+ lf)
  +:+ "</value>" +:+ lf
  +:+ "</" +:+ label block +:+ ">" +:+ lf
  +:+ (if last then EmptyString else lf).

Fixpoint renderEach (includeLineNumbers : bool) (blocks : list MemoryBlockI)
  : string :=
  match blocks with
  | [] => EmptyString
  | [block] => renderBlock includeLineNumbers true block
  | block :: rest =>
      renderBlock includeLineNumbers false block
      +:+ renderEach includeLineNumbers rest
  end.

Definition renderMemoryBlocks (blocks : list MemoryBlockI) (s : string)
  (includeLineNumbers : bool) : string :=
  if (length blocks =? 0)%nat then s
  else
    s +:+ "<memory_blocks>" +:+ lf
    +:+ "The following memory blocks are currently engaged in your core memory unit:"
    +:+ lf +:+ lf
    +:+ renderEach includeLineNumbers blocks
    +:+ lf +:+ "</memory_blocks>".

(** [this.blocks.reduce((acc, b) => Math.max(acc, b.lastUpdated), 0)]. *)
Definition lastModified (blocks : list MemoryBlockI) : N :=
  fold_left (fun acc b => N.max acc (lastUpdated b)) blocks 0%N.

Definition renderMemoryMetadata (blocks : list MemoryBlockI) (s : string)
  : string :=
  s +:+ "<memory_metadata>" +:+ lf
  +:+ "- The current time is: " +:+ toDateString today +:+ lf
  +:+ "- Memory blocks were last modified: "
  +:+ toDateString (lastModified blocks) +:+ lf
  +:+ "</memory_metadata>" +:+ lf.

Definition compile (blocks : list MemoryBlockI) : string :=
  renderMemoryMetadata blocks (renderMemoryBlocks blocks EmptyString false).

End Render.

(** The value of a hexadecimal digit, upper or lower case. *)
Definition hexDigitValue (c : ascii) : option N :=
  let n := N_of_ascii c in
  if ((48 <=? n) && (n <=? 57))%N then Some (n - 48)%N
  else if ((97 <=? n) && (n <=? 102))%N then Some (n - 87)%N
  else if ((65 <=? n) && (n <=? 70))%N then Some (n - 55)%N
  else None.

Fixpoint allHex (s : string) : bool :=
  match s with
  | EmptyString => true
  | String c rest => bool_decide (is_Some (hexDigitValue c)) && allHex rest
  end.

(** [/^[0-9a-f]+$/i.test(hex)]: one hexadecimal digit or more. *)
Definition isHex (hex : string) : bool :=
  negb (bool_decide (hex = EmptyString)) && allHex hex.

(** [out[i] = parseInt(hex.slice(i * 2, i * 2 + 2), 16)] for
    [i < hex.length / 2]. *)
Fixpoint parsePairs (hex : string) : list N :=
  match hex with
  | String hi (String lo rest) =>
      (16 * default 0 (hexDigitValue hi) + default 0 (hexDigitValue lo))%N
      :: parsePairs rest
  | _ => []
  end.

(** [hexToBytes]: the bytes of the buffer it returns. *)
Definition hexToBytes (hex : string) : Completion (list N) :=
  if negb (isHex hex) || negb (String.length hex mod 2 =? 0)%nat
  then Throw (ErrorObj "bad hex")
  else Normal (parsePairs hex).

End Utils.

(** ** slack.ts: hexadecimal digest and constant-time comparison *)

Module Slack.

Definition hexDigit (d : N) : ascii :=
  if (d <? 10)%N then ascii_of_N (48 + d) else ascii_of_N (87 + d).

(** [b.toString(16)] for a byte. *)
Definition toString16 (b : N) : string :=
  if (b <? 16)%N then String (hexDigit b) EmptyString
  else String (hexDigit (b / 16)) (String (hexDigit (b mod 16)) EmptyString).

(** [s.padStart(2, "0")]. *)
Definition padStart2 (s : string) : string :=
  match String.length s with
  | 0%nat => "00"
  | 1%nat => "0" +:+ s
  | _ => s
  end.

(** [[...bytes].map((b) => b.toString(16).padStart(2, "0")).join("")]:
    the digest that [hmacSHA256] returns for the bytes of a signature. *)
Definition toHex (bytes : list N) : string :=
  foldr (fun b rest => padStart2 (toString16 b) +:+ rest) EmptyString bytes.

(** The UTF-8 bytes of one code unit below 256. *)
Definition utf8 (c : ascii) : list Z :=
  let n := Z.of_N (N_of_ascii c) in
  if n <? 128 then [n]
  else [Z.lor 192 (Z.shiftr n 6); Z.lor 128 (Z.land n 63)].

(** [new TextEncoder().encode(s)]. *)
Fixpoint encode (s : string) : list Z :=
  match s with
  | EmptyString => []
  | String c rest => utf8 c ++ encode rest
  end.

(** [for (let i = 0; i < A.length; i++) diff |= A[i] ^ B[i]]. *)
Fixpoint accumulate (A B : list Z) (diff : Z) : Z :=
  match A, B with
  | x :: A', y :: B' => accumulate A' B' (Z.lor diff (Z.lxor x y))
  | _, _ => diff
  end.

Definition timingSafeEqual (a b : string) : bool :=
  let A := encode a in
  let B := encode b in
  if negb (length A =? length B)%nat then false
  else accumulate A B 0 =? 0.

End Slack.


(** ** index.ts: the loop that answers a direct message *)

Module Chat.
Import MyAgent Tools Conversation.

(** The body of the request that the loop sends through [callLlm]; the
    model name, the provider and the tool schemas are constants. *)
Record ChatRequest : Type := {
  cr_system : string;
  cr_messages : list ChatMessage
}.

(** The agent during one run of [doSomethingSmart]: its state, the
    requests that the loop has sent to the model (a ghost field), and how
    many times [crypto.randomUUID] and [callTool] have been called. *)
Record Session : Type := {
  world : World;
  chatCalls : list ChatRequest;
  uuids : nat;
  toolRuns : nat
}.

Definition set_world (f : World -> World) (s : Session) : Session :=
  {| world := f (world s); chatCalls := chatCalls s; uuids := uuids s;
     toolRuns := toolRuns s |}.

(** A method of the agent run inside the session. *)
Definition liftW {A} (m : M World A) : M Session A :=
  fun s =>
    let '(c, w) := m (world s) in (c, set_world (fun _ => w) s).

(** A value or exception that does not touch the state. *)
Definition liftC {S A} (c : Completion A) : M S A := fun s => (c, s).

Section Loop.

Variable cfg : Constants.BufferConfig.
(** The model, asked for a summary by [summarizeAndPruneMessages]. *)
Variable llm : LlmRequest -> Completion LlmMessage.
(** The model, asked by the loop: the outcome of its [n]-th request. *)
Variable chat : nat -> ChatRequest -> Completion LlmMessage.
(** [Date.now()] at the prune step and in the [k]-th run of a tool. *)
Variable now : N.
Variable toolTime : nat -> N.
(** The outcome of the [i]-th call of [fetch] in the [k]-th run of a tool. *)
Variable fetch : nat -> nat -> Promise Response.
(** The [n]-th value of [crypto.randomUUID()]. *)
Variable randomUUID : nat -> string.
(** [JSON.parse(toolCall.function.arguments)]: the arguments object, or
    the SyntaxError. *)
Variable JSON_parse : string -> Completion Args.
(** [this.memory.system], and what [Memory.compile] depends on. *)
Variable system : string.
Variable CORE_MEMORY_LINE_NUMBER_WARNING : string.
Variable toDateString : N -> string.
Variable today : N.

Definition uuid : M Session string :=
  fun s =>
    (Normal (randomUUID (uuids s)),
     {| world := world s; chatCalls := chatCalls s; uuids := S (uuids s);
        toolRuns := toolRuns s |}).

(** [await callLlm({ model, messages: allMessages, provider, tools })]. *)
Definition callChat (req : ChatRequest) : M Session LlmMessage :=
  fun s =>
    (chat (length (chatCalls s)) req,
     {| world := world s; chatCalls := chatCalls s ++ [req];
        uuids := uuids s; toolRuns := toolRuns s |}).

(** [await callTool(name, args)] with the agent as current agent. *)
Definition awaitTool (toolName : string) (args : Args)
  : M Session (option string) :=
  fun s =>
    let '(p, slot) :=
      callTool (toolTime (toolRuns s)) (fetch (toolRuns s)) toolName args
        (Some (world s)) in
    (await p,
     {| world := default (world s) slot; chatCalls := chatCalls s;
        uuids := uuids s; toolRuns := S (toolRuns s) |}).

(** [for (const toolCall of message.tool_calls) { ... }]: the tool is
    run and its result stored as a tool turn. A result that is no string
    is the [undefined] of an unknown tool, which [JSON.stringify] leaves
    [undefined]. *)
Fixpoint runTools (calls : list ToolCall) : M Session unit :=
  match calls with
  | [] => mret tt
  | toolCall :: rest =>
      args ← liftC (JSON_parse (tc_arguments toolCall));
      response ← awaitTool (tc_name toolCall) args;
      id ← uuid;
      liftW (addMessage
               {| mi_id := id; mi_role := RoleTool; mi_content := response;
                  mi_tool_calls := None;
                  mi_tool_call_id := Some (tc_id toolCall) |});;
      runTools rest
  end.

(** [message.content] as [addMessage] stores it ([content ?? null]). *)
Definition stored (c : Content) : option string :=
  match c with
  | ContentString s => Some s
  | ContentNull | ContentUndefined => None
  end.

(** The [while (true)] loop, one pass per unit of fuel; [None] when the
    fuel runs out before the loop returns. *)
Fixpoint chatLoop (fuel : nat) : M Session (option Content) :=
  match fuel with
  | O => mret None
  | S fuel' =>
      w ← liftW get;
      let systemPrompt :=
        system +:+
        Utils.compile CORE_MEMORY_LINE_NUMBER_WARNING toDateString today
          (blocks w) in
      messages ← liftW getMessages;
      message ← callChat
        {| cr_system := systemPrompt; cr_messages := messages |};
      match tool_calls message with
      | Some (toolCall :: rest) =>
          id ← uuid;
          liftW (addMessage
                   {| mi_id := id; mi_role := RoleAssistant;
                      mi_content := None;
                      mi_tool_calls := Some (toolCall :: rest);
                      mi_tool_call_id := None |});;
          runTools (toolCall :: rest);;
          chatLoop fuel'
      | _ =>
          id ← uuid;
          liftW (addMessage
                   {| mi_id := id; mi_role := RoleAssistant;
                      mi_content := stored (content message);
                      mi_tool_calls := None; mi_tool_call_id := None |});;
          mret (Some (content message))
      end
  end.

Definition doSomethingSmart (fuel : nat) (userPrompt : string)
  : M Session (option Content) :=
  id ← uuid;
  liftW (addMessage
           {| mi_id := id; mi_role := RoleUser;
              mi_content := Some userPrompt;
              mi_tool_calls := None; mi_tool_call_id := None |});;
  liftW (summarizeAndPruneMessages cfg llm now);;
  chatLoop fuel.

End Loop.

End Chat.

(** ** Predicates and environments for the loop *)

Module ChatFacts.
Import MyAgent Tools Chat.

(** A step of the run keeps a property of the session, whether it
    returns or throws. *)
Definition keeps {A} (P : Session -> Prop) (m : M Session A) : Prop :=
  forall s : Session, P s -> P (snd (m s)).

(** A tool call whose arguments parse and which names no tool that goes
    to the network. *)
Definition quiet (JSON_parse : string -> Completion Args) (tc : ToolCall)
  : Prop :=
  (exists args, JSON_parse (tc_arguments tc) = Normal args) /\
  tc_name tc <> "internet_search" /\ tc_name tc <> "read_website".

(** The turns that the loop stores. *)
Definition userTurn (prompt : string) : ChatMessage :=
  {| cm_role := RoleUser; cm_content := truthy_string (Some prompt);
     cm_tool_calls := None; cm_tool_call_id := None |}.

Definition toolCallTurn (calls : list ToolCall) : ChatMessage :=
  {| cm_role := RoleAssistant; cm_content := None;
     cm_tool_calls := Some calls; cm_tool_call_id := None |}.

Definition answerTurn (c : Content) : ChatMessage :=
  {| cm_role := RoleAssistant; cm_content := truthy_string (stored c);
     cm_tool_calls := None; cm_tool_call_id := None |}.

(** No id of the buffer of the session is without row. *)
Definition resolved (s : Session) : Prop := Props.no_dangling (world s).

(** The context that [getMessages] reads in a state. *)
Definition context (w : World) : list ChatMessage :=
  omap (fun id => message_of_row <$> (messages w !! id)) (messageBuffer w).

End ChatFacts.

Module ChatSamples.
Import MyAgent Tools Chat Samples.

Definition session0 : Session :=
  {| world := sampleAgent; chatCalls := []; uuids := 0; toolRuns := 0 |}.

(** A session whose buffer is at its bound. *)
Definition session50 : Session :=
  {| world := sampleWorld 50; chatCalls := []; uuids := 0; toolRuns := 0 |}.

Definition uuid_of (n : nat) : string := "id-" +:+ pretty n.

Definition parse_any (_ : string) : Completion Args := Normal sampleArgs.

Definition searchCall : ToolCall :=
  {| tc_id := "call_1"; tc_name := "internet_search";
     tc_arguments := "{}" |}.

Definition insertCall : ToolCall :=
  {| tc_id := "call_2"; tc_name := "memory_insert"; tc_arguments := "{}" |}.

Definition chat_plain (_ : nat) (_ : ChatRequest) : Completion LlmMessage :=
  Normal {| content := ContentString "hi"; tool_calls := None |}.

Definition chat_down (_ : nat) (_ : ChatRequest) : Completion LlmMessage :=
  Throw (ErrorObj "fetch failed").

Definition chat_search (_ : nat) (_ : ChatRequest) : Completion LlmMessage :=
  Normal {| content := ContentNull; tool_calls := Some [searchCall] |}.

Definition chat_insert (_ : nat) (_ : ChatRequest) : Completion LlmMessage :=
  Normal {| content := ContentNull; tool_calls := Some [insertCall] |}.

Definition fetch_down (_ : nat) (i : nat) : Promise Response := fetch_500 i.

Definition date_of (t : N) : string := pretty t.

End ChatSamples.

(** ** utils.ts and discord/agent.ts: requests to the Discord API *)

Module Rest.
Import MyAgent Tools JsString.

Inductive Method : Type := GET | POST.

(** The object that is serialised into the body of a request. *)
Inductive Body : Type :=
| NoBody
| Recipient (recipient_id : option string)
| MessageBody (content : string).

Record Request : Type := {
  path : string;
  method : Method;
  body : Body
}.

(** What the agent keeps about Discord ([this.info]), the requests it
    has sent and the lines it has logged with [console.error] (two ghost
    fields). *)
Record Discord : Type := {
  sent : list Request;
  userId : option string;
  dmChannel : option string;
  errors : list (N * string)
}.

Definition set_sent (f : list Request -> list Request) (d : Discord)
  : Discord :=
  {| sent := f (sent d); userId := userId d; dmChannel := dmChannel d;
     errors := errors d |}.

Definition set_dmChannel (c : option string) (d : Discord) : Discord :=
  {| sent := sent d; userId := userId d; dmChannel := c;
     errors := errors d |}.

Definition set_userId (u : option string) (d : Discord) : Discord :=
  {| sent := sent d; userId := u; dmChannel := dmChannel d;
     errors := errors d |}.

Definition set_errors (f : list (N * string) -> list (N * string))
  (d : Discord) : Discord :=
  {| sent := sent d; userId := userId d; dmChannel := dmChannel d;
     errors := f (errors d) |}.

(** A template literal [`${x}`] of a string that may be [undefined]. *)
Definition shown (x : option string) : string :=
  match x with
  | Some s => s
  | None => "undefined"
  end.

Section Api.

(** The outcome of the [n]-th request that the agent sends. *)
Variable server : nat -> Request -> Promise Response.
(** [(data.retry_after ?? 1)] of the body of a 429 answer, where [data]
    is [await res.json().catch(() => ({}))]: a number, or the TypeError
    of reading a property of [null]. *)
Variable retry_after : Response -> Completion Z.
(** [(await res.json()).id]: the id, [undefined] when the object has
    none, or the error of a body that is no JSON object. *)
Variable json_id : Response -> Completion (option string).

Definition fetch (req : Request) : M Discord Response :=
  fun d =>
    (await (server (length (sent d)) req),
     set_sent (fun l => l ++ [req]) d).

(** [discordFetch]: one request, and the same request once more when
    the answer is 429. *)
Definition discordFetch (req : Request) : M Discord Response :=
  res ← fetch req;
  if negb (status res =? 429)%N then mret res
  else
    Chat.liftC (retry_after res);;
    fetch req.

(** [`Failed to open DM: ${res.status} ${await res.text()}`] *)
Definition openFailure (status : N) (text : string) : JsError :=
  ErrorObj ("Failed to open DM: " +:+ pretty status +:+ " " +:+ text).

Definition ensureDmChannel : M Discord (option string) :=
  d ← get;
  match truthy_string (dmChannel d) with
  | Some channel => mret (Some channel)
  | None =>
      res ← discordFetch
        {| path := "/users/@me/channels"; method := POST;
           body := Recipient (userId d) |};
      if negb (ok res) then
        text ← Chat.liftC (await (text res));
        throw (openFailure (status res) text)
      else
        id ← Chat.liftC (json_id res);
        modify (set_dmChannel id);;
        mret id
  end.

(** [sendChannelMessage] with a string: an answer that is not ok is
    logged and nothing is thrown. *)
Definition sendChannelMessage (channelId : option string) (msg : string)
  : M Discord unit :=
  res ← discordFetch
    {| path := "/channels/" +:+ shown channelId +:+ "/messages";
       method := POST; body := MessageBody msg |};
  if negb (ok res) then
    text ← Chat.liftC (await (text res));
    modify (set_errors (fun l => l ++ [(status res, text)]))
  else mret tt.

(** [for (const chunk of chunks) await this.sendChannelMessage(...)]. *)
Fixpoint sendChunks (channelId : option string) (chunks : list string)
  : M Discord unit :=
  match chunks with
  | [] => mret tt
  | chunk :: rest =>
      sendChannelMessage channelId chunk;; sendChunks channelId rest
  end.

(** The chunks of a text; the loop of the splitter ends on every text,
    so that the second case is never taken. *)
Definition chunksOf (text : string) : list string :=
  match DiscordAgent.splitMessageByNewline text 2000 with
  | Some chunks => chunks
  | None => []
  end.

(** [sendDm(msg)]; a [msg] that is [null] or [undefined] makes
    [text.length] in the splitter throw a TypeError. *)
Definition sendDm (msg : Content) : M Discord unit :=
  channelId ← ensureDmChannel;
  match msg with
  | ContentString text => sendChunks channelId (chunksOf text)
  | ContentNull | ContentUndefined =>
      throw (ErrorObj "Cannot read properties of null (reading 'length')")
  end.

End Api.

End Rest.

(** ** index.ts: a direct message arrives *)

Module Dm.
Import MyAgent Tools JsString Conversation Chat Rest.

(** The agent of a direct-message channel: its conversation, its
    Discord side, and [this.memory.system]. *)
Record Agent : Type := {
  session : Session;
  discord : Discord;
  systemText : string
}.

Definition onSession {A} (m : M Session A) : M Agent A :=
  fun a =>
    let '(c, s) := m (session a) in
    (c, {| session := s; discord := discord a;
           systemText := systemText a |}).

Definition onDiscord {A} (m : M Discord A) : M Agent A :=
  fun a =>
    let '(c, d) := m (discord a) in
    (c, {| session := session a; discord := d;
           systemText := systemText a |}).

(** A call of an [async] method whose promise is dropped: what it does
    is done, its outcome is seen by nobody. *)
Definition detached {S} (m : M S unit) : M S unit :=
  fun s => (Normal tt, snd (m s)).

(** [`\`\`\`\n${block?.value.replaceAll("```", "\`\`\`")}\n\`\`\``];
    in a string literal [\`] is a backtick. *)
Definition blockReply (blocks : list MemoryBlockI) (args : option string)
  : string :=
  "```" +:+ String newline
    (shown ((fun b => replaceAll (value b) "```" "```")
              <$> List.find (fun b => bool_decide (Some (label b) = args))
                    blocks)
     +:+ String newline "```").

Section Handler.

Variable cfg : Constants.BufferConfig.
Variable llm : LlmRequest -> Completion LlmMessage.
Variable chat : nat -> ChatRequest -> Completion LlmMessage.
Variable now : N.
Variable toolTime : nat -> N.
Variable fetch : nat -> nat -> Promise Response.
Variable randomUUID : nat -> string.
Variable JSON_parse : string -> Completion Args.
Variable CORE_MEMORY_LINE_NUMBER_WARNING : string.
Variable toDateString : N -> string.
Variable today : N.
Variable server : nat -> Request -> Promise Response.
Variable retry_after : Response -> Completion Z.
Variable json_id : Response -> Completion (option string).
(** [JSON.stringify(messages, null, 2)]. *)
Variable JSON_stringify : list ChatMessage -> string.
(** The constants that [dmOnBoot] installs. *)
Variable SYSTEM_INSTRUCTIONS : string.
Variable DEFAULT_DM_BLOCKS : list MemoryBlockI.

(** [dmOnBoot]; the buffer of a fresh agent is the empty list. *)
Definition dmOnBoot (authorId : string) : M Agent unit :=
  modify (fun a =>
    {| session :=
         set_world
           (set_blocks (fun blocks =>
              if (length blocks =? 0)%nat then DEFAULT_DM_BLOCKS
              else blocks))
           (session a);
       discord := set_userId (Some authorId) (discord a);
       systemText :=
         if decide (systemText a = EmptyString) then SYSTEM_INSTRUCTIONS
         else systemText a |}).

(** [onDmMessage]; [None] when the fuel of the loop runs out. *)
Definition onDmMessage (fuel : nat) (authorId content : string)
  : M Agent (option unit) :=
  a ← get;
  (match truthy_string (userId (discord a)) with
   | Some _ => mret tt
   | None => dmOnBoot authorId
   end);;
  if String.prefix "!" content then
    let parts := take 2 (split " " content) in
    let cmd := parts !! 0%nat in
    let args := parts !! 1%nat in
    if decide (cmd = Some "!block") then
      a ← get;
      detached
        (onDiscord
           (sendDm server retry_after json_id
              (ContentString (blockReply (blocks (world (session a))) args))));;
      mret (Some tt)
    else if decide (cmd = Some "!messages") then
      messages ← onSession (liftW getMessages);
      detached
        (onDiscord
           (sendDm server retry_after json_id
              (ContentString (JSON_stringify messages))));;
      mret (Some tt)
    else mret (Some tt)
  else
    a ← get;
    reply ← onSession
      (doSomethingSmart cfg llm chat now toolTime fetch randomUUID
         JSON_parse (systemText a) CORE_MEMORY_LINE_NUMBER_WARNING
         toDateString today fuel content);
    match reply with
    | None => mret None
    | Some reply =>
        onDiscord (sendDm server retry_after json_id reply);;
        mret (Some tt)
    end.

End Handler.

End Dm.

(** ** Predicates and environments for the requests *)

Module RestFacts.
Import MyAgent Tools Rest StringFacts.

(** The request that posts a chunk to a channel. *)
Definition post (channel chunk : string) : Request :=
  {| path := "/channels/" +:+ channel +:+ "/messages"; method := POST;
     body := MessageBody chunk |}.

(** A request whose message, if it carries one, is within the limit of
    2000 characters that Discord sets. *)
Definition fits (r : Request) : Prop :=
  match body r with
  | MessageBody content => short 2000 content
  | _ => True
  end.

(** A request that carries no message. *)
Definition silent (r : Request) : Prop :=
  match body r with
  | MessageBody _ => False
  | _ => True
  end.

(** An answer that [discordFetch] hands on at once and whose body can be
    read. *)
Definition answered (p : Promise Response) : Prop :=
  match p with
  | Fulfilled r =>
      status r <> 429%N /\ exists t, text r = Fulfilled t
  | Rejected _ => False
  end.

Definition response_of (code : N) (reason body : string) : Response :=
  {| status := code; statusText := reason; text := Fulfilled body |}.

(** A service that refuses every request with 403. *)
Definition server_forbidden (_ : nat) (_ : Request) : Promise Response :=
  Fulfilled (response_of 403 "Forbidden" "Missing Access").

(** A service that is always over its rate limit. *)
Definition server_busy (_ : nat) (_ : Request) : Promise Response :=
  Fulfilled (response_of 429 "Too Many Requests" "{}").

Definition server_ok (_ : nat) (_ : Request) : Promise Response :=
  Fulfilled (response_of 200 "OK" "{}").

Definition one_second (_ : Response) : Completion Z := Normal 1000.

Definition id_dm7 (_ : Response) : Completion (option string) :=
  Normal (Some "dm7").

Definition discord0 : Discord :=
  {| sent := []; userId := Some "42"; dmChannel := Some "dm1";
     errors := [] |}.

Definition ping : Request :=
  {| path := "/channels/1"; method := GET; body := NoBody |}.

End RestFacts.

(** ** What a direct message leaves of the conversation *)

Module DmFacts.
Import MyAgent Chat Dm.

(** The part of the agent that the model has a hand in: the message
    table, the buffer, and the requests sent to the model. *)
Definition conversation (a : Agent)
  : gmap string Row * list string * list LlmRequest * list ChatRequest :=
  (messages (world (session a)), messageBuffer (world (session a)),
   llmCalls (world (session a)), chatCalls (session a)).

(** The command word of a message. *)
Definition commandOf (content : string) : option string :=
  take 2 (JsString.split " " content) !! 0%nat.

Definition agent0 : Agent :=
  {| session := ChatSamples.session0; discord := RestFacts.discord0;
     systemText := "Be kind." |}.

Definition stringify_any (_ : list ChatMessage) : string := "[]".

Definition chat_null (_ : nat) (_ : ChatRequest) : Completion LlmMessage :=
  Normal {| content := ContentNull; tool_calls := None |}.

End DmFacts.

(* ===================================================================== *)
(** * Part II: theorems                                                   *)
(* ===================================================================== *)

(** ** Binary64 rounding of [bufferSize * 0.7] *)

Section FloatFacts.
Import Float64 Props.


(** [lit_0_7] is a normal binary64 number and no binary64 number is
    nearer to 7/10: its mantissa is within 1/2 of [0.7 * 2^53]. *)
Lemma lit_0_7_nearest :
  lit_0_7 = S754_finite false (Z.to_pos mant_0_7) (-53) /\
  valid_binary prec emax lit_0_7 = true /\
  2 * Z.abs (10 * mant_0_7 - 7 * 2 ^ 53) <= 10.
Proof. repeat split; vm_compute; congruence. Qed.

Lemma digits2_pos_bounds (p : positive) :
  2 ^ (Zpos (digits2_pos p) - 1) <= Zpos p < 2 ^ Zpos (digits2_pos p).
Proof.
  induction p as [p IH|p IH|]; cbn [digits2_pos].
  - rewrite Pos2Z.inj_succ, Z.pow_succ_r by lia.
    replace (Z.succ (Z.pos (digits2_pos p)) - 1) with (Z.succ (Z.pos (digits2_pos p) - 1)) by lia.
    rewrite Z.pow_succ_r by lia. lia.
  - rewrite Pos2Z.inj_succ, Z.pow_succ_r by lia.
    replace (Z.succ (Z.pos (digits2_pos p)) - 1) with (Z.succ (Z.pos (digits2_pos p) - 1)) by lia.
    rewrite Z.pow_succ_r by lia. lia.
  - cbn. lia.
Qed.

Lemma shr_1_m (r : shr_record) :
  0 <= shr_m r -> shr_m (shr_1 r) = shr_m r / 2 /\ 0 <= shr_m (shr_1 r).
Proof.
  destruct r as [m r s]; cbn [shr_m]. intros Hm.
  destruct m as [|[p|p|]|p]; cbn [shr_1 shr_m]; try lia.
  all: split; try lia.
  all: try reflexivity.
  - apply Z.div_unique with (r := 1); lia.
  - apply Z.div_unique with (r := 0); lia.
Qed.

Lemma pow2_xO (p : positive) : 2 ^ Z.pos p~0 = 2 ^ Z.pos p * 2 ^ Z.pos p.
Proof. rewrite <- Z.pow_add_r by lia. f_equal. lia. Qed.

Lemma pow2_xI (p : positive) : 2 ^ Z.pos p~1 = 2 * (2 ^ Z.pos p * 2 ^ Z.pos p).
Proof.
  rewrite <- Z.pow_add_r, <- Z.pow_succ_r by lia. f_equal. lia.
Qed.

Lemma iter_pos_shr_1_m (p : positive) : forall r : shr_record,
  0 <= shr_m r ->
  shr_m (SpecFloat.iter_pos shr_1 p r) = shr_m r / 2 ^ Zpos p /\
  0 <= shr_m (SpecFloat.iter_pos shr_1 p r).
Proof.
  induction p as [p IH|p IH|]; intros r Hr; cbn [SpecFloat.iter_pos].
  - destruct (shr_1_m r Hr) as [E1 P1].
    destruct (IH _ P1) as [E2 P2].
    destruct (IH _ P2) as [E3 P3].
    split; [|exact P3].
    rewrite E3, E2, E1, pow2_xI.
    rewrite !Z.div_div by lia. reflexivity.
  - destruct (IH _ Hr) as [E2 P2].
    destruct (IH _ P2) as [E3 P3].
    split; [|exact P3].
    rewrite E3, E2, pow2_xO, Z.div_div by lia. reflexivity.
  - destruct (shr_1_m r Hr) as [E1 P1]. split; [|exact P1].
    rewrite E1. reflexivity.
Qed.

Lemma digits2_pos_unique (p : positive) (d : Z) :
  2 ^ (d - 1) <= Zpos p < 2 ^ d -> Zpos (digits2_pos p) = d.
Proof.
  intros [Hlo Hhi]. pose proof (digits2_pos_bounds p) as [Blo Bhi].
  set (b := Zpos (digits2_pos p)) in *.
  assert (0 < b) by (subst b; lia).
  assert (0 < d).
  { destruct (Z_lt_le_dec 0 d) as [|Hd]; [assumption|].
    destruct (Z.eq_dec d 0) as [->|Hd0]; [cbn in Hhi; lia|].
    rewrite (Z.pow_neg_r 2 d) in Hhi by lia. lia. }
  assert (d - 1 < b) by (apply (Z.pow_lt_mono_r_iff 2); lia).
  assert (b - 1 < d) by (apply (Z.pow_lt_mono_r_iff 2); lia).
  lia.
Qed.

Lemma round_nearest_even_bounds (m : Z) (l : location) :
  m <= round_nearest_even m l <= m + 1.
Proof.
  destruct l as [|[| |]]; cbn [round_nearest_even]; try lia.
  destruct (Z.even m); lia.
Qed.

Lemma fexp_normal (e : Z) : -1021 <= e -> fexp prec emax e = e - 53.
Proof. intros He. unfold fexp, emin, prec, emax. lia. Qed.

Lemma shr_fexp_keep (m : positive) (e : Z) (l : location) :
  Zpos (digits2_pos m) = 53 -> -1074 <= e ->
  shr_fexp prec emax (Zpos m) e l = (shr_record_of_loc (Zpos m) l, e).
Proof.
  intros Hd He. unfold shr_fexp. cbn [Zdigits2]. rewrite Hd.
  rewrite fexp_normal by lia.
  replace (53 + e - 53 - e) with 0 by lia. reflexivity.
Qed.

Lemma binary_round_aux_canonical (m : positive) (e : Z) :
  Zpos (digits2_pos m) = 53 -> -1074 <= e <= 971 ->
  binary_round_aux prec emax false (Zpos m) e loc_Exact = S754_finite false m e.
Proof.
  intros Hd He. unfold binary_round_aux.
  rewrite shr_fexp_keep by lia. cbn [shr_record_of_loc shr_m loc_of_shr_record round_nearest_even].
  rewrite shr_fexp_keep by lia. cbn [shr_record_of_loc shr_m].
  unfold emax, prec. destruct (Z.leb_spec e (1024 - 53)); [reflexivity | lia].
Qed.

Lemma binary_round_aux_shift (P n : positive) (e : Z) :
  Zpos (digits2_pos P) = 53 + Zpos n ->
  -1074 <= e + Zpos n -> e + Zpos n + 1 <= 971 ->
  exists (m2 : positive) (e2 : Z),
    binary_round_aux prec emax false (Zpos P) e loc_Exact
    = S754_finite false m2 e2 /\
    ((e2 = e + Zpos n /\
      Zpos P / 2 ^ Zpos n <= Zpos m2 <= Zpos P / 2 ^ Zpos n + 1) \/
     (e2 = e + Zpos n + 1 /\ 2 * Zpos m2 = Zpos P / 2 ^ Zpos n + 1)).
Proof.
  intros Hd Hlo Hhi.
  pose proof (digits2_pos_bounds P) as [Blo Bhi]. rewrite Hd in Blo, Bhi.
  replace (53 + Z.pos n - 1) with (52 + Z.pos n) in Blo by lia.
  rewrite Z.pow_add_r in Blo, Bhi by lia.
  set (q := Zpos P / 2 ^ Zpos n).
  assert (Hq : 2 ^ 52 <= q < 2 ^ 53).
  { subst q. split.
    - apply Z.div_le_lower_bound; lia.
    - apply Z.div_lt_upper_bound; lia. }
  unfold binary_round_aux. unfold shr_fexp at 1. cbn [Zdigits2].
  rewrite Hd, fexp_normal by lia.
  replace (53 + Z.pos n + e - 53 - e) with (Zpos n) by lia.
  cbn [shr shr_record_of_loc].
  destruct (iter_pos_shr_1_m n (Build_shr_record (Zpos P) false false))
    as [E1 _]; [cbn; lia|]. cbn [shr_m] in E1. fold q in E1.
  set (r1 := SpecFloat.iter_pos shr_1 n _) in *.
  pose proof (round_nearest_even_bounds (shr_m r1) (loc_of_shr_record r1))
    as Hm1. rewrite E1 in Hm1 |- *.
  set (m1 := round_nearest_even q (loc_of_shr_record r1)) in *.
  destruct m1 as [|pm1|pm1] eqn:Em1; try lia.
  destruct (Z_lt_le_dec (Zpos pm1) (2 ^ 53)) as [Hlt|Hge].
  - assert (Hd1 : Zpos (digits2_pos pm1) = 53)
      by (apply digits2_pos_unique; change (53 - 1) with 52; lia).
    rewrite shr_fexp_keep by lia. cbn [shr_record_of_loc shr_m].
    exists pm1, (e + Zpos n). split.
    + unfold emax, prec.
      destruct (Z.leb_spec (e + Z.pos n) (1024 - 53)); [reflexivity | lia].
    + left. split; [reflexivity | lia].
  - assert (Hpm : Zpos pm1 = 2 ^ 53) by lia.
    assert (Hp : pm1 = 9007199254740992%positive)
      by (apply Pos2Z.inj; rewrite Hpm; reflexivity).
    subst pm1. unfold shr_fexp. change (Zdigits2 9007199254740992) with 54.
    rewrite fexp_normal by lia.
    replace (54 + (e + Z.pos n) - 53 - (e + Z.pos n)) with 1 by lia.
    cbn [shr shr_record_of_loc SpecFloat.iter_pos shr_1 shr_m].
    exists 4503599627370496%positive, (e + Zpos n + 1). split.
    + unfold emax, prec.
      destruct (Z.leb_spec (e + Z.pos n + 1) (1024 - 53)); [reflexivity | lia].
    + right. split; [reflexivity |].
      assert (q = 2 ^ 53 - 1) by lia. lia.
Qed.

Lemma floor_round_shift (P n : positive) (e : Z) :
  Zpos (digits2_pos P) = 53 + Zpos n ->
  -1074 <= e + Zpos n <= 0 ->
  exists X : Z,
    Zpos P / 2 ^ Zpos n <= X <= Zpos P / 2 ^ Zpos n + 1 /\
    Math_floor (binary_round_aux prec emax false (Zpos P) e loc_Exact)
    = Int (X / 2 ^ (- (e + Zpos n))).
Proof.
  intros Hd He.
  destruct (binary_round_aux_shift P n e Hd) as (m2 & e2 & -> & Hm); try lia.
  cbn [Math_floor cond_Zopp].
  destruct Hm as [[-> Hm] | [-> Hm]].
  - exists (Zpos m2). split; [exact Hm|]. f_equal.
    rewrite <- (Z.opp_involutive (e + Z.pos n)) at 1.
    rewrite Z.shiftl_opp_r, Z.shiftr_div_pow2 by lia. reflexivity.
  - exists (2 * Zpos m2). split; [lia|]. f_equal.
    destruct (Z.eq_dec (e + Zpos n) 0) as [E0|E0].
    + rewrite E0. cbn [Z.opp]. rewrite Z.pow_0_r, Z.div_1_r.
      rewrite Z.shiftl_mul_pow2 by lia. cbn. lia.
    + replace (e + Zpos n + 1) with (- (- (e + Zpos n) - 1)) by lia.
      rewrite Z.shiftl_opp_r, Z.shiftr_div_pow2 by lia.
      replace (- (e + Z.pos n)) with (1 + (- (e + Z.pos n) - 1)) at 2 by lia.
      rewrite Z.pow_add_r by lia. change (2 ^ 1) with 2.
      rewrite Z.div_mul_cancel_l by lia. reflexivity.
Qed.

Lemma Zpos_iter_xO (m d : positive) :
  Zpos (Pos.iter xO m d) = Zpos m * 2 ^ Zpos d.
Proof.
  rewrite <- Z.shiftl_mul_pow2 by lia. cbn [Z.shiftl].
  apply (Pos.iter_swap_gen _ _ Zpos xO (Z.mul 2)). reflexivity.
Qed.

Lemma of_Z_pos (n : positive) :
  Zpos (digits2_pos n) <= 53 ->
  exists m : positive,
    of_Z (Zpos n) = S754_finite false m (Zpos (digits2_pos n) - 53) /\
    Zpos m = Zpos n * 2 ^ (53 - Zpos (digits2_pos n)) /\
    Zpos (digits2_pos m) = 53.
Proof.
  intros Hb. pose proof (digits2_pos_bounds n) as [Blo Bhi].
  set (b := Zpos (digits2_pos n)) in *.
  assert (0 < b) by (subst b; lia).
  unfold of_Z, binary_normalize, binary_round. fold b.
  rewrite fexp_normal by lia. unfold shl_align.
  destruct (b + 0 - 53 - 0) as [|d|d] eqn:Ed; try lia.
  - assert (Eb : b = 53) by lia.
    exists n. rewrite Eb. change (53 - 53) with 0.
    rewrite binary_round_aux_canonical by (fold b; lia).
    cbn. repeat split; lia.
  - assert (Hm : Zpos (Pos.iter xO n d) = Zpos n * 2 ^ (53 - b)).
    { rewrite Zpos_iter_xO. do 2 f_equal. lia. }
    assert (Hdm : Zpos (digits2_pos (Pos.iter xO n d)) = 53).
    { apply digits2_pos_unique. rewrite Hm. change (53 - 1) with 52. split.
      - replace 52 with ((b - 1) + (53 - b)) by lia.
        rewrite Z.pow_add_r by lia.
        apply Z.mul_le_mono_nonneg_r; lia.
      - replace 53 with (b + (53 - b)) at 2 by lia.
        rewrite Z.pow_add_r by lia.
        apply Z.mul_lt_mono_pos_r; lia. }
    exists (Pos.iter xO n d).
    replace (b + 0 - 53) with (b - 53) by lia.
    rewrite binary_round_aux_canonical by lia.
    repeat split; assumption.
Qed.

Lemma numToRemove_enclosure (cfg : BufferConfig) (N : nat) :
  PRUNE_PERCENTAGE cfg = lit_0_7 ->
  (0 < N)%nat -> Z.of_nat N < 2 ^ 53 ->
  exists k : Z,
    MyAgent.numToRemove cfg N = Int k /\
    Z.of_nat N * mant_0_7 / 2 ^ 53 <= k <=
    Z.of_nat N * (mant_0_7 + 2) / 2 ^ 53.
Proof.
  intros Hpct Hpos Hlt.
  destruct (Z.of_nat N) as [|n|n] eqn:EN; try lia.
  pose proof (digits2_pos_bounds n) as [Blo Bhi].
  set (b := Zpos (digits2_pos n)) in *.
  assert (Hb0 : 0 < b) by (subst b; lia).
  assert (Hb : b <= 53).
  { assert (b - 1 < 53); [|lia]. apply (Z.pow_lt_mono_r_iff 2); lia. }
  destruct (of_Z_pos n Hb) as (m & Hof & Hm & Hdm). fold b in Hof, Hm.
  unfold MyAgent.numToRemove. rewrite EN, Hof, Hpct.
  unfold mul, lit_0_7.
  cbn [SFmul xorb].
  set (C := 2 ^ (53 - b)) in *.
  assert (HC : 0 < C) by (subst C; apply Z.pow_pos_nonneg; lia).
  assert (HmC : 2 ^ 52 <= Zpos n * C < 2 ^ 53).
  { rewrite <- Hm. pose proof (digits2_pos_bounds m) as Bm.
    rewrite Hdm in Bm. exact Bm. }
  set (P := (m * 6305039478318694)%positive).
  assert (HP : Zpos P = Zpos n * C * mant_0_7)
    by (subst P; rewrite Pos2Z.inj_mul, Hm; reflexivity).
  assert (exists nn : positive,
            Zpos (digits2_pos P) = 53 + Zpos nn /\ 52 <= Zpos nn <= 53)
    as (nn & HdP & Hnn).
  { destruct (Z_lt_le_dec (Zpos P) (2 ^ 105)) as [Hs|Hs].
    - exists 52%positive. split; [|lia]. apply digits2_pos_unique.
      rewrite HP. unfold mant_0_7 in *. split; [|lia].
      change (53 + 52 - 1) with 104. nia.
    - exists 53%positive. split; [|lia]. apply digits2_pos_unique.
      rewrite HP in *. unfold mant_0_7 in *. split; [exact Hs|].
      change (53 + 53) with 106. nia. }
  destruct (floor_round_shift P nn (b - 53 + -53) HdP) as (X & HX & ->);
    [lia|].
  exists (X / 2 ^ (- (b - 53 + -53 + Zpos nn))). split; [reflexivity|].
  set (s := - (b - 53 + -53 + Zpos nn)).
  assert (Hs : 0 <= s) by (subst s; lia).
  set (A := 2 ^ s). set (B := 2 ^ Zpos nn) in *.
  assert (HA : 0 < A) by (subst A; apply Z.pow_pos_nonneg; lia).
  assert (HB : 0 < B) by (subst B; apply Z.pow_pos_nonneg; lia).
  assert (HAB : B * A = 2 ^ 53 * C).
  { subst A B C. rewrite <- !Z.pow_add_r by lia. f_equal. subst s. lia. }
  assert (HB53 : B <= 2 ^ 53)
    by (subst B; apply Z.pow_le_mono_r; lia).
  set (q := Zpos P / B) in *.
  assert (Hq1 : B * q <= Zpos P) by (subst q; apply Z.mul_div_le; lia).
  assert (Hq2 : Zpos P < B * (q + 1)).
  { subst q. pose proof (Z.mod_pos_bound (Zpos P) B HB).
    pose proof (Z.div_mod (Zpos P) B). lia. }
  split.
  - assert (Hk : X < A * (X / A + 1)).
    { pose proof (Z.mod_pos_bound X A HA).
      pose proof (Z.div_mod X A). lia. }
    assert (2 ^ 53 * (Zpos n * mant_0_7 / 2 ^ 53) <= Zpos n * mant_0_7)
      by (apply Z.mul_div_le; lia).
    set (t := Zpos n * mant_0_7 / 2 ^ 53) in *.
    set (k := X / A) in *.
    assert (t < k + 1); [|lia].
    apply (Z.mul_lt_mono_pos_l (2 ^ 53 * C)); [lia|].
    rewrite <- HAB at 2. nia.
  - apply Z.div_le_lower_bound; [lia|].
    assert (Hk : A * (X / A) <= X) by (apply Z.mul_div_le; lia).
    set (k := X / A) in *.
    apply (Z.mul_le_mono_pos_l _ _ C); [lia|].
    assert (C * (2 ^ 53 * k) = B * (A * k)) by lia.
    assert (B * (A * k) <= B * (q + 1)) by (apply Z.mul_le_mono_nonneg_l; lia).
    assert (B <= 2 * (Zpos n * C)) by lia.
    lia.
Qed.

End FloatFacts.
Section PruneFacts.
Import Float64 Props MyAgent.

(** With [PRUNE_PERCENTAGE = 0.7] the number of ids to remove is
    [floor (7 N / 10)], except that on a multiple of 10 the binary64
    product may fall just below the integer [7 N / 10] and the floor is
    then one less. *)
Lemma numToRemove_nat (cfg : BufferConfig) (N : nat) :
  PRUNE_PERCENTAGE cfg = lit_0_7 ->
  (0 < N)%nat -> Z.of_nat N < 2 ^ 32 ->
  exists k : nat,
    numToRemove cfg N = Int (Z.of_nat k) /\
    (k <= N)%nat /\
    7 * Z.of_nat N / 10 - 1 <= Z.of_nat k <= 7 * Z.of_nat N / 10 /\
    (Z.of_nat N mod 10 <> 0 -> Z.of_nat k = 7 * Z.of_nat N / 10).
Proof.
  intros Hpct Hpos Hlt.
  destruct (numToRemove_enclosure cfg N Hpct Hpos) as (k & Hk & Hlo & Hhi);
    [lia|].
  unfold mant_0_7 in *.
  set (n := Z.of_nat N) in *.
  assert (Hn : 0 < n) by (subst n; lia).
  pose proof (Z.div_mod (n * 6305039478318694) (2 ^ 53)) as D1.
  pose proof (Z.mod_pos_bound (n * 6305039478318694) (2 ^ 53)) as M1.
  pose proof (Z.div_mod (n * (6305039478318694 + 2)) (2 ^ 53)) as D2.
  pose proof (Z.mod_pos_bound (n * (6305039478318694 + 2)) (2 ^ 53)) as M2.
  pose proof (Z.div_mod (7 * n) 10) as D3.
  pose proof (Z.mod_pos_bound (7 * n) 10) as M3.
  pose proof (Z.div_mod n 10) as D4.
  pose proof (Z.mod_pos_bound n 10) as M4.
  exists (Z.to_nat k). rewrite Z2Nat.id by lia.
  split; [exact Hk|]. split; [lia|]. split; [lia|]. intros Hne. lia.
Qed.

(** [slice] with plain indices in range. *)
Lemma slice_prefix {A} (l : list A) (k : nat) :
  slice l (Int 0) (Some (Int (Z.of_nat k))) = take k l.
Proof.
  unfold slice, relativeIndex.
  change (0 <? 0) with false. cbv iota.
  destruct (Z.ltb_spec (Z.of_nat k) 0); [lia|].
  replace (Z.min 0 (Z.of_nat (length l))) with 0 by lia.
  change (Z.to_nat 0) with 0%nat. cbn [drop].
  destruct (Z.min_spec (Z.of_nat k) (Z.of_nat (length l))) as [[? ->]|[? ->]].
  - f_equal. lia.
  - rewrite (take_ge l k) by lia. apply take_ge. lia.
Qed.

Lemma slice_suffix {A} (l : list A) (k : nat) :
  slice l (Int (Z.of_nat k)) None = drop k l.
Proof.
  unfold slice, relativeIndex.
  destruct (Z.ltb_spec (Z.of_nat k) 0); [lia|].
  destruct (Z.min_spec (Z.of_nat k) (Z.of_nat (length l))) as [[? ->]|[? ->]].
  - rewrite Nat2Z.id. apply take_ge. rewrite length_drop. lia.
  - rewrite Nat2Z.id, !drop_ge by lia. apply take_nil.
Qed.

Lemma slice_subseteq {A} (l : list A) (start : Integral)
  (end_ : option Integral) (x : A) :
  x ∈ slice l start end_ -> x ∈ l.
Proof.
  unfold slice. intros H.
  apply elem_of_take in H as (i & H & _).
  rewrite lookup_drop in H. eapply list_elem_of_lookup_2, H.
Qed.

Section Prune.

Variable cfg : BufferConfig.
Variable llm : LlmRequest -> Completion LlmMessage.
Variable now : N.

(** Below the threshold the step returns at once. *)
Lemma prune_noop (w : World) :
  (length (messageBuffer w) <= MAX_MESSAGES cfg)%nat ->
  summarizeAndPruneMessages cfg llm now w = (Normal tt, w).
Proof.
  intros Hle. unfold summarizeAndPruneMessages.
  unfold mbind, M_bind, Js.bind, get.
  destruct (Nat.leb_spec (length (messageBuffer w)) (MAX_MESSAGES cfg));
    [reflexivity | lia].
Qed.

(** Above the threshold, when the model answers. *)
Lemma prune_fires (w : World) (message : LlmMessage) :
  (MAX_MESSAGES cfg < length (messageBuffer w))%nat ->
  llm (pruneRequest cfg w) = Normal message ->
  summarizeAndPruneMessages cfg llm now w =
  (Normal tt,
   {| messages :=
        <[summaryMessageId cfg now := summaryRow (content message)]>
          (messages w);
      messageBuffer :=
        summaryMessageId cfg now ::
        slice (messageBuffer w)
          (numToRemove cfg (length (messageBuffer w))) None;
      channelCheckpoints := channelCheckpoints w;
      blocks := blocks w;
      llmCalls := llmCalls w ++ [pruneRequest cfg w] |}).
Proof.
  intros Hlt Hllm. unfold summarizeAndPruneMessages.
  unfold mbind, M_bind, Js.bind, get.
  destruct (Nat.leb_spec (length (messageBuffer w)) (MAX_MESSAGES cfg));
    [lia|].
  unfold callLlm. fold (pruneRequest cfg w). rewrite Hllm.
  reflexivity.
Qed.

(** Above the threshold, when the call of the model throws. *)
Lemma prune_throws (w : World) (e : JsError) :
  (MAX_MESSAGES cfg < length (messageBuffer w))%nat ->
  llm (pruneRequest cfg w) = Throw e ->
  summarizeAndPruneMessages cfg llm now w =
  (Throw e, set_llmCalls (fun l => l ++ [pruneRequest cfg w]) w).
Proof.
  intros Hlt Hllm. unfold summarizeAndPruneMessages.
  unfold mbind, M_bind, Js.bind, get.
  destruct (Nat.leb_spec (length (messageBuffer w)) (MAX_MESSAGES cfg));
    [lia|].
  unfold callLlm. fold (pruneRequest cfg w). rewrite Hllm.
  reflexivity.
Qed.

End Prune.

(** The binary64 product is not the exact one: [90 * 0.7] is
    [62.99999999999999], so 62 ids go and not 63. *)
Lemma numToRemove_90 :
  numToRemove MESSAGE_BUFFER_CONFIG 90 = Int 62 /\ 7 * 90 / 10 = 63.
Proof. split; vm_compute; reflexivity. Qed.

End PruneFacts.

(** ** The prune-and-summarize step *)

Section PruneStep.
Import Float64 Props MyAgent Samples.

(** The number of ids removed is the binary64 one: a buffer of 90 ids
    loses its 62 oldest ids and keeps 28, where floor(90 * 0.7) taken
    exactly is 63 and would keep 27. *)
Lemma prune_count_counterexample :
  let w := sampleWorld 90 in
  let w' :=
    snd (summarizeAndPruneMessages MESSAGE_BUFFER_CONFIG llm_ok 0 w) in
  7 * 90 / 10 = 63 /\
  messageBuffer w' = "summary_0" :: drop 62 (messageBuffer w) /\
  length (messageBuffer w') = 29%nat /\
  messageBuffer w' <> "summary_0" :: drop 63 (messageBuffer w).
Proof.
  cbv zeta. split; [reflexivity|]. split; [vm_compute; reflexivity|].
  split; [vm_compute; reflexivity|].
  intros H. apply (f_equal length) in H. vm_compute in H. discriminate H.
Qed.

(** C1 (amended). For every buffer of length N > MAX_MESSAGES (an array:
    N < 2^32), with PRUNE_PERCENTAGE = 0.7, one prune-and-summarize step
    whose model call answers removes the k oldest ids, where k is the
    value of [Math.floor(N * PRUNE_PERCENTAGE)] computed in binary64:
    k is floor(7N/10) when N is no multiple of 10, and floor(7N/10) or
    one less when it is (62 and not 63 at N = 90). The step sends exactly
    those ids to the model, keeps the remaining N - k newest ids and sets
    the buffer to the summary id followed by the kept ids in order; with
    N = 60 it removes 42 ids, keeps 18 and leaves a buffer of length 19,
    with N = 90 it removes 62, keeps 28 and leaves 29. *)
Theorem prune_removes_oldest_ids (cfg : BufferConfig)
  (llm : LlmRequest -> Completion LlmMessage) (now : N) (w : World)
  (message : LlmMessage) :
  PRUNE_PERCENTAGE cfg = lit_0_7 ->
  (MAX_MESSAGES cfg < length (messageBuffer w))%nat ->
  Z.of_nat (length (messageBuffer w)) < 2 ^ 32 ->
  llm (pruneRequest cfg w) = Normal message ->
  exists k : nat,
    let N := length (messageBuffer w) in
    let removed := take k (messageBuffer w) in
    let kept := drop k (messageBuffer w) in
    let w' := snd (summarizeAndPruneMessages cfg llm now w) in
    numToRemove cfg N = Int (Z.of_nat k) /\
    7 * Z.of_nat N / 10 - 1 <= Z.of_nat k <= 7 * Z.of_nat N / 10 /\
    (Z.of_nat N mod 10 <> 0 -> Z.of_nat k = 7 * Z.of_nat N / 10) /\
    messageBuffer w = removed ++ kept /\
    length removed = k /\
    length kept = (N - k)%nat /\
    pruneRequest cfg w =
      SummarizeConversation
        (omap (fun id => message_of_row <$> (messages w !! id)) removed) /\
    messageBuffer w' = summaryMessageId cfg now :: kept /\
    (N = 60%nat ->
     k = 42%nat /\ length kept = 18%nat /\
     length (messageBuffer w') = 19%nat) /\
    (N = 90%nat ->
     k = 62%nat /\ length kept = 28%nat /\
     length (messageBuffer w') = 29%nat).
Proof.
  intros Hpct Hmax Hlen Hllm.
  destruct (numToRemove_nat cfg (length (messageBuffer w)) Hpct)
    as (k & Hk & Hle & Hbounds & Hexact); [lia | exact Hlen |].
  assert (H42 : length (messageBuffer w) = 60%nat -> k = 42%nat).
  { intros H60. rewrite H60 in Hk.
    assert (E : numToRemove cfg 60 = Int 42)
      by (unfold numToRemove; rewrite Hpct; vm_compute; reflexivity).
    rewrite E in Hk. injection Hk as Hk. lia. }
  assert (H62 : length (messageBuffer w) = 90%nat -> k = 62%nat).
  { intros H90. rewrite H90 in Hk.
    assert (E : numToRemove cfg 90 = Int 62)
      by (unfold numToRemove; rewrite Hpct; vm_compute; reflexivity).
    rewrite E in Hk. injection Hk as Hk. lia. }
  exists k. cbv zeta.
  rewrite (prune_fires cfg llm now w message Hmax Hllm). cbn [snd messageBuffer].
  unfold pruneRequest. rewrite Hk, slice_prefix, slice_suffix.
  rewrite take_drop, length_take, length_drop.
  repeat split; try reflexivity; try lia.
  all: cbn [length]; try rewrite length_drop; lia.
Qed.

(** The theorem applied to a buffer of 60 ids. *)
Lemma prune_removes_oldest_ids_witness :
  PRUNE_PERCENTAGE MESSAGE_BUFFER_CONFIG = lit_0_7 /\
  (MAX_MESSAGES MESSAGE_BUFFER_CONFIG
   < length (messageBuffer (sampleWorld 60)))%nat /\
  exists k : nat,
    messageBuffer
      (snd (summarizeAndPruneMessages MESSAGE_BUFFER_CONFIG llm_ok 1700
              (sampleWorld 60)))
    = "summary_1700" :: drop k (messageBuffer (sampleWorld 60)).
Proof.
  split; [reflexivity|]. split; [vm_compute; lia|].
  destruct (prune_removes_oldest_ids MESSAGE_BUFFER_CONFIG llm_ok 1700
              (sampleWorld 60) sampleMessage)
    as (k & _ & _ & _ & _ & _ & _ & _ & Hbuf & _).
  - reflexivity.
  - vm_compute; lia.
  - vm_compute; reflexivity.
  - reflexivity.
  - exists k. exact Hbuf.
Defined.

(** C3. For every buffer of length N > MAX_MESSAGES, if the summarisation
    call of the model raises an error, the step raises it and commits
    nothing: the message store and the buffer (and the checkpoints and
    memory blocks) are exactly as they were before the call. *)
Theorem prune_commits_nothing_on_llm_error (cfg : BufferConfig)
  (llm : LlmRequest -> Completion LlmMessage) (now : N) (w : World)
  (e : JsError) :
  (MAX_MESSAGES cfg < length (messageBuffer w))%nat ->
  llm (pruneRequest cfg w) = Throw e ->
  let r := summarizeAndPruneMessages cfg llm now w in
  fst r = Throw e /\
  messages (snd r) = messages w /\
  messageBuffer (snd r) = messageBuffer w /\
  channelCheckpoints (snd r) = channelCheckpoints w /\
  blocks (snd r) = blocks w.
Proof.
  intros Hmax Hllm. cbv zeta.
  rewrite (prune_throws cfg llm now w e Hmax Hllm).
  repeat split; reflexivity.
Qed.

(** The theorem applied to a buffer of 51 ids and a model that is down. *)
Lemma prune_commits_nothing_on_llm_error_witness :
  (MAX_MESSAGES MESSAGE_BUFFER_CONFIG
   < length (messageBuffer (sampleWorld 51)))%nat /\
  messageBuffer
    (snd (summarizeAndPruneMessages MESSAGE_BUFFER_CONFIG llm_down 0
            (sampleWorld 51)))
  = messageBuffer (sampleWorld 51).
Proof.
  split; [vm_compute; lia|].
  apply (prune_commits_nothing_on_llm_error MESSAGE_BUFFER_CONFIG llm_down 0
           (sampleWorld 51) (ErrorObj "fetch failed")).
  - vm_compute; lia.
  - reflexivity.
Defined.

(** The buffer bound as the specification words it fails on the first
    buffer that triggers a prune: with M = 50 the formula
    [M - floor (M * 0.7) + 1] gives 16, and pruning 51 ids leaves 17. *)
Lemma buffer_bound_counterexample :
  let w' :=
    snd (summarizeAndPruneMessages MESSAGE_BUFFER_CONFIG llm_ok 0
           (sampleWorld 51)) in
  numToRemove MESSAGE_BUFFER_CONFIG (MAX_MESSAGES MESSAGE_BUFFER_CONFIG)
  = Int 35 /\
  length (messageBuffer w') = 17%nat /\
  length (messageBuffer w')
  <> (MAX_MESSAGES MESSAGE_BUFFER_CONFIG - 35 + 1)%nat.
Proof.
  vm_compute. split; [reflexivity|]. split; [reflexivity|]. discriminate.
Qed.

(** C4 (amended). With PRUNE_PERCENTAGE = 0.7 and MAX_MESSAGES = M, a
    prune cycle on a buffer of length N > M (an array: N < 2^32) whose
    model call answers leaves a buffer of length N - k + 1, the summary id
    and the kept tail, where k is [Math.floor(N * 0.7)] as computed in
    binary64: floor(7N/10) when N is no multiple of 10, and floor(7N/10)
    or one less when it is (N = 90 leaves 29 ids). For M = 50 this length
    is at least 17 (and not 16); it is at most M exactly when N <= 163,
    and then the next invocation of the step does nothing; for N >= 164
    it is above M, and the next invocation sends a summarisation request
    at once. *)
Theorem prune_result_length (cfg : BufferConfig)
  (llm : LlmRequest -> Completion LlmMessage) (now : N) (w : World)
  (message : LlmMessage) :
  PRUNE_PERCENTAGE cfg = lit_0_7 ->
  (MAX_MESSAGES cfg < length (messageBuffer w))%nat ->
  Z.of_nat (length (messageBuffer w)) < 2 ^ 32 ->
  llm (pruneRequest cfg w) = Normal message ->
  let len := length (messageBuffer w) in
  let w' := snd (summarizeAndPruneMessages cfg llm now w) in
  exists k : nat,
    numToRemove cfg len = Int (Z.of_nat k) /\
    (k <= len)%nat /\
    7 * Z.of_nat len / 10 - 1 <= Z.of_nat k <= 7 * Z.of_nat len / 10 /\
    (Z.of_nat len mod 10 <> 0 -> Z.of_nat k = 7 * Z.of_nat len / 10) /\
    length (messageBuffer w') = (len - k + 1)%nat /\
    (len = 90%nat -> length (messageBuffer w') = 29%nat) /\
    (MAX_MESSAGES cfg = 50%nat -> (17 <= length (messageBuffer w'))%nat) /\
    (MAX_MESSAGES cfg = 50%nat -> (len <= 163)%nat ->
     (length (messageBuffer w') <= MAX_MESSAGES cfg)%nat /\
     forall (llm' : LlmRequest -> Completion LlmMessage) (now' : N),
       summarizeAndPruneMessages cfg llm' now' w' = (Normal tt, w')) /\
    (MAX_MESSAGES cfg = 50%nat -> (164 <= len)%nat ->
     (MAX_MESSAGES cfg < length (messageBuffer w'))%nat /\
     forall (llm' : LlmRequest -> Completion LlmMessage) (now' : N),
       llmCalls (snd (summarizeAndPruneMessages cfg llm' now' w'))
       = llmCalls w' ++ [pruneRequest cfg w']).
Proof.
  intros Hpct Hmax Hlen Hllm. cbv zeta.
  destruct (numToRemove_nat cfg (length (messageBuffer w)) Hpct)
    as (k & Hk & Hle & Hbounds & Hexact); [lia | exact Hlen |].
  exists k.
  assert (Hnew : length (messageBuffer
                           (snd (summarizeAndPruneMessages cfg llm now w)))
                 = (length (messageBuffer w) - k + 1)%nat).
  { rewrite (prune_fires cfg llm now w message Hmax Hllm).
    cbn [snd messageBuffer length]. rewrite Hk, slice_suffix, length_drop.
    lia. }
  assert (H62 : length (messageBuffer w) = 90%nat -> k = 62%nat).
  { intros H90. rewrite H90 in Hk.
    assert (E : numToRemove cfg 90 = Int 62)
      by (unfold numToRemove; rewrite Hpct; vm_compute; reflexivity).
    rewrite E in Hk. injection Hk as Hk'. lia. }
  set (w' := snd (summarizeAndPruneMessages cfg llm now w)) in *.
  set (n := Z.of_nat (length (messageBuffer w))) in *.
  assert (Hn : n = Z.of_nat (length (messageBuffer w))) by reflexivity.
  pose proof (Z.div_mod (7 * n) 10) as D1.
  pose proof (Z.mod_pos_bound (7 * n) 10) as M1.
  pose proof (Z.div_mod n 10) as D2.
  pose proof (Z.mod_pos_bound n 10) as M2.
  split; [exact Hk|]. split; [exact Hle|]. split; [exact Hbounds|].
  split; [exact Hexact|]. split; [exact Hnew|].
  split; [intros H90; rewrite Hnew, (H62 H90), H90; reflexivity|].
  split; [intros HM; rewrite Hnew; lia|].
  split.
  - intros HM Hsmall.
    assert (Hfit : (length (messageBuffer w') <= MAX_MESSAGES cfg)%nat).
    { rewrite Hnew, HM.
      destruct (Z.eq_dec (n mod 10) 0) as [H0 | H0];
        [|specialize (Hexact H0)]; lia. }
    split; [exact Hfit|]. intros llm' now'. apply prune_noop. exact Hfit.
  - intros HM Hlarge.
    assert (Hover : (MAX_MESSAGES cfg < length (messageBuffer w'))%nat)
      by (rewrite Hnew, HM; lia).
    split; [exact Hover|]. intros llm' now'.
    destruct (llm' (pruneRequest cfg w')) as [message' | e] eqn:Hllm'.
    + rewrite (prune_fires cfg llm' now' w' message' Hover Hllm').
      reflexivity.
    + rewrite (prune_throws cfg llm' now' w' e Hover Hllm'). reflexivity.
Qed.

(** The theorem applied to a buffer of 51 ids. *)
Lemma prune_result_length_witness :
  PRUNE_PERCENTAGE MESSAGE_BUFFER_CONFIG = lit_0_7 /\
  (MAX_MESSAGES MESSAGE_BUFFER_CONFIG
   < length (messageBuffer (sampleWorld 51)))%nat /\
  exists k : nat,
    length
      (messageBuffer
         (snd (summarizeAndPruneMessages MESSAGE_BUFFER_CONFIG llm_ok 0
                 (sampleWorld 51))))
    = (length (messageBuffer (sampleWorld 51)) - k + 1)%nat.
Proof.
  split; [reflexivity|]. split; [vm_compute; lia|].
  destruct (prune_result_length MESSAGE_BUFFER_CONFIG llm_ok 0
              (sampleWorld 51) sampleMessage)
    as (k & _ & _ & _ & _ & Hlen & _).
  - reflexivity.
  - vm_compute; lia.
  - vm_compute; reflexivity.
  - reflexivity.
  - exists k. exact Hlen.
Defined.

(** C5. For every buffer whose length is at most MAX_MESSAGES, the
    prune-and-summarize step performs zero mutations: it returns with the
    whole state (store, buffer, checkpoints, blocks) unchanged, and no
    request went to the model. *)
Theorem prune_is_noop_below_threshold (cfg : BufferConfig)
  (llm : LlmRequest -> Completion LlmMessage) (now : N) (w : World) :
  (length (messageBuffer w) <= MAX_MESSAGES cfg)%nat ->
  let r := summarizeAndPruneMessages cfg llm now w in
  r = (Normal tt, w) /\
  messages (snd r) = messages w /\
  messageBuffer (snd r) = messageBuffer w /\
  llmCalls (snd r) = llmCalls w.
Proof.
  intros Hle. cbv zeta. rewrite (prune_noop cfg llm now w Hle).
  repeat split; reflexivity.
Qed.

(** The theorem applied to a buffer of exactly 50 ids. *)
Lemma prune_is_noop_below_threshold_witness :
  (length (messageBuffer (sampleWorld 50))
   <= MAX_MESSAGES MESSAGE_BUFFER_CONFIG)%nat /\
  summarizeAndPruneMessages MESSAGE_BUFFER_CONFIG llm_ok 0 (sampleWorld 50)
  = (Normal tt, sampleWorld 50).
Proof.
  split; [vm_compute; lia|].
  apply (prune_is_noop_below_threshold MESSAGE_BUFFER_CONFIG llm_ok 0
           (sampleWorld 50)).
  vm_compute; lia.
Defined.

Lemma addMessage_result (w : World) (message : MessageInput) :
  addMessage message w =
  (Normal tt,
   {| messages :=
        <[mi_id message :=
            {| row_role := mi_role message;
               row_content := mi_content message;
               row_tool_calls := mi_tool_calls message;
               row_tool_call_id := mi_tool_call_id message |}]> (messages w);
      messageBuffer := messageBuffer w ++ [mi_id message];
      channelCheckpoints := channelCheckpoints w;
      blocks := blocks w;
      llmCalls := llmCalls w |}).
Proof. reflexivity. Qed.

(** C6. Every id in the context-window buffer resolves to a turn of the
    message store: this holds of the initial empty state and is preserved
    by [addMessage] and by the prune-and-summarize step, whatever the model
    does; when the step fires, the summary turn is in the store under the
    id that heads the new buffer. *)
Theorem buffer_ids_resolve :
  (forall defaultBlocks : list MemoryBlockI,
     no_dangling (initial defaultBlocks)) /\
  (forall (w : World) (message : MessageInput),
     no_dangling w -> no_dangling (snd (addMessage message w))) /\
  (forall (cfg : BufferConfig) (llm : LlmRequest -> Completion LlmMessage)
          (now : N) (w : World),
     no_dangling w ->
     no_dangling (snd (summarizeAndPruneMessages cfg llm now w))) /\
  (forall (cfg : BufferConfig) (llm : LlmRequest -> Completion LlmMessage)
          (now : N) (w : World) (message : LlmMessage),
     (MAX_MESSAGES cfg < length (messageBuffer w))%nat ->
     llm (pruneRequest cfg w) = Normal message ->
     let w' := snd (summarizeAndPruneMessages cfg llm now w) in
     head (messageBuffer w') = Some (summaryMessageId cfg now) /\
     messages w' !! summaryMessageId cfg now
     = Some (summaryRow (content message))).
Proof.
  split; [|split; [|split]].
  - intros defaultBlocks id Hid. cbn [initial messageBuffer] in Hid.
    inversion Hid.
  - intros w message Hw id Hid. rewrite addMessage_result in Hid |- *.
    cbn [snd messages messageBuffer] in Hid |- *.
    apply elem_of_app in Hid as [Hid | Hid].
    + apply lookup_insert_is_Some'. right. apply Hw, Hid.
    + apply list_elem_of_singleton in Hid as ->.
      rewrite lookup_insert_eq. eauto.
  - intros cfg llm now w Hw.
    destruct (Nat.le_gt_cases (length (messageBuffer w)) (MAX_MESSAGES cfg))
      as [Hle | Hgt].
    + rewrite (prune_noop cfg llm now w Hle). exact Hw.
    + destruct (llm (pruneRequest cfg w)) as [message | e] eqn:Hllm.
      * rewrite (prune_fires cfg llm now w message Hgt Hllm).
        intros id Hid. cbn [snd messages messageBuffer] in Hid |- *.
        apply elem_of_cons in Hid as [-> | Hid].
        -- rewrite lookup_insert_eq. eauto.
        -- apply slice_subseteq in Hid.
           apply lookup_insert_is_Some'. right. apply Hw, Hid.
      * rewrite (prune_throws cfg llm now w e Hgt Hllm). exact Hw.
  - intros cfg llm now w message Hgt Hllm. cbv zeta.
    rewrite (prune_fires cfg llm now w message Hgt Hllm).
    cbn [snd messages messageBuffer head].
    split; [reflexivity | apply lookup_insert_eq].
Qed.

(** The theorem applied to the first message after boot. *)
Lemma buffer_ids_resolve_witness :
  no_dangling (initial []) /\
  no_dangling
    (snd (addMessage
            {| mi_id := "0b9e"; mi_role := RoleUser;
               mi_content := Some "hello"; mi_tool_calls := None;
               mi_tool_call_id := None |}
            (initial []))).
Proof.
  destruct buffer_ids_resolve as (Hinit & Hadd & _).
  split; [apply Hinit | apply Hadd, Hinit].
Defined.

End PruneStep.

(** ** Splitting a reply into chunks *)

Section Splitter.
Import JsString DiscordAgent StringFacts.

Lemma length_substring_le (s : string) : forall n m : nat,
  (String.length (String.substring n m s) <= m)%nat.
Proof.
  induction s as [|c s IH]; intros [|n] [|m]; cbn; try lia.
  - specialize (IH 0%nat m). lia.
  - apply IH.
  - apply IH.
Qed.

Lemma length_substring_rest (s : string) : forall n : nat,
  (String.length (String.substring n (String.length s - n) s)
   <= String.length s - n)%nat.
Proof. intros n. apply length_substring_le. Qed.

Lemma length_js_prefix (s : string) (k : nat) :
  (String.length (substring s 0 (Some k)) <= k)%nat.
Proof.
  unfold substring.
  etransitivity; [apply length_substring_le|]. lia.
Qed.

Lemma length_js_suffix (s : string) (k : nat) :
  (String.length (substring s k None) <= String.length s - k)%nat.
Proof.
  unfold substring.
  etransitivity; [apply length_substring_le|]. lia.
Qed.

Lemma lastIndexOf_from_bounds (s searchString : string) (position : nat) :
  forall (i : nat) (acc : Z),
    -1 <= acc <= Z.of_nat position ->
    -1 <= lastIndexOf_from s searchString position i acc <= Z.of_nat position.
Proof.
  induction s as [|c s IH]; intros i acc Hacc; cbn [lastIndexOf_from].
  - destruct (Nat.ltb_spec position i); [exact Hacc|].
    destruct (String.prefix searchString ""); lia.
  - destruct (Nat.ltb_spec position i); [exact Hacc|].
    apply IH. destruct (String.prefix searchString (String c s)); lia.
Qed.

Lemma lastIndexOf_bounds (s searchString : string) (position : nat) :
  -1 <= lastIndexOf s searchString position <= Z.of_nat position.
Proof. apply lastIndexOf_from_bounds. lia. Qed.

(** The loop ends within [length remaining + 1] passes and only adds
    chunks that fit. *)
Lemma splitLoop_total (maxLength : nat) : forall (fuel : nat)
  (remaining : string) (chunks : list string),
  (String.length remaining < fuel)%nat ->
  Forall (short maxLength) chunks ->
  exists out : list string,
    splitLoop fuel maxLength remaining chunks = Some out /\
    Forall (short maxLength) out.
Proof.
  induction fuel as [|fuel IH]; intros remaining chunks Hfuel Hchunks;
    [lia|].
  cbn [splitLoop].
  destruct (Nat.eqb_spec (String.length remaining) 0) as [H0|H0];
    [eauto|].
  destruct (Nat.leb_spec (String.length remaining) maxLength) as [Hle|Hgt].
  { eexists. split; [reflexivity|].
    apply Forall_app. split; [assumption|]. constructor; [exact Hle|constructor]. }
  set (i1 := lastIndexOf remaining (String newline EmptyString) maxLength).
  set (i2 := if (i1 =? -1) || (i1 =? 0)
             then lastIndexOf remaining " " maxLength else i1).
  set (i3 := if (i2 =? -1) || (i2 =? 0) then Z.of_nat maxLength else i2).
  assert (H1 : -1 <= i1 <= Z.of_nat maxLength)
    by apply lastIndexOf_bounds.
  assert (H2 : -1 <= i2 <= Z.of_nat maxLength).
  { subst i2. destruct ((i1 =? -1) || (i1 =? 0));
      [apply lastIndexOf_bounds | exact H1]. }
  assert (H3 : 0 <= i3 <= Z.of_nat maxLength).
  { subst i3. destruct (Z.eqb_spec i2 (-1)); cbn [orb]; [lia|].
    destruct (Z.eqb_spec i2 0); lia. }
  apply IH.
  - pose proof (length_js_suffix remaining (Z.to_nat (i3 + 1))). lia.
  - apply Forall_app. split; [assumption|].
    constructor; [|constructor]. unfold short.
    pose proof (length_js_prefix remaining (Z.to_nat i3)). lia.
Qed.

(** C10. For every input text and every maxLength (in particular every
    maxLength >= 1) the splitter returns, and every chunk it returns has
    length at most maxLength; but it loses text at hard cutoffs: there is
    an input longer than maxLength, without newline or space among its
    first maxLength + 1 characters, whose character at index maxLength
    appears in no returned chunk. *)
Theorem splitter_chunks_fit_but_cutoff_is_lossy :
  (forall (text : string) (maxLength : nat),
     exists chunks : list string,
       splitMessageByNewline text maxLength = Some chunks /\
       Forall (fun chunk => (String.length chunk <= maxLength)%nat) chunks) /\
  (exists (text : string) (maxLength : nat) (chunks : list string)
          (c : ascii),
     (maxLength < String.length text)%nat /\
     (forall (i : nat) (a : ascii),
        (i <= maxLength)%nat -> String.get i text = Some a ->
        a <> newline /\ a <> " "%char) /\
     splitMessageByNewline text maxLength = Some chunks /\
     String.get maxLength text = Some c /\
     forall (chunk : string) (i : nat),
       chunk ∈ chunks -> String.get i chunk <> Some c).
Proof.
  split.
  - intros text maxLength. unfold splitMessageByNewline.
    destruct (Nat.leb_spec (String.length text) maxLength) as [Hle|Hgt].
    + eexists. split; [reflexivity|]. constructor; [exact Hle|constructor].
    + apply splitLoop_total; [lia | constructor].
  - exists "abcdef", 3%nat, ["abc"; "ef"], "d"%char.
    split; [cbn; lia|]. split; [|split; [reflexivity|split; [reflexivity|]]].
    + intros i a Hi Hget.
      destruct i as [|[|[|[|i]]]]; try lia;
        cbn in Hget; injection Hget as <-; split; discriminate.
    + intros chunk i Hin.
      apply elem_of_cons in Hin as [-> | Hin].
      { destruct i as [|[|[|i]]]; cbn; discriminate. }
      apply list_elem_of_singleton in Hin as ->.
      destruct i as [|[|i]]; cbn; discriminate.
Qed.
End Splitter.

(** ** The memory tools *)

Section MemoryTools.
Import JsString MyAgent Tools StringFacts Samples.

Lemma split_nonempty (sep : ascii) (s : string) : split sep s <> [].
Proof.
  induction s as [|c s IH]; cbn [split]; [discriminate|].
  destruct (decide (c = sep)); [discriminate|].
  destruct (split sep s); discriminate.
Qed.

Lemma split_last (sep : ascii) (s : string) :
  exists (init : list string) (last : string), split sep s = init ++ [last].
Proof.
  destruct (split sep s) as [|x l] eqn:E using rev_ind.
  - exfalso. exact (split_nonempty sep s E).
  - eauto.
Qed.

Lemma join_cons (sep line : string) (rest : list string) :
  rest <> [] -> join sep (line :: rest) = line +:+ sep +:+ join sep rest.
Proof. destruct rest; [congruence | reflexivity]. Qed.

Lemma join_split (s : string) : join nl (split newline s) = s.
Proof.
  induction s as [|c s IH]; [reflexivity|].
  cbn [split]. destruct (decide (c = newline)) as [->|Hc].
  - rewrite join_cons by apply split_nonempty. rewrite IH. reflexivity.
  - pose proof (split_nonempty newline s) as Hne.
    destruct (split newline s) as [|line lines]; [congruence|].
    destruct lines as [|line' lines].
    + cbn in IH |- *. congruence.
    + rewrite join_cons in IH by discriminate.
      rewrite join_cons by discriminate.
      rewrite <- IH. reflexivity.
Qed.

Lemma split_lines_clean (s : string) :
  Forall (fun line => occurs newline line = false) (split newline s).
Proof.
  induction s as [|c s IH]; cbn [split].
  - constructor; [reflexivity | constructor].
  - destruct (decide (c = newline)) as [->|Hc].
    + constructor; [reflexivity | exact IH].
    + pose proof (split_nonempty newline s) as Hne.
      destruct (split newline s) as [|line lines]; [congruence|].
      inversion IH as [|? ? Hline Hlines]; subst.
      constructor; [|assumption].
      cbn [occurs]. rewrite Hline, bool_decide_eq_false_2 by exact Hc.
      reflexivity.
Qed.

Lemma split_append_line (line rest : string) :
  occurs newline line = false ->
  split newline (line +:+ nl +:+ rest) = line :: split newline rest.
Proof.
  change (nl +:+ rest) with (String newline rest).
  induction line as [|c line IH]; intros Hclean.
  - cbn. destruct (decide (newline = newline)); [reflexivity | congruence].
  - cbn [occurs] in Hclean. apply orb_false_iff in Hclean as [Hc Hclean].
    apply bool_decide_eq_false in Hc.
    change (String c line +:+ String newline rest)
      with (String c (line +:+ String newline rest)).
    cbn [split]. destruct (decide (c = newline)); [congruence|].
    rewrite IH by exact Hclean. reflexivity.
Qed.

Lemma split_join (lines : list string) :
  lines <> [] ->
  Forall (fun line => occurs newline line = false) lines ->
  split newline (join nl lines) = lines.
Proof.
  induction lines as [|line rest IH]; intros Hne Hclean; [congruence|].
  inversion Hclean as [|? ? Hline Hrest]; subst.
  destruct rest as [|line' rest].
  - cbn [join]. clear IH Hclean Hrest Hne.
    induction line as [|c line IH]; [reflexivity|].
    cbn [occurs] in Hline. apply orb_false_iff in Hline as [Hc Hline].
    apply bool_decide_eq_false in Hc.
    cbn [split]. destruct (decide (c = newline)); [congruence|].
    rewrite IH by exact Hline. reflexivity.
  - rewrite join_cons by discriminate.
    rewrite split_append_line by exact Hline.
    rewrite IH by (discriminate || assumption). reflexivity.
Qed.

Lemma splice_insert_first {A} (lines : list A) (item : A) :
  splice_insert lines 0 item = item :: lines.
Proof.
  unfold splice_insert, relativeIndex. change (0 <? 0) with false. cbv iota.
  replace (Z.to_nat (Z.min 0 (Z.of_nat (length lines)))) with 0%nat by lia.
  reflexivity.
Qed.

Lemma splice_insert_before_last {A} (init : list A) (last item : A) :
  splice_insert (init ++ [last]) (-1) item = init ++ [item; last].
Proof.
  unfold splice_insert, relativeIndex. change (-1 <? 0) with true. cbv iota.
  rewrite length_app. cbn [length].
  replace (Z.to_nat (Z.max (Z.of_nat (length init + 1) + -1) 0))
    with (length init) by lia.
  rewrite take_app_length, drop_app_length. reflexivity.
Qed.

Lemma hasBlock_true (w : World) (l : string) :
  hasBlock w l = true <-> exists b, b ∈ blocks w /\ label b = l.
Proof.
  unfold hasBlock. rewrite bool_decide_eq_true, Exists_exists. reflexivity.
Qed.

(** What [memoryInsert] does on a label that exists. *)
Lemma memoryInsert_known (now : N) (agent : World)
  (params : MemoryInsertParamsT) :
  hasBlock agent (mi_label params) = true ->
  memoryInsert now params (Some agent) =
  (Normal "Successfully inserted into memory block",
   Some (set_blocks
           (fun _ =>
              map (fun b =>
                     if decide (label b = mi_label params) then
                       with_value b
                         (join nl
                            (splice_insert (split newline (value b))
                               (mi_insert_line params) (mi_new_str params)))
                         now
                     else b)
                (blocks agent))
           agent)).
Proof.
  intros Hhas. unfold memoryInsert, mbind, M_bind, Js.bind, get.
  rewrite Hhas. reflexivity.
Qed.

(** C8. For every known block label, insert(label, text, 0) makes text
    the new first line of the block's value (the value becomes text, a
    line break, the old value), and insert(label, text, -1) places text
    immediately before the current last line, not after it; the block's
    lastUpdated becomes the current time and the other blocks stay as they
    are. *)
Theorem memoryInsert_at_boundaries (now : N) (agent : World)
  (lbl text : string) :
  hasBlock agent lbl = true ->
  let insertAt (line : Z) :=
    memoryInsert now
      {| mi_label := lbl; mi_new_str := text; mi_insert_line := line |}
      (Some agent) in
  (exists agent0 : World,
     insertAt 0
     = (Normal "Successfully inserted into memory block", Some agent0) /\
     length (blocks agent0) = length (blocks agent) /\
     forall (i : nat) (b : MemoryBlockI),
       blocks agent !! i = Some b ->
       if decide (label b = lbl) then
         exists b' : MemoryBlockI,
           blocks agent0 !! i = Some b' /\
           b' = with_value b (text +:+ nl +:+ value b) now /\
           lastUpdated b' = now /\
           (occurs newline text = false ->
            split newline (value b') = text :: split newline (value b))
       else blocks agent0 !! i = Some b) /\
  (exists agent1 : World,
     insertAt (-1)
     = (Normal "Successfully inserted into memory block", Some agent1) /\
     length (blocks agent1) = length (blocks agent) /\
     forall (i : nat) (b : MemoryBlockI),
       blocks agent !! i = Some b ->
       if decide (label b = lbl) then
         exists (b' : MemoryBlockI) (init : list string) (last : string),
           split newline (value b) = init ++ [last] /\
           blocks agent1 !! i = Some b' /\
           b' = with_value b (join nl (init ++ [text; last])) now /\
           lastUpdated b' = now /\
           (occurs newline text = false ->
            split newline (value b') = init ++ [text; last])
       else blocks agent1 !! i = Some b).
Proof.
  intros Hhas. cbv zeta. split.
  - eexists. split; [apply memoryInsert_known; exact Hhas|].
    cbn [set_blocks blocks mi_label mi_new_str mi_insert_line].
    split; [apply length_map|].
    intros i b Hi. rewrite list_lookup_fmap, Hi. cbn [fmap option_fmap option_map].
    destruct (decide (label b = lbl)) as [Hl|Hl]; [|reflexivity].
    rewrite splice_insert_first, join_cons by apply split_nonempty.
    rewrite join_split.
    eexists. split; [reflexivity|]. split; [reflexivity|].
    split; [reflexivity|]. intros Hclean. cbn [with_value value].
    apply split_append_line, Hclean.
  - eexists. split; [apply memoryInsert_known; exact Hhas|].
    cbn [set_blocks blocks mi_label mi_new_str mi_insert_line].
    split; [apply length_map|].
    intros i b Hi. rewrite list_lookup_fmap, Hi. cbn [fmap option_fmap option_map].
    destruct (decide (label b = lbl)) as [Hl|Hl]; [|reflexivity].
    destruct (split_last newline (value b)) as (init & last & Hsplit).
    rewrite Hsplit, splice_insert_before_last.
    eexists _, init, last. split; [reflexivity|]. split; [reflexivity|].
    split; [reflexivity|]. split; [reflexivity|].
    intros Hclean. cbn [with_value value].
    apply split_join; [destruct init; discriminate|].
    pose proof (split_lines_clean (value b)) as Hall. rewrite Hsplit in Hall.
    apply Forall_app in Hall as [Hinit Hlast].
    apply Forall_app. split; [exact Hinit|].
    constructor; [exact Hclean | exact Hlast].
Qed.

(** The theorem applied to the block "human" of two lines. *)
Lemma memoryInsert_at_boundaries_witness :
  hasBlock sampleAgent "human" = true /\
  exists agent1 : World,
    memoryInsert 7
      {| mi_label := "human"; mi_new_str := "Age: ?"; mi_insert_line := -1 |}
      (Some sampleAgent)
    = (Normal "Successfully inserted into memory block", Some agent1).
Proof.
  split; [reflexivity|].
  destruct (memoryInsert_at_boundaries 7 sampleAgent "human" "Age: ?")
    as (_ & agent1 & Hrun & _).
  - reflexivity.
  - exists agent1. exact Hrun.
Defined.

(** *** [memoryReplace] *)

Lemma GetSubstitution_plain (matched before after template : string) :
  occurs "$" template = false ->
  GetSubstitution matched before after template = template.
Proof.
  induction template as [|c template IH]; intros Hplain; [reflexivity|].
  cbn [occurs] in Hplain. apply orb_false_iff in Hplain as [Hc Hplain].
  apply bool_decide_eq_false in Hc.
  cbn [GetSubstitution]. destruct (decide (c = "$"%char)); [congruence|].
  rewrite IH by exact Hplain. reflexivity.
Qed.

Lemma prefix_char (c a : ascii) (rest : string) :
  String.prefix (String c EmptyString) (String a rest) = bool_decide (a = c).
Proof.
  cbn [String.prefix]. destruct (ascii_dec c a) as [->|Hne].
  - rewrite bool_decide_eq_true_2 by reflexivity. destruct rest; reflexivity.
  - rewrite bool_decide_eq_false_2 by congruence. reflexivity.
Qed.

(** With a pattern of one character and a replacement without dollar
    sign, [replaceAll] replaces every occurrence. *)
Lemma replaceAll_char (c : ascii) (new s : string) :
  occurs "$" new = false ->
  replaceAll s (String c EmptyString) new = subst_char c new s.
Proof.
  intros Hplain. unfold replaceAll. generalize 0%nat at 1 as pos.
  generalize s at 1 as whole.
  induction s as [|a s IH]; intros whole pos; [reflexivity|].
  cbn [replaceAll_from subst_char]. rewrite prefix_char.
  destruct (decide (a = c)) as [->|Hne].
  - rewrite bool_decide_eq_true_2 by reflexivity.
    cbn [String.length]. rewrite GetSubstitution_plain by exact Hplain.
    rewrite IH. reflexivity.
  - rewrite bool_decide_eq_false_2 by exact Hne. rewrite IH. reflexivity.
Qed.

Lemma count_append (c : ascii) (s t : string) :
  count c (s +:+ t) = (count c s + count c t)%nat.
Proof.
  induction s as [|a s IH]; [reflexivity|].
  change (String a s +:+ t) with (String a (s +:+ t)).
  cbn [count]. rewrite IH. lia.
Qed.

Lemma count_subst_char (c d : ascii) (new s : string) :
  count d (subst_char c new s)
  = (count c s * count d new
     + (if decide (d = c) then 0 else count d s))%nat.
Proof.
  induction s as [|a s IH]; [cbn; destruct (decide (d = c)); reflexivity|].
  cbn [subst_char count].
  destruct (decide (a = c)) as [->|Hac].
  - rewrite count_append, IH.
    destruct (decide (d = c)) as [->|Hdc].
    + lia.
    + destruct (decide (c = d)); [congruence|]. lia.
  - cbn [count]. rewrite IH.
    destruct (decide (d = c)) as [->|Hdc].
    + destruct (decide (a = c)); [congruence|]. lia.
    + destruct (decide (a = d)); lia.
Qed.

(** Replacing "x" by "y": no "x" is left and every "x" has become a "y". *)
Lemma replaceAll_x_by_y (v : string) :
  count "x" (replaceAll v "x" "y") = 0%nat /\
  count "y" (replaceAll v "x" "y") = (count "x" v + count "y" v)%nat.
Proof.
  rewrite replaceAll_char by reflexivity.
  rewrite !count_subst_char. cbn [count].
  repeat destruct (decide _); try discriminate; try congruence.
  lia.
Qed.

Lemma memoryReplace_unknown (now : N) (agent : World)
  (params : MemoryReplaceParamsT) :
  hasBlock agent (mr_label params) = false ->
  memoryReplace now params (Some agent) = (Normal "Block not found", Some agent).
Proof.
  intros Hhas. unfold memoryReplace, mbind, M_bind, Js.bind, get.
  rewrite Hhas. reflexivity.
Qed.

Lemma memoryReplace_known (now : N) (agent : World)
  (params : MemoryReplaceParamsT) :
  hasBlock agent (mr_label params) = true ->
  memoryReplace now params (Some agent) =
  (Normal "Successfully inserted into memory block",
   Some (set_blocks
           (fun _ =>
              map (fun b =>
                     if decide (label b = mr_label params) then
                       with_value b
                         (replaceAll (value b) (mr_old_str params)
                            (mr_new_str params))
                         now
                     else b)
                (blocks agent))
           agent)).
Proof.
  intros Hhas. unfold memoryReplace, mbind, M_bind, Js.bind, get.
  rewrite Hhas. reflexivity.
Qed.

(** C7. replace(label, old, new) on a known label is meant to put new in
    place of every occurrence of old. With new = "$&" the built-in
    [replaceAll] reads the replacement as a pattern ("the matched text"):
    each "x" of "axbxcx" is replaced by "x" itself, so the value keeps its
    three "x" and never contains the text "$&", while lastUpdated is
    advanced as if the edit had been made. *)
Theorem memoryReplace_dollar_pattern :
  memoryReplace 9
    {| mr_label := "notes"; mr_old_str := "x"; mr_new_str := "$&" |}
    (Some xAgent)
  = (Normal "Successfully inserted into memory block",
     Some (set_blocks (fun _ => [with_value xBlock "axbxcx" 9]) xAgent)) /\
  count "x" (replaceAll "axbxcx" "x" "$&") = 3%nat /\
  replaceAll "axbxcx" "x" "$&" <> "a$&b$&c$&".
Proof.
  split; [reflexivity|]. split; [reflexivity|]. vm_compute. discriminate.
Qed.
End MemoryTools.

(** ** The channel checkpoint *)

Section CheckpointInvariant.
Import MyAgent GuildContext Props.

Variable channelId : string.
Variable llm : LlmRequest -> Completion LlmMessage.





End CheckpointInvariant.

Section CheckpointRun.
Import MyAgent GuildContext Props Samples.




End CheckpointRun.

(** ** The tool dispatcher *)

Section Dispatcher.
Import MyAgent Tools Samples.

(** The two memory tools are synchronous: whatever they do, the promise of
    [callTool] is fulfilled, with their result or with the message of the
    error they threw. *)
Lemma callTool_memory_fulfilled (now : N) (fetch : nat -> Promise Response)
  (toolName : string) (args : Args) (slot : AgentSlot) :
  toolName = "memory_insert" \/ toolName = "memory_replace" ->
  exists result : string,
    fst (callTool now fetch toolName args slot) = Fulfilled (Some result).
Proof.
  intros [-> | ->]; unfold callTool; cbn [decide]; unfold tryReturn.
  - rewrite decide_True by reflexivity.
    destruct (memoryInsert now (insertParams args) slot) as [[r | e] slot'];
      eauto.
  - rewrite decide_False by discriminate. rewrite decide_True by reflexivity.
    destruct (memoryReplace now (replaceParams args) slot) as [[r | e] slot'];
      eauto.
Qed.

(** The dispatcher adds nothing to an asynchronous tool: the promise it
    returns settles exactly as the promise of the tool does. *)
Lemma callTool_search_unguarded (now : N) (fetch : nat -> Promise Response)
  (args : Args) (slot : AgentSlot) :
  fst (callTool now fetch "internet_search" args slot)
  = match internetSearch fetch (arg_query args) with
    | Fulfilled result => Fulfilled (Some result)
    | Rejected e => Rejected e
    end.
Proof. reflexivity. Qed.

(** [internetSearch] rejects as soon as its third attempt fails, whatever
    the first two attempts did short of succeeding. *)
Lemma internetSearch_third_failure (fetch : nat -> Promise Response)
  (query : string) (e : JsError) :
  (forall i : nat, (i < 2)%nat ->
     match fetch i with
     | Fulfilled response => ok response = false
     | Rejected _ => True
     end) ->
  fetch 2%nat = Rejected e ->
  internetSearch fetch query = Rejected e.
Proof.
  intros Hsoft Hlast. unfold internetSearch, retries.
  assert (Hstep : forall i : nat, (i < 2)%nat ->
            retryLoop fetch "Failed to search the internet: "
              "Error: Failed to search the internet" (3 - i) i
            = retryLoop fetch "Failed to search the internet: "
                "Error: Failed to search the internet" (3 - S i) (S i)).
  { intros i Hi. specialize (Hsoft i Hi).
    destruct (3 - i)%nat as [|r] eqn:Er; [lia|].
    replace (3 - S i)%nat with r by lia.
    cbn [retryLoop]. unfold retries.
    destruct (fetch i) as [response | e']; cbn [await].
    - destruct (status response =? 429)%N; [reflexivity|].
      rewrite Hsoft. cbn [negb].
      destruct (Nat.leb_spec (3 - 1) i); [lia | reflexivity].
    - destruct (Nat.leb_spec (3 - 1) i); [lia | reflexivity]. }
  pose proof (Hstep 0%nat ltac:(lia)) as H0.
  pose proof (Hstep 1%nat ltac:(lia)) as H1.
  cbn [Nat.sub] in H0, H1. rewrite H0, H1.
  cbn [retryLoop]. rewrite Hlast. reflexivity.
Qed.

(** C9. A tool failure is meant to come back from the dispatcher as a
    string. It does for the synchronous memory tools (outside of an agent
    context [memory_insert] throws "Expected agent" and the dispatcher
    returns that text), but [internet_search] is returned without [await]:
    when the search service answers 500 three times, the promise of the
    dispatcher is rejected with the error and no string result exists. *)
Theorem callTool_search_failure_escapes (now : N) (args : Args)
  (slot : AgentSlot) :
  callTool now fetch_500 "memory_insert" args None
  = (Fulfilled (Some "Expected agent"), None) /\
  callTool now fetch_500 "internet_search" args slot
  = (Rejected
       (ErrorObj "Failed to search the internet: Internal Server Error"),
     slot) /\
  callTool now fetch_500 "read_website" args slot
  = (Rejected
       (ErrorObj "Failed to search the internet: Internal Server Error"),
     slot) /\
  await (fst (callTool now fetch_500 "internet_search" args slot))
  = Throw (ErrorObj "Failed to search the internet: Internal Server Error").
Proof.
  split; [reflexivity|]. split; [reflexivity|]. split; reflexivity.
Qed.
End Dispatcher.

(** ** More on the splitter *)

Section SplitterMore.
Import JsString DiscordAgent StringFacts TextFacts.

Lemma length_substring_exact (s : string) : forall n m : nat,
  String.length (String.substring n m s)
  = Nat.min m (String.length s - n).
Proof.
  induction s as [|c s IH]; intros [|n] [|m]; cbn [String.substring String.length];
    try reflexivity.
  - rewrite IH. cbn. lia.
  - rewrite IH. cbn. lia.
  - rewrite IH. cbn. lia.
Qed.

Lemma substring_whole (s : string) :
  String.substring 0 (String.length s) s = s.
Proof. induction s as [|a s IH]; [reflexivity|]. cbn. f_equal. exact IH. Qed.

Lemma substring_cut (s : string) : forall k : nat,
  (k < String.length s)%nat ->
  exists gap : ascii,
    String.get k s = Some gap /\
    s = String.substring 0 k s
        +:+ String gap
              (String.substring (S k) (String.length s - S k) s).
Proof.
  induction s as [|c s IH]; intros k Hk; cbn in Hk; [lia|].
  destruct k as [|k].
  - exists c. split; [reflexivity|]. cbn [String.substring String.length].
    replace (S (String.length s) - 1)%nat with (String.length s) by lia.
    rewrite substring_whole. reflexivity.
  - destruct (IH k) as (gap & Hget & Hs); [lia|].
    exists gap. split; [exact Hget|].
    cbn [String.substring String.length].
    change (String c (String.substring 0 k s) +:+ ?x)
      with (String c (String.substring 0 k s +:+ x)).
    f_equal. replace (S (String.length s) - S (S k))%nat
      with (String.length s - S k)%nat by lia.
    exact Hs.
Qed.
Lemma append_empty_r (s : string) : s +:+ EmptyString = s.
Proof.
  induction s as [|a s IH]; [reflexivity|].
  change (String a (s +:+ EmptyString) = String a s). f_equal. exact IH.
Qed.

Lemma append_assoc3 (s t u : string) : (s +:+ t) +:+ u = s +:+ (t +:+ u).
Proof.
  induction s as [|a s IH]; [reflexivity|].
  change (String a ((s +:+ t) +:+ u) = String a (s +:+ (t +:+ u))).
  f_equal. exact IH.
Qed.

Lemma length_append (s t : string) :
  String.length (s +:+ t) = (String.length s + String.length t)%nat.
Proof.
  induction s as [|a s IH]; [reflexivity|].
  change (S (String.length (s +:+ t))
          = S (String.length s + String.length t)).
  f_equal. exact IH.
Qed.

Lemma rebuild_snoc_chunk (chunks : list string) : forall (gaps : list ascii)
  (chunk : string),
  length gaps = length chunks ->
  rebuild (chunks ++ [chunk]) gaps = rebuild chunks gaps +:+ chunk.
Proof.
  induction chunks as [|c chunks IH]; intros [|g gaps] chunk Hlen;
    cbn in Hlen; try lia.
  - cbn. apply append_empty_r.
  - cbn [app rebuild]. rewrite IH by lia.
    change (String g (rebuild chunks gaps +:+ chunk))
      with (String g (rebuild chunks gaps) +:+ chunk).
    symmetry. apply append_assoc3.
Qed.

Lemma rebuild_snoc_gap (chunks : list string) : forall (gaps : list ascii)
  (chunk : string) (gap : ascii),
  length gaps = length chunks ->
  rebuild (chunks ++ [chunk]) (gaps ++ [gap])
  = rebuild chunks gaps +:+ chunk +:+ String gap EmptyString.
Proof.
  induction chunks as [|c chunks IH]; intros [|g gaps] chunk gap Hlen;
    cbn in Hlen; try lia.
  - reflexivity.
  - cbn [app rebuild]. rewrite IH by lia.
    change (String g (rebuild chunks gaps +:+ chunk +:+ String gap ""))
      with (String g (rebuild chunks gaps) +:+ chunk +:+ String gap "").
    symmetry. apply append_assoc3.
Qed.

(** A hit of [lastIndexOf] for a pattern of one character is an index
    that holds this character. *)
Lemma lastIndexOf_from_hit (c : ascii) (position : nat) (s : string) :
  forall (i : nat) (acc : Z),
    lastIndexOf_from s (String c EmptyString) position i acc = acc \/
    exists k : nat,
      lastIndexOf_from s (String c EmptyString) position i acc
      = Z.of_nat (i + k) /\
      String.get k s = Some c.
Proof.
  induction s as [|a s IH]; intros i acc; cbn [lastIndexOf_from].
  - destruct (position <? i)%nat; left; reflexivity.
  - destruct (position <? i)%nat; [left; reflexivity|].
    rewrite prefix_char.
    destruct (bool_decide_reflect (a = c)) as [->|Hne].
    + destruct (IH (S i) (Z.of_nat i)) as [-> | (k & -> & Hget)].
      * right. exists 0%nat. split; [f_equal; lia | reflexivity].
      * right. exists (S k). split; [f_equal; lia | exact Hget].
    + destruct (IH (S i) acc) as [-> | (k & -> & Hget)].
      * left; reflexivity.
      * right. exists (S k). split; [f_equal; lia | exact Hget].
Qed.

Lemma lastIndexOf_hit (c : ascii) (s : string) (position : nat) :
  lastIndexOf s (String c EmptyString) position = -1 \/
  exists k : nat,
    lastIndexOf s (String c EmptyString) position = Z.of_nat k /\
    String.get k s = Some c.
Proof.
  unfold lastIndexOf.
  destruct (lastIndexOf_from_hit c position s 0 (-1)) as [H | (k & H & Hget)];
    [left; exact H | right; exists k; split; assumption].
Qed.

(** One pass of the loop on a text longer than the limit: the index of
    the cut is between 1 and maxLength when maxLength is positive, and the
    character under it is a line break or a space unless the cut is at
    maxLength. *)
Lemma split_index (maxLength : nat) (remaining : string) :
  (maxLength < String.length remaining)%nat ->
  let i1 := lastIndexOf remaining (String newline EmptyString) maxLength in
  let i2 := if (i1 =? -1) || (i1 =? 0)
            then lastIndexOf remaining " " maxLength else i1 in
  let i3 := if (i2 =? -1) || (i2 =? 0) then Z.of_nat maxLength else i2 in
  exists (k : nat) (gap : ascii),
    i3 = Z.of_nat k /\ (k <= maxLength)%nat /\ (1 <= maxLength -> 1 <= k)%nat /\
    substring remaining 0 (Some k) = String.substring 0 k remaining /\
    String.length (substring remaining 0 (Some k)) = k /\
    remaining
    = substring remaining 0 (Some k)
      +:+ String gap (substring remaining (S k) None) /\
    (gap = newline \/ gap = " "%char \/ k = maxLength).
Proof.
  intros Hlong i1 i2 i3.
  pose proof (lastIndexOf_bounds remaining (String newline EmptyString)
                maxLength) as B1. fold i1 in B1.
  pose proof (lastIndexOf_bounds remaining " " maxLength) as B2.
  assert (Hcut : forall k : nat, (k <= maxLength)%nat ->
            substring remaining 0 (Some k) = String.substring 0 k remaining /\
            substring remaining (S k) None
            = String.substring (S k) (String.length remaining - S k)
                remaining).
  { intros k Hk. unfold substring. cbv zeta.
    set (len := String.length remaining) in *.
    replace (Nat.min 0 len) with 0%nat by lia.
    replace (Nat.min k len) with k by lia.
    replace (Nat.min (S k) len) with (S k) by lia.
    replace (Nat.min 0 k) with 0%nat by lia.
    replace (Nat.max 0 k) with k by lia.
    replace (Nat.min (S k) len) with (S k) by lia.
    replace (Nat.max (S k) len) with len by lia.
    rewrite Nat.sub_0_r. split; reflexivity. }
  assert (Hk : exists k : nat,
            i3 = Z.of_nat k /\ (k <= maxLength)%nat /\
            (1 <= maxLength -> 1 <= k)%nat /\
            (String.get k remaining = Some newline \/
             String.get k remaining = Some " "%char \/ k = maxLength)).
  { subst i3 i2.
    destruct (Z.eqb_spec i1 (-1)) as [E1|E1]; cbn [orb];
      [|destruct (Z.eqb_spec i1 0) as [E0|E0]].
    1,2: destruct (Z.eqb_spec (lastIndexOf remaining " " maxLength) (-1))
           as [F1|F1]; cbn [orb];
         [|destruct (Z.eqb_spec (lastIndexOf remaining " " maxLength) 0)
             as [F0|F0]].
    1,2,4,5: exists maxLength; repeat split; auto.
    1,2: destruct (lastIndexOf_hit " " remaining maxLength)
           as [H | (k & H & Hget)]; [lia|];
         exists k; repeat split; [exact H | lia | lia | auto].
    destruct (Z.eqb_spec i1 (-1)); [lia|]. cbn [orb].
    destruct (Z.eqb_spec i1 0); [lia|].
    destruct (lastIndexOf_hit newline remaining maxLength)
      as [H | (k & H & Hget)]; [fold i1 in H; lia|]. fold i1 in H.
    exists k. repeat split; [exact H | lia | lia | auto]. }
  destruct Hk as (k & Hi3 & Hle & Hpos & Hgap).
  destruct (substring_cut remaining k) as (gap & Hget & Hsplit); [lia|].
  destruct (Hcut k Hle) as [Hpre Hsuf].
  exists k, gap. rewrite Hpre, Hsuf.
  repeat split; try assumption.
  - rewrite length_substring_exact. lia.
  - rewrite Hget in Hgap.
    destruct Hgap as [Hg | [Hg | Hg]];
      [left; congruence | right; left; congruence | right; right; exact Hg].
Qed.

Lemma splitLoop_step (fuel maxLength : nat) (remaining : string)
  (chunks : list string) :
  (maxLength < String.length remaining)%nat ->
  exists (k : nat) (gap : ascii),
    splitLoop (S fuel) maxLength remaining chunks
    = splitLoop fuel maxLength (substring remaining (S k) None)
        (chunks ++ [substring remaining 0 (Some k)]) /\
    (k <= maxLength)%nat /\ (1 <= maxLength -> 1 <= k)%nat /\
    String.length (substring remaining 0 (Some k)) = k /\
    remaining
    = substring remaining 0 (Some k)
      +:+ String gap (substring remaining (S k) None) /\
    (gap = newline \/ gap = " "%char \/ k = maxLength).
Proof.
  intros Hlong.
  destruct (split_index maxLength remaining Hlong)
    as (k & gap & Hi3 & Hle & Hpos & _ & Hlen & Hsplit & Hgap).
  exists k, gap. split; [|repeat split; assumption].
  cbn [splitLoop].
  destruct (Nat.eqb_spec (String.length remaining) 0); [lia|].
  destruct (Nat.leb_spec (String.length remaining) maxLength); [lia|].
  cbv zeta in Hi3. rewrite Hi3.
  rewrite Nat2Z.id. replace (Z.to_nat (Z.of_nat k + 1)) with (S k) by lia.
  reflexivity.
Qed.

Lemma splitLoop_rebuild (maxLength : nat) : forall (fuel : nat)
  (remaining : string) (chunks out : list string) (gaps : list ascii),
  splitLoop fuel maxLength remaining chunks = Some out ->
  length gaps = length chunks ->
  gaps_ok maxLength chunks gaps ->
  exists gaps' : list ascii,
    rebuild chunks gaps +:+ remaining = rebuild out gaps' /\
    (length gaps' = length out \/ S (length gaps') = length out) /\
    gaps_ok maxLength out gaps'.
Proof.
  induction fuel as [|fuel IH]; intros remaining chunks out gaps Hrun Hlen Hok;
    [discriminate|].
  destruct (Nat.le_gt_cases (String.length remaining) maxLength) as [Hle|Hgt].
  - cbn [splitLoop] in Hrun.
    destruct (Nat.eqb_spec (String.length remaining) 0) as [H0|H0].
    + injection Hrun as <-. exists gaps.
      destruct remaining; [|discriminate].
      rewrite append_empty_r. auto.
    + destruct (Nat.leb_spec (String.length remaining) maxLength); [|lia].
      injection Hrun as <-. exists gaps.
      rewrite rebuild_snoc_chunk by exact Hlen.
      split; [reflexivity|]. split; [right; rewrite length_app; cbn; lia|].
      intros i chunk gap Hc Hg.
      assert (i < length chunks)%nat
        by (rewrite <- Hlen; eapply lookup_lt_Some, Hg).
      rewrite lookup_app_l in Hc by assumption. eapply Hok; eassumption.
  - destruct (splitLoop_step fuel maxLength remaining chunks Hgt)
      as (k & gap & Hstep & Hk & _ & Hklen & Hsplit & Hgap).
    rewrite Hstep in Hrun.
    destruct (IH _ _ out (gaps ++ [gap]) Hrun) as (gaps' & Hre & Hlens & Hok').
    + rewrite !length_app. cbn. lia.
    + intros i chunk g Hc Hg.
      destruct (decide (i < length chunks)%nat) as [Hi|Hi].
      * rewrite lookup_app_l in Hc by assumption.
        rewrite lookup_app_l in Hg by lia. eapply Hok; eassumption.
      * assert (i = length chunks).
        { apply lookup_lt_Some in Hc. rewrite length_app in Hc. cbn in Hc. lia. }
        subst i. rewrite list_lookup_middle in Hc by reflexivity.
        rewrite list_lookup_middle in Hg by (symmetry; exact Hlen).
        injection Hc as <-. injection Hg as <-. rewrite Hklen.
        destruct Hgap as [?|[?|?]]; auto.
    + exists gaps'. split; [|split; assumption].
      rewrite <- Hre, rebuild_snoc_gap by exact Hlen.
      rewrite Hsplit at 1. rewrite !append_assoc3. reflexivity.
Qed.

Lemma splitLoop_nonempty (maxLength : nat) : forall (fuel : nat)
  (remaining : string) (chunks out : list string),
  (1 <= maxLength)%nat ->
  splitLoop fuel maxLength remaining chunks = Some out ->
  Forall (fun chunk => chunk <> EmptyString) chunks ->
  Forall (fun chunk => chunk <> EmptyString) out.
Proof.
  induction fuel as [|fuel IH]; intros remaining chunks out Hmax Hrun Hne;
    [discriminate|].
  destruct (Nat.le_gt_cases (String.length remaining) maxLength) as [Hle|Hgt].
  - cbn [splitLoop] in Hrun.
    destruct (Nat.eqb_spec (String.length remaining) 0) as [H0|H0].
    + injection Hrun as <-. exact Hne.
    + destruct (Nat.leb_spec (String.length remaining) maxLength); [|lia].
      injection Hrun as <-. apply Forall_app. split; [exact Hne|].
      constructor; [|constructor]. intros ->. cbn in H0. lia.
  - destruct (splitLoop_step fuel maxLength remaining chunks Hgt)
      as (k & gap & Hstep & _ & Hpos & Hklen & _).
    rewrite Hstep in Hrun. apply (IH _ _ out Hmax Hrun).
    apply Forall_app. split; [exact Hne|]. constructor; [|constructor].
    intros Hempty. rewrite Hempty in Hklen. cbn in Hklen.
    specialize (Hpos Hmax). lia.
Qed.

(** X1. Whatever the splitter drops is accounted for: the text is the
    chunks in order with one character put back after each chunk (after
    each but the last when the last chunk reaches the end of the text),
    and such a dropped character is a line break or a space unless its
    chunk was cut at exactly maxLength characters. *)
Theorem splitter_drops_one_character_per_cut (text : string)
  (maxLength : nat) :
  exists (chunks : list string) (gaps : list ascii),
    splitMessageByNewline text maxLength = Some chunks /\
    text = rebuild chunks gaps /\
    (length gaps = length chunks \/ S (length gaps) = length chunks) /\
    gaps_ok maxLength chunks gaps.
Proof.
  unfold splitMessageByNewline.
  destruct (Nat.leb_spec (String.length text) maxLength) as [Hle|Hgt].
  - exists [text], []. split; [reflexivity|].
    split; [cbn; symmetry; apply append_empty_r|].
    split; [right; reflexivity|]. intros i chunk gap _ Hg. discriminate.
  - destruct (splitLoop_total maxLength (S (String.length text)) text [])
      as (chunks & Hrun & _); [lia | constructor |].
    destruct (splitLoop_rebuild maxLength _ _ _ chunks [] Hrun)
      as (gaps & Hre & Hlens & Hok); [reflexivity | |].
    + intros i chunk gap Hc. discriminate.
    + exists chunks, gaps. repeat split; assumption.
Qed.

(** X2. For a text that is not empty and a limit of at least one
    character, no chunk is empty. *)
Theorem splitter_chunks_nonempty (text : string) (maxLength : nat) :
  text <> EmptyString -> (1 <= maxLength)%nat ->
  exists chunks : list string,
    splitMessageByNewline text maxLength = Some chunks /\
    Forall (fun chunk => chunk <> EmptyString) chunks.
Proof.
  intros Hne Hmax. unfold splitMessageByNewline.
  destruct (Nat.leb_spec (String.length text) maxLength) as [Hle|Hgt].
  - exists [text]. split; [reflexivity|]. constructor; [exact Hne|constructor].
  - destruct (splitLoop_total maxLength (S (String.length text)) text [])
      as (chunks & Hrun & _); [lia | constructor |].
    exists chunks. split; [exact Hrun|].
    apply (splitLoop_nonempty maxLength _ _ _ chunks Hmax Hrun). constructor.
Qed.

(** The theorem applied to a short reply. *)
Lemma splitter_chunks_nonempty_witness :
  "hello world" <> EmptyString /\ (1 <= 5)%nat /\
  exists chunks : list string,
    splitMessageByNewline "hello world" 5 = Some chunks /\
    Forall (fun chunk => chunk <> EmptyString) chunks.
Proof.
  split; [discriminate|]. split; [lia|].
  apply splitter_chunks_nonempty; [discriminate | lia].
Defined.
End SplitterMore.

(** ** Reading the context window *)

Section ConversationFacts.
Import MyAgent Props Conversation Float64.

Lemma getMessages_run (w : World) :
  getMessages w =
  (Normal (omap (fun id => message_of_row <$> (messages w !! id))
             (messageBuffer w)), w).
Proof.
  unfold getMessages, mbind, M_bind, Js.bind, get.
  destruct (Nat.eqb_spec (length (messageBuffer w)) 0) as [H0|H0];
    [|reflexivity].
  destruct (messageBuffer w); [reflexivity | discriminate].
Qed.

Lemma omap_resolved (store : gmap string Row) (ids : list string) :
  (forall id, id ∈ ids -> is_Some (store !! id)) ->
  Forall2 (fun id m => exists row, store !! id = Some row /\ m = message_of_row row)
    ids (omap (fun id => message_of_row <$> (store !! id)) ids).
Proof.
  induction ids as [|id ids IH]; intros Hall; [constructor|].
  cbn [omap list_omap].
  destruct (Hall id) as [row Hrow]; [left|].
  rewrite Hrow. cbn [fmap option_fmap option_map]. constructor.
  - eauto.
  - apply IH. intros id' Hin. apply Hall. right; exact Hin.
Qed.

Lemma omap_ext_in {A B} (f g : A -> option B) (l : list A) :
  (forall x, x ∈ l -> f x = g x) -> omap f l = omap g l.
Proof.
  induction l as [|x l IH]; intros H; [reflexivity|].
  cbn [omap list_omap]. rewrite (H x) by left.
  rewrite IH; [reflexivity|]. intros y Hy. apply H. right; exact Hy.
Qed.

Lemma omap_drop_resolved (store : gmap string Row) (ids : list string)
  (k : nat) :
  (forall id, id ∈ ids -> is_Some (store !! id)) ->
  omap (fun id => message_of_row <$> (store !! id)) (drop k ids)
  = drop k (omap (fun id => message_of_row <$> (store !! id)) ids).
Proof.
  revert k. induction ids as [|id ids IH]; intros k Hall;
    [rewrite drop_nil; cbn [omap list_omap]; rewrite drop_nil; reflexivity|].
  destruct k as [|k]; [reflexivity|].
  cbn [drop omap list_omap].
  destruct (Hall id) as [row Hrow]; [left|].
  rewrite Hrow. cbn [fmap option_fmap option_map drop].
  apply IH. intros id' Hin. apply Hall. right; exact Hin.
Qed.

Lemma omap_length_le {A B} (f : A -> option B) (l : list A) :
  (length (omap f l) <= length l)%nat.
Proof.
  induction l as [|x l IH]; [reflexivity|].
  cbn [omap list_omap]. destruct (f x); cbn [length]; lia.
Qed.

(** X3. [getMessages] never fails and changes nothing. It returns at most
    one message per id of the buffer, and when no id dangles it returns
    exactly one message per id, in buffer order, each the message of the
    row stored under that id. *)
Theorem getMessages_materializes_buffer (w : World) :
  exists msgs : list ChatMessage,
    getMessages w = (Normal msgs, w) /\
    (length msgs <= length (messageBuffer w))%nat /\
    (no_dangling w ->
     Forall2
       (fun id m =>
          exists row, messages w !! id = Some row /\ m = message_of_row row)
       (messageBuffer w) msgs).
Proof.
  eexists. split; [apply getMessages_run|]. split.
  - apply omap_length_le.
  - intros Hw. apply omap_resolved. exact Hw.
Qed.
(** X4. A turn added under an id that is not in the buffer shows up as
    the last message of the context, and the messages before it are the
    ones that were there. *)
Theorem addMessage_appends_to_context (w : World) (m : MessageInput) :
  mi_id m ∉ messageBuffer w ->
  exists msgs : list ChatMessage,
    fst (getMessages w) = Normal msgs /\
    fst (getMessages (snd (addMessage m w)))
    = Normal (msgs ++ [message_of_input m]).
Proof.
  intros Hfresh. eexists. rewrite !getMessages_run. cbn [fst].
  split; [reflexivity|]. f_equal.
  rewrite addMessage_result. cbn [snd messages messageBuffer].
  rewrite omap_app. f_equal.
  - apply omap_ext_in. intros id Hid.
    rewrite lookup_insert_ne; [reflexivity|].
    intros Heq. apply Hfresh. rewrite Heq. exact Hid.
  - cbn [omap list_omap]. rewrite lookup_insert_eq. reflexivity.
Qed.

(** The theorem applied to the first turn of a conversation. *)
Lemma addMessage_appends_to_context_witness :
  ("0b9e" ∉ messageBuffer (initial [])) /\
  exists msgs : list ChatMessage,
    fst (getMessages
           (snd (addMessage
                   {| mi_id := "0b9e"; mi_role := RoleUser;
                      mi_content := Some "hello"; mi_tool_calls := None;
                      mi_tool_call_id := None |}
                   (initial []))))
    = Normal msgs.
Proof.
  split; [apply not_elem_of_nil|].
  destruct (addMessage_appends_to_context (initial [])
              {| mi_id := "0b9e"; mi_role := RoleUser;
                 mi_content := Some "hello"; mi_tool_calls := None;
                 mi_tool_call_id := None |})
    as (msgs & _ & Hafter); [apply not_elem_of_nil|].
  eexists. exact Hafter.
Defined.

Lemma summary_message_shape (c : Content) :
  message_of_row (summaryRow c)
  = {| cm_role := RoleUser; cm_content := Some (summaryMessage c);
       cm_tool_calls := None; cm_tool_call_id := None |}.
Proof.
  unfold message_of_row, summaryRow. cbn [row_role row_content row_tool_calls
    row_tool_call_id truthy_string].
  destruct (decide (summaryMessage c = "")) as [H|_]; [discriminate H|].
  reflexivity.
Qed.

(** X5. Pruning as the model sees it: when the step fires on a buffer
    without dangling ids, and the summary id is not already an id of the
    buffer, the context read afterwards is one user message holding the
    summary, followed by the old context without its first k messages,
    where k is the number [Math.floor(N * 0.7)] that the step computes
    in binary64 (62 at N = 90). *)
Theorem prune_replaces_prefix_of_context (cfg : BufferConfig)
  (llm : LlmRequest -> Completion LlmMessage) (now : N) (w : World)
  (message : LlmMessage) :
  PRUNE_PERCENTAGE cfg = lit_0_7 ->
  (MAX_MESSAGES cfg < length (messageBuffer w))%nat ->
  Z.of_nat (length (messageBuffer w)) < 2 ^ 32 ->
  llm (pruneRequest cfg w) = Normal message ->
  no_dangling w ->
  summaryMessageId cfg now ∉ messageBuffer w ->
  exists (k : nat) (msgs : list ChatMessage),
    numToRemove cfg (length (messageBuffer w)) = Int (Z.of_nat k) /\
    fst (getMessages w) = Normal msgs /\
    length msgs = length (messageBuffer w) /\
    fst (getMessages (snd (summarizeAndPruneMessages cfg llm now w)))
    = Normal
        ({| cm_role := RoleUser;
            cm_content := Some (summaryMessage (content message));
            cm_tool_calls := None; cm_tool_call_id := None |}
         :: drop k msgs).
Proof.
  intros Hpct Hmax Hlen Hllm Hw Hfresh.
  destruct (numToRemove_nat cfg (length (messageBuffer w)) Hpct)
    as (k & Hk & _); [lia | exact Hlen |].
  exists k. eexists. split; [exact Hk|].
  rewrite !getMessages_run. cbn [fst]. split; [reflexivity|]. split.
  - pose proof (omap_resolved (messages w) (messageBuffer w) Hw) as HF.
    symmetry. exact (Forall2_length _ _ _ HF).
  - f_equal. rewrite (prune_fires cfg llm now w message Hmax Hllm).
    cbn [snd messages messageBuffer omap list_omap].
    rewrite lookup_insert_eq. cbn [fmap option_fmap option_map].
    rewrite summary_message_shape. f_equal.
    rewrite Hk, slice_suffix.
    rewrite <- omap_drop_resolved by exact Hw.
    apply omap_ext_in. intros id Hid.
    rewrite lookup_insert_ne; [reflexivity|].
    intros Heq. apply Hfresh. rewrite Heq. eapply subseteq_drop, Hid.
Qed.
Lemma sampleWorld_no_dangling (n : nat) : no_dangling (Samples.sampleWorld n).
Proof.
  intros id Hid. unfold Samples.sampleWorld in *. cbn [messages messageBuffer] in *.
  destruct (list_to_map _ !! id) as [row|] eqn:E; [eauto|].
  apply not_elem_of_list_to_map in E. exfalso. apply E.
  rewrite <- list_fmap_compose. cbn. rewrite list_fmap_id. exact Hid.
Defined.

(** The theorem applied to a buffer of 51 ids. *)
Lemma prune_replaces_prefix_of_context_witness :
  no_dangling (Samples.sampleWorld 51) /\
  ("summary_0" ∉ messageBuffer (Samples.sampleWorld 51)) /\
  exists (k : nat) (msgs : list ChatMessage),
    fst (getMessages
           (snd (summarizeAndPruneMessages MESSAGE_BUFFER_CONFIG
                   Samples.llm_ok 0 (Samples.sampleWorld 51))))
    = Normal
        ({| cm_role := RoleUser;
            cm_content :=
              Some (summaryMessage (content Samples.sampleMessage));
            cm_tool_calls := None; cm_tool_call_id := None |}
         :: drop k msgs).
Proof.
  assert (Hfresh : "summary_0" ∉ messageBuffer (Samples.sampleWorld 51))
    by (apply (bool_decide_eq_false_1 _); vm_compute; reflexivity).
  split; [apply sampleWorld_no_dangling|]. split; [exact Hfresh|].
  destruct (prune_replaces_prefix_of_context MESSAGE_BUFFER_CONFIG
              Samples.llm_ok 0 (Samples.sampleWorld 51) Samples.sampleMessage)
    as (k & msgs & _ & _ & _ & Hafter).
  - reflexivity.
  - vm_compute; lia.
  - vm_compute; reflexivity.
  - reflexivity.
  - apply sampleWorld_no_dangling.
  - exact Hfresh.
  - exists k, msgs. exact Hafter.
Defined.
End ConversationFacts.

(** ** More on the context of a guild channel *)

Section GuildContextMore.
Import MyAgent GuildContext Props JsString GuildFacts.

Variable fetchChannelMessages :
  string -> option N -> Promise (list DiscordMessage).
Variable llm : LlmRequest -> Completion LlmMessage.

Ltac run_build :=
  unfold buildContextFromDiscord, summarizeMessages, mbind, M_bind, Js.bind,
    get, liftP, callLlm, modify, mret, M_ret, Js.ret.

(** X6. [buildContextFromDiscord] touches nothing but the checkpoint of
    the channel it is called for: the message table, the buffer, the
    memory blocks and the checkpoints of all other channels are as
    before, whatever the platform and the model answer; and when it ends
    in an exception (a fetch is rejected, the model call throws) the
    checkpoint of its own channel is as before, too. *)
Theorem buildContext_frame (channelId : string) (w : World) :
  let r := buildContextFromDiscord fetchChannelMessages llm channelId w in
  messages (snd r) = messages w /\
  messageBuffer (snd r) = messageBuffer w /\
  blocks (snd r) = blocks w /\
  (forall other : string,
     other <> channelId ->
     channelCheckpoints (snd r) !! other = channelCheckpoints w !! other) /\
  (forall e : JsError,
     fst r = Throw e -> channelCheckpoints (snd r) = channelCheckpoints w).
Proof.
  cbv zeta. run_build.
  destruct (fetchChannelMessages channelId None) as [recent | e0];
    cbn [await]; [|repeat split; reflexivity].
  destruct recent as [|first others]; [repeat split; try reflexivity; discriminate|].
  destruct (_ && _); [|repeat split; try reflexivity; discriminate].
  destruct (fetchChannelMessages channelId (Some _)) as [older | e1];
    cbn [await]; [|repeat split; reflexivity].
  destruct (0 <? length older)%nat;
    [|repeat split; try reflexivity; discriminate].
  destruct (llm _) as [completion | e2]; [|repeat split; reflexivity].
  cbn [fst snd set_llmCalls set_channelCheckpoints messages messageBuffer
       blocks channelCheckpoints].
  repeat split; try discriminate.
  intros other Hother. rewrite lookup_insert_ne by congruence. reflexivity.
Qed.
(** X7. Channels that need no summarisation cost nothing: when the page
    of recent messages is not full (fewer than 100 messages, or none), or
    when its oldest message is the boundary already recorded, the step
    returns the recorded summary with the page, makes no second fetch and
    no model call, and leaves the whole state as it is. *)
Theorem buildContext_idle (channelId : string) (w : World)
  (recent : list DiscordMessage) :
  fetchChannelMessages channelId None = Fulfilled recent ->
  (length recent <> 100%nat \/
   exists (first : DiscordMessage) (others : list DiscordMessage),
     recent = first :: others /\
     seenId channelId w = Some (dm_id (oldestOf first others))) ->
  buildContextFromDiscord fetchChannelMessages llm channelId w
  = (Normal
       {| ctx_summary :=
            or_else
              (summary
                 (default {| oldestSeenMessageId := None; summary := None |}
                    (channelCheckpoints w !! channelId))) "";
          ctx_recentMessages := recent |},
     w).
Proof.
  intros Hfetch Hidle. run_build. rewrite Hfetch. cbn [await].
  destruct recent as [|first others]; [reflexivity|].
  destruct Hidle as [Hshort | (first' & others' & Heq & Hseen)].
  - destruct (Nat.eqb_spec (length (first :: others)) 100); [contradiction|].
    reflexivity.
  - injection Heq as <- <-. unfold seenId in Hseen.
    destruct (channelCheckpoints w !! channelId) as [cp|]; [|discriminate].
    cbn in Hseen. change (default _ (Some cp)) with cp.
    rewrite Hseen. rewrite N.eqb_refl.
    cbn [negb]. rewrite andb_false_r. reflexivity.
Qed.

Lemma or_else_kept (s : string) : or_else (Some s) "" = s.
Proof.
  unfold or_else, truthy_string.
  destruct (decide (s = "")) as [-> | _]; reflexivity.
Qed.

(** X8. After a run that returned, a second run on the unchanged channel
    is idle: when the platform gives the second run the replies that it
    gave the first, the second run returns the same context, leaves the
    whole state as the first run left it, and sends nothing to the model,
    whatever the model would answer then. Nothing is said of a first run
    that failed. *)
Theorem buildContext_twice (channelId : string) (w : World) (ctx : Context)
  (fetch2 : string -> option N -> Promise (list DiscordMessage))
  (llm2 : LlmRequest -> Completion LlmMessage) :
  fst (buildContextFromDiscord fetchChannelMessages llm channelId w)
  = Normal ctx ->
  (forall before : option N,
     fetch2 channelId before = fetchChannelMessages channelId before) ->
  let w1 :=
    snd (buildContextFromDiscord fetchChannelMessages llm channelId w) in
  buildContextFromDiscord fetch2 llm2 channelId w1 = (Normal ctx, w1).
Proof.
  intros Hret Hsame. cbv zeta. revert Hret. run_build. rewrite !Hsame.
  destruct (fetchChannelMessages channelId None) as [recent | e0];
    cbn [await fst snd]; [|discriminate].
  destruct recent as [|first others];
    [intros [= <-]; cbn [fst snd]; reflexivity|].
  set (cp := default {| oldestSeenMessageId := None; summary := None |}
               (channelCheckpoints w !! channelId)).
  destruct ((length (first :: others) =? 100)%nat) eqn:Hfull; cbn [andb];
    [|intros [= <-]; cbn [fst snd]; fold cp; reflexivity].
  destruct (match oldestSeenMessageId cp with
            | Some seen => negb (dm_id (oldestOf first others) =? seen)%N
            | None => true
            end) eqn:Hneeds;
    [|intros [= <-]; cbn [fst snd]; fold cp; rewrite Hneeds; reflexivity].
  destruct (fetchChannelMessages channelId
              (Some (dm_id (oldestOf first others)))) as [older | e1] eqn:Holder;
    cbn [await fst snd]; [|discriminate].
  destruct (0 <? length older)%nat eqn:Hsome;
    [|intros [= <-]; cbn [fst snd]; fold cp; rewrite Hneeds;
      rewrite (Hsame (Some (dm_id (oldestOf first others)))), Holder;
      cbn [await]; rewrite Hsome; reflexivity].
  destruct (llm _) as [completion | e2] eqn:Hllm; cbn [fst snd];
    [|discriminate].
  intros [= <-].
  cbn [set_channelCheckpoints set_llmCalls channelCheckpoints].
  rewrite lookup_insert_eq.
  change (default _ (Some ?c)) with c. cbn [oldestSeenMessageId summary].
  rewrite N.eqb_refl. cbn [negb].
  rewrite or_else_kept. reflexivity.
Qed.
Lemma insert_by_id_perm (m : DiscordMessage) (l : list DiscordMessage) :
  insert_by_id m l ≡ₚ m :: l.
Proof.
  induction l as [|x l IH]; [reflexivity|].
  cbn [insert_by_id]. destruct (dm_id m <? dm_id x)%N; [reflexivity|].
  rewrite IH. apply Permutation_swap.
Qed.

Lemma sort_by_id_perm (l : list DiscordMessage) : sort_by_id l ≡ₚ l.
Proof.
  induction l as [|x l IH]; [reflexivity|].
  unfold sort_by_id in *. cbn [foldr]. rewrite insert_by_id_perm, IH.
  reflexivity.
Qed.

Lemma insert_by_id_sorted (m : DiscordMessage) (l : list DiscordMessage) :
  StronglySorted older_than l ->
  (forall x, x ∈ l -> dm_id x <> dm_id m) ->
  StronglySorted older_than (insert_by_id m l).
Proof.
  induction 1 as [|x l Hsorted IH Hx]; intros Hfresh; cbn [insert_by_id].
  - repeat constructor.
  - destruct (N.ltb_spec (dm_id m) (dm_id x)) as [Hlt|Hge].
    + constructor; [constructor; assumption|].
      constructor; [exact Hlt|].
      eapply Forall_impl; [exact Hx|]. unfold older_than. intros; lia.
    + assert (dm_id x <> dm_id m) by (apply Hfresh; left).
      constructor.
      * apply IH. intros y Hy. apply Hfresh. right; exact Hy.
      * rewrite insert_by_id_perm. constructor; [unfold older_than; lia|].
        exact Hx.
Qed.

Lemma sort_by_id_sorted (l : list DiscordMessage) :
  NoDup (dm_id <$> l) -> StronglySorted older_than (sort_by_id l).
Proof.
  induction l as [|x l IH]; intros Hnd; [constructor|].
  apply NoDup_cons in Hnd as [Hx Hnd].
  unfold sort_by_id in *. cbn [foldr].
  apply insert_by_id_sorted; [apply IH, Hnd|].
  intros y Hy Heq. apply Hx. rewrite <- Heq.
  apply list_elem_of_fmap_2. fold (sort_by_id l) in Hy.
  rewrite sort_by_id_perm in Hy. exact Hy.
Qed.

(** X9. The thread handed to the model for summarisation is in
    chronological order whatever the order in which the platform returned
    the page: for messages with distinct ids, the sorted page is strictly
    increasing in id, holds the same messages, and two pages that are
    permutations of each other lead to the same run of
    [summarizeMessages]. *)
Theorem summarizeMessages_order_independent (previousSummary : string)
  (msgs msgs' : list DiscordMessage) (w : World) :
  NoDup (dm_id <$> msgs) -> msgs ≡ₚ msgs' ->
  StronglySorted older_than (sort_by_id msgs) /\
  sort_by_id msgs ≡ₚ msgs /\
  summarizeMessages llm previousSummary msgs w
  = summarizeMessages llm previousSummary msgs' w.
Proof.
  intros Hnd Hperm.
  split; [apply sort_by_id_sorted, Hnd|]. split; [apply sort_by_id_perm|].
  assert (Hnd' : NoDup (dm_id <$> msgs')) by (rewrite <- Hperm; exact Hnd).
  assert (Heq : sort_by_id msgs = sort_by_id msgs').
  { apply (StronglySorted_unique_strong older_than).
    - unfold older_than. intros; lia.
    - apply sort_by_id_sorted, Hnd.
    - apply sort_by_id_sorted, Hnd'.
    - rewrite !sort_by_id_perm. exact Hperm. }
  unfold summarizeMessages. rewrite Heq. reflexivity.
Qed.
End GuildContextMore.

Section GuildContextRuns.
Import MyAgent GuildContext Props GuildFacts Samples.

(** The theorem applied to a channel that holds five messages. *)
Lemma buildContext_idle_witness :
  length (page (history 5) None) <> 100%nat /\
  buildContextFromDiscord (platform (history 5)) llm_sum "general"
    (initial [])
  = (Normal {| ctx_summary := ""; ctx_recentMessages := page (history 5) None |},
     initial []).
Proof.
  split; [vm_compute; lia|].
  apply (buildContext_idle (platform (history 5)) llm_sum "general"
           (initial []) (page (history 5) None)).
  - reflexivity.
  - left. vm_compute; lia.
Defined.

(** The theorem applied to a page returned newest first. *)
Lemma summarizeMessages_order_independent_witness :
  NoDup (dm_id <$> [mkMessage 2; mkMessage 1]) /\
  summarizeMessages llm_sum "" [mkMessage 2; mkMessage 1] (initial [])
  = summarizeMessages llm_sum "" [mkMessage 1; mkMessage 2] (initial []).
Proof.
  assert (Hnd : NoDup (dm_id <$> [mkMessage 2; mkMessage 1])).
  { apply (bool_decide_unpack _). vm_compute. exact I. }
  split; [exact Hnd|].
  apply (summarizeMessages_order_independent llm_sum ""
           [mkMessage 2; mkMessage 1] [mkMessage 1; mkMessage 2] (initial [])).
  - exact Hnd.
  - apply Permutation_swap.
Defined.

(** The theorem applied to a channel of 101 messages: the first run sets
    the boundary, the second one runs while the model is down. *)
Lemma buildContext_twice_witness :
  exists ctx : Context,
    let w1 :=
      snd (buildContextFromDiscord (platform (history 101)) llm_sum
             "general" (initial [])) in
    seenId "general" w1 = Some 2%N /\
    buildContextFromDiscord (platform (history 101)) llm_down "general" w1
    = (Normal ctx, w1).
Proof.
  eexists. cbv zeta. split; [vm_compute; reflexivity|].
  apply (buildContext_twice (platform (history 101)) llm_sum "general"
           (initial []) _ (platform (history 101)) llm_down).
  - vm_compute. reflexivity.
  - intros before. reflexivity.
Defined.
End GuildContextRuns.

(** ** More on the memory tools *)

Section MemoryToolsMore.
Import JsString MyAgent Tools StringFacts TextFacts.

Lemma hasBlock_lookup (agent : World) (i : nat) (b : MemoryBlockI) :
  blocks agent !! i = Some b -> hasBlock agent (label b) = true.
Proof.
  intros Hi. apply hasBlock_true. exists b.
  split; [eapply list_elem_of_lookup_2, Hi | reflexivity].
Qed.

Lemma memoryInsert_unknown (now : N) (agent : World)
  (params : MemoryInsertParamsT) :
  hasBlock agent (mi_label params) = false ->
  memoryInsert now params (Some agent) = (Normal "Block not found", Some agent).
Proof.
  intros Hhas. unfold memoryInsert, mbind, M_bind, Js.bind, get.
  rewrite Hhas. reflexivity.
Qed.

(** What both tools keep of a block. *)
Lemma with_value_meta (b : MemoryBlockI) (v : string) (t : N) :
  label (with_value b v t) = label b /\
  description (with_value b v t) = description b /\
  limit (with_value b v t) = limit b /\
  readOnly (with_value b v t) = readOnly b.
Proof. repeat split; reflexivity. Qed.

Lemma total_length_app (l1 l2 : list string) :
  total_length (l1 ++ l2) = (total_length l1 + total_length l2)%nat.
Proof.
  induction l1 as [|x l1 IH]; [reflexivity|].
  unfold total_length in *. cbn [app foldr]. rewrite IH. lia.
Qed.

Lemma length_join (lines : list string) :
  lines <> [] ->
  String.length (join nl lines)
  = (total_length lines + (length lines - 1))%nat.
Proof.
  induction lines as [|line rest IH]; intros Hne; [congruence|].
  destruct rest as [|line' rest].
  - cbn. lia.
  - rewrite join_cons by discriminate. rewrite !length_append, IH by discriminate.
    unfold total_length. cbn. lia.
Qed.

Lemma splice_insert_shape {A} (lines : list A) (start : Z) (item : A) :
  exists k : nat,
    (k <= length lines)%nat /\
    splice_insert lines start item = take k lines ++ item :: drop k lines /\
    (0 <= start <= Z.of_nat (length lines) -> k = Z.to_nat start) /\
    (Z.of_nat (length lines) <= start -> k = length lines) /\
    (- Z.of_nat (length lines) <= start < 0 ->
     k = Z.to_nat (Z.of_nat (length lines) + start)) /\
    (start <= - Z.of_nat (length lines) -> k = 0%nat).
Proof.
  unfold splice_insert, relativeIndex.
  set (len := Z.of_nat (length lines)).
  eexists. split; [|split; [reflexivity|]].
  - destruct (Z.ltb_spec start 0); lia.
  - destruct (Z.ltb_spec start 0); repeat split; intros; lia.
Qed.

(** X10. [memory_insert] applies neither the limit nor the read-only
    flag of a block, and it leaves the shape of the memory alone: on a
    label that exists, whatever the line number, every block keeps its
    label, description, limit and flag, blocks with another label are
    returned as they are, and the value of a block with the label grows by
    the inserted text and one line break, read-only or not, over the limit
    or not. *)
Theorem memoryInsert_unchecked (now : N) (agent : World)
  (params : MemoryInsertParamsT) :
  hasBlock agent (mi_label params) = true ->
  exists agent' : World,
    memoryInsert now params (Some agent)
    = (Normal "Successfully inserted into memory block", Some agent') /\
    length (blocks agent') = length (blocks agent) /\
    forall (i : nat) (b : MemoryBlockI),
      blocks agent !! i = Some b ->
      exists b' : MemoryBlockI,
        blocks agent' !! i = Some b' /\
        label b' = label b /\ description b' = description b /\
        limit b' = limit b /\ readOnly b' = readOnly b /\
        (label b <> mi_label params -> b' = b) /\
        (label b = mi_label params ->
         lastUpdated b' = now /\
         String.length (value b')
         = (String.length (value b) + String.length (mi_new_str params) + 1)%nat).
Proof.
  intros Hhas. eexists. split; [apply memoryInsert_known, Hhas|].
  cbn [set_blocks blocks]. split; [apply length_map|].
  intros i b Hi. rewrite list_lookup_fmap, Hi.
  cbn [fmap option_fmap option_map].
  destruct (decide (label b = mi_label params)) as [Hl|Hl].
  - eexists. split; [reflexivity|].
    repeat split; try reflexivity; try congruence.
    cbn [with_value value].
    destruct (splice_insert_shape (split newline (value b))
                (mi_insert_line params) (mi_new_str params))
      as (k & Hk & -> & _).
    rewrite length_join
      by (destruct (take k (split newline (value b))); discriminate).
    replace (String.length (value b))
      with (String.length (join nl (split newline (value b))))
      by (rewrite join_split; reflexivity).
    rewrite length_join by apply split_nonempty.
    rewrite total_length_app, length_app. cbn [length].
    change (total_length (mi_new_str params :: ?l))
      with (String.length (mi_new_str params) + total_length l)%nat.
    pose proof (total_length_app (take k (split newline (value b)))
                  (drop k (split newline (value b)))) as Ht.
    rewrite take_drop in Ht.
    pose proof (f_equal length (take_drop k (split newline (value b)))) as Hn.
    rewrite length_app in Hn.
    pose proof (split_nonempty newline (value b)) as Hne.
    destruct (split newline (value b)) as [|x l] eqn:E; [congruence|].
    cbn [length] in *. lia.
  - exists b. repeat split; try reflexivity; congruence.
Qed.
Lemma join_snoc (lines : list string) (line : string) :
  lines <> [] -> join nl (lines ++ [line]) = join nl lines +:+ nl +:+ line.
Proof.
  induction lines as [|x rest IH]; intros Hne; [congruence|].
  destruct rest as [|y rest]; [reflexivity|].
  change ((x :: y :: rest) ++ [line]) with (x :: (y :: rest) ++ [line]).
  rewrite join_cons by discriminate. rewrite IH by discriminate.
  rewrite (join_cons nl x (y :: rest)) by discriminate.
  rewrite !append_assoc3. reflexivity.
Qed.

(** X11. The line number of [memory_insert] is the index, counted from 0,
    that the new text has among the lines afterwards: for a text without
    line break and a block of n lines, line numbers 0..n put the text at
    that index, larger ones append it after the last line (the value
    becomes value, line break, text), negative ones count back from the
    end and anything at or below -n puts it first; the old lines keep
    their order around it. *)
Theorem memoryInsert_line_index (now : N) (agent : World) (i : nat)
  (b : MemoryBlockI) (text : string) (line : Z) :
  blocks agent !! i = Some b ->
  occurs newline text = false ->
  let lines := split newline (value b) in
  let n := Z.of_nat (length lines) in
  exists (agent' : World) (b' : MemoryBlockI) (k : nat),
    memoryInsert now
      {| mi_label := label b; mi_new_str := text; mi_insert_line := line |}
      (Some agent)
    = (Normal "Successfully inserted into memory block", Some agent') /\
    blocks agent' !! i = Some b' /\
    split newline (value b') = take k lines ++ text :: drop k lines /\
    (0 <= line <= n -> k = Z.to_nat line) /\
    (n <= line -> k = length lines /\ value b' = value b +:+ nl +:+ text) /\
    (- n <= line < 0 -> k = Z.to_nat (n + line)) /\
    (line <= - n -> k = 0%nat).
Proof.
  intros Hi Hclean lines n.
  destruct (splice_insert_shape lines line text)
    as (k & Hk & Hshape & Hin & Hpast & Hneg & Hfar).
  eexists. exists (with_value b (join nl (take k lines ++ text :: drop k lines)) now), k.
  split; [apply memoryInsert_known; cbn [mi_label]; eapply hasBlock_lookup, Hi|].
  cbn [set_blocks blocks mi_label mi_new_str mi_insert_line].
  split.
  { rewrite list_lookup_fmap, Hi. cbn [fmap option_fmap option_map].
    rewrite decide_True by reflexivity. fold lines. rewrite Hshape.
    reflexivity. }
  cbn [with_value value]. split.
  { apply split_join; [destruct (take k lines); discriminate|].
    pose proof (split_lines_clean (value b)) as Hall. fold lines in Hall.
    rewrite <- (take_drop k lines) in Hall.
    apply Forall_app in Hall as [Htake Hdrop].
    apply Forall_app. split; [exact Htake|].
    constructor; [exact Hclean | exact Hdrop]. }
  repeat split; try assumption.
  - apply Hpast. assumption.
  - rewrite (Hpast ltac:(assumption)).
    rewrite take_ge, drop_ge by lia.
    rewrite join_snoc by apply split_nonempty.
    subst lines. rewrite join_split. reflexivity.
Qed.

(** The theorem applied to the second line of the block "human". *)
Lemma memoryInsert_line_index_witness :
  blocks Samples.sampleAgent !! 0%nat = Some Samples.sampleBlock /\
  occurs newline "Age: ?" = false /\
  exists (agent' : World) (b' : MemoryBlockI),
    memoryInsert 7
      {| mi_label := "human"; mi_new_str := "Age: ?"; mi_insert_line := 1 |}
      (Some Samples.sampleAgent)
    = (Normal "Successfully inserted into memory block", Some agent') /\
    blocks agent' !! 0%nat = Some b'.
Proof.
  split; [reflexivity|]. split; [reflexivity|].
  destruct (memoryInsert_line_index 7 Samples.sampleAgent 0
              Samples.sampleBlock "Age: ?" 1)
    as (agent' & b' & k & Hrun & Hb & _); [reflexivity | reflexivity |].
  exists agent', b'. split; assumption.
Defined.

(** The theorem applied to a line number far past the end. *)
Lemma memoryInsert_unchecked_witness :
  hasBlock Samples.sampleAgent "human" = true /\
  exists agent' : World,
    memoryInsert 7
      {| mi_label := "human"; mi_new_str := "Age: ?"; mi_insert_line := 99 |}
      (Some Samples.sampleAgent)
    = (Normal "Successfully inserted into memory block", Some agent').
Proof.
  split; [reflexivity|].
  destruct (memoryInsert_unchecked 7 Samples.sampleAgent
              {| mi_label := "human"; mi_new_str := "Age: ?";
                 mi_insert_line := 99 |})
    as (agent' & Hrun & _); [reflexivity|].
  exists agent'. exact Hrun.
Defined.

Lemma replaceAll_from_absent (whole search new : string) :
  forall (rest : string) (pos : nat),
    includes rest search = false ->
    replaceAll_from whole search new rest pos 0 = rest.
Proof.
  induction rest as [|c rest IH]; intros pos Habs; cbn [includes] in Habs;
    apply orb_false_iff in Habs as [Hpre Hrest]; cbn [replaceAll_from];
    rewrite Hpre; [reflexivity|].
  rewrite IH by exact Hrest. reflexivity.
Qed.

(** X12. [memory_replace] with a text that does not occur in the value
    of a block reports success all the same: the value stays as it is and
    only lastUpdated moves. *)
Theorem memoryReplace_absent_text (now : N) (agent : World) (i : nat)
  (b : MemoryBlockI) (old new : string) :
  blocks agent !! i = Some b ->
  includes (value b) old = false ->
  exists agent' : World,
    memoryReplace now
      {| mr_label := label b; mr_old_str := old; mr_new_str := new |}
      (Some agent)
    = (Normal "Successfully inserted into memory block", Some agent') /\
    blocks agent' !! i = Some (with_value b (value b) now).
Proof.
  intros Hi Habs. eexists.
  split; [apply memoryReplace_known; cbn [mr_label]; eapply hasBlock_lookup, Hi|].
  cbn [set_blocks blocks mr_label mr_old_str mr_new_str].
  rewrite list_lookup_fmap, Hi. cbn [fmap option_fmap option_map].
  rewrite decide_True by reflexivity.
  unfold replaceAll. rewrite replaceAll_from_absent by exact Habs.
  reflexivity.
Qed.

(** The theorem applied to a name that the block does not hold. *)
Lemma memoryReplace_absent_text_witness :
  blocks Samples.sampleAgent !! 0%nat = Some Samples.sampleBlock /\
  includes (value Samples.sampleBlock) "Alice" = false /\
  exists agent' : World,
    memoryReplace 7
      {| mr_label := "human"; mr_old_str := "Alice"; mr_new_str := "Bob" |}
      (Some Samples.sampleAgent)
    = (Normal "Successfully inserted into memory block", Some agent').
Proof.
  split; [reflexivity|]. split; [reflexivity|].
  destruct (memoryReplace_absent_text 7 Samples.sampleAgent 0
              Samples.sampleBlock "Alice" "Bob")
    as (agent' & Hrun & _); [reflexivity | reflexivity |].
  exists agent'. exact Hrun.
Defined.
End MemoryToolsMore.

(** ** More on the search tools and the dispatcher *)

Section SearchMore.
Import MyAgent Tools Attempts.

Variable fetch : nat -> Promise Response.

Lemma retryLoop_skip (failure exhausted : string) (remaining i : nat) :
  (i < 2)%nat -> soft (fetch i) ->
  retryLoop fetch failure exhausted (S remaining) i
  = retryLoop fetch failure exhausted remaining (S i).
Proof.
  intros Hi Hsoft. cbn [retryLoop]. unfold retries, soft in *.
  destruct (fetch i) as [response | e]; cbn [await].
  - destruct (status response =? 429)%N; [reflexivity|].
    rewrite Hsoft. cbn [negb].
    destruct (Nat.leb_spec (3 - 1) i); [lia | reflexivity].
  - destruct (Nat.leb_spec (3 - 1) i); [lia | reflexivity].
Qed.

Lemma retryLoop_reach (failure exhausted : string) (i : nat) :
  (i < 3)%nat -> (forall j : nat, (j < i)%nat -> soft (fetch j)) ->
  retryLoop fetch failure exhausted 3 0
  = retryLoop fetch failure exhausted (3 - i) i.
Proof.
  intros Hi Hsoft.
  destruct i as [|[|[|i]]]; try lia; try reflexivity.
  - rewrite retryLoop_skip by (try lia; apply Hsoft; lia). reflexivity.
  - rewrite retryLoop_skip by (try lia; apply Hsoft; lia).
    rewrite retryLoop_skip by (try lia; apply Hsoft; lia). reflexivity.
Qed.

Lemma ok_not_429 (r : Response) : ok r = true -> (status r =? 429)%N = false.
Proof.
  unfold ok. intros H. apply andb_true_iff in H as [_ H].
  apply N.leb_le in H. apply N.eqb_neq. lia.
Qed.

(** X13. The retry loop of [internet_search]: failed attempts before the
    last one are passed over without a trace, the first answer that is ok
    among the three attempts is returned as its text, and nothing beyond
    the third attempt is ever looked at; when the third attempt is a 429
    the tool answers with the text "Error: Failed to search the internet"
    instead of an exception, and when it fails otherwise the promise is
    rejected with that failure. *)
Theorem internetSearch_retries (query : string) (i : nat) :
  (i < 3)%nat -> (forall j : nat, (j < i)%nat -> soft (fetch j)) ->
  (forall r : Response,
     fetch i = Fulfilled r -> ok r = true ->
     internetSearch fetch query = text r) /\
  (i = 2%nat ->
   (forall r : Response,
      fetch i = Fulfilled r -> status r = 429%N ->
      internetSearch fetch query
      = Fulfilled "Error: Failed to search the internet") /\
   (forall r : Response,
      fetch i = Fulfilled r -> ok r = false -> status r <> 429%N ->
      internetSearch fetch query
      = Rejected
          (ErrorObj ("Failed to search the internet: " +:+ statusText r))) /\
   (forall e : JsError,
      fetch i = Rejected e -> internetSearch fetch query = Rejected e)).
Proof.
  intros Hi Hsoft. unfold internetSearch, retries.
  rewrite (retryLoop_reach _ _ i Hi Hsoft). split.
  - intros r Hr Hok. destruct (3 - i)%nat as [|n] eqn:E; [lia|].
    cbn [retryLoop]. rewrite Hr. cbn [await].
    rewrite (ok_not_429 r Hok), Hok. reflexivity.
  - intros ->. cbn [Nat.sub retryLoop]. unfold retries. repeat split.
    + intros r Hr H429. rewrite Hr. cbn [await].
      rewrite H429. reflexivity.
    + intros r Hr Hbad Hne. rewrite Hr. cbn [await].
      apply N.eqb_neq in Hne. rewrite Hne, Hbad. reflexivity.
    + intros e He. rewrite He. reflexivity.
Qed.
End SearchMore.

Section DispatcherMore.
Import MyAgent Tools Attempts Samples MoreSamples.

(** The theorem applied to a service that recovers at the third attempt. *)
Lemma internetSearch_retries_witness :
  (forall j : nat, (j < 2)%nat -> soft (fetch_recovers j)) /\
  internetSearch fetch_recovers "weather in Lisbon" = Fulfilled "sunny".
Proof.
  assert (Hsoft : forall j : nat, (j < 2)%nat -> soft (fetch_recovers j)).
  { intros j Hj. unfold fetch_recovers.
    destruct (Nat.ltb_spec j 2); [reflexivity | lia]. }
  split; [exact Hsoft|].
  apply (proj1 (internetSearch_retries fetch_recovers "weather in Lisbon" 2
                  ltac:(lia) Hsoft) response_sunny); reflexivity.
Defined.

(** X14. What the dispatcher guarantees for each tool name: only the two
    memory tools can change the agent, only the two search tools can
    make its promise reject, and a name that is none of the four gives
    [undefined] without touching anything. *)
Theorem callTool_by_name (now : N) (fetch : nat -> Promise Response)
  (toolName : string) (args : Args) (slot : AgentSlot) :
  (toolName <> "memory_insert" -> toolName <> "memory_replace" ->
   snd (callTool now fetch toolName args slot) = slot) /\
  (toolName <> "internet_search" -> toolName <> "read_website" ->
   exists result : option string,
     fst (callTool now fetch toolName args slot) = Fulfilled result) /\
  (toolName <> "memory_insert" -> toolName <> "memory_replace" ->
   toolName <> "internet_search" -> toolName <> "read_website" ->
   callTool now fetch toolName args slot = (Fulfilled None, slot)).
Proof.
  unfold callTool. repeat split.
  - intros H1 H2. rewrite !decide_False by assumption.
    repeat (destruct (decide _)); reflexivity.
  - intros H3 H4.
    destruct (decide (toolName = "memory_insert")) as [E1|E1].
    { unfold tryReturn.
      destruct (memoryInsert _ _ _) as [[r|err] s']; eauto. }
    destruct (decide (toolName = "memory_replace")) as [E2|E2].
    { unfold tryReturn.
      destruct (memoryReplace _ _ _) as [[r|err] s']; eauto. }
    rewrite !decide_False by assumption. eauto.
  - intros H1 H2 H3 H4. rewrite !decide_False by assumption. reflexivity.
Qed.

(** The theorem applied to a tool name the model made up. *)
Lemma callTool_by_name_witness :
  "archival_search" <> "memory_insert" /\
  callTool 0 fetch_500 "archival_search" sampleArgs None
  = (Fulfilled None, None).
Proof.
  split; [discriminate|].
  apply (proj2 (proj2 (callTool_by_name 0 fetch_500 "archival_search"
                         sampleArgs None))); discriminate.
Defined.
End DispatcherMore.

(** ** utils.ts *)

Section UtilsFacts.
Import MyAgent Tools Utils.

Lemma fold_max_ge (blocks : list MemoryBlockI) : forall acc : N,
  (acc <= fold_left (fun a b => N.max a (lastUpdated b)) blocks acc)%N /\
  forall b, b ∈ blocks ->
    (lastUpdated b
     <= fold_left (fun a b => N.max a (lastUpdated b)) blocks acc)%N.
Proof.
  induction blocks as [|x blocks IH]; intros acc; cbn [fold_left].
  - split; [lia|]. intros b Hb. inversion Hb.
  - destruct (IH (N.max acc (lastUpdated x))) as [Hacc Hall].
    split; [lia|]. intros b Hb.
    apply elem_of_cons in Hb as [-> | Hb]; [lia | apply Hall, Hb].
Qed.

Lemma fold_max_le (blocks : list MemoryBlockI) (bound : N) : forall acc : N,
  (acc <= bound)%N ->
  (forall b, b ∈ blocks -> (lastUpdated b <= bound)%N) ->
  (fold_left (fun a b => N.max a (lastUpdated b)) blocks acc <= bound)%N.
Proof.
  induction blocks as [|x blocks IH]; intros acc Hacc Hall; cbn [fold_left];
    [exact Hacc|].
  apply IH.
  - pose proof (Hall x ltac:(left)). lia.
  - intros b Hb. apply Hall. right; exact Hb.
Qed.

(** X15. An edit shows in the prompt: after [memory_insert] or
    [memory_replace] on a label that exists, at a time that is not
    before the last update of any block, the time that the memory
    metadata reports as last modification is the time of the edit. *)
Theorem edit_sets_lastModified (now : N) (agent : World) (lbl : string)
  (text old : string) (line : Z) :
  hasBlock agent lbl = true ->
  (forall b, b ∈ blocks agent -> (lastUpdated b <= now)%N) ->
  (exists agent1 : World,
     snd (memoryInsert now
            {| mi_label := lbl; mi_new_str := text; mi_insert_line := line |}
            (Some agent)) = Some agent1 /\
     lastModified (blocks agent1) = now) /\
  (exists agent2 : World,
     snd (memoryReplace now
            {| mr_label := lbl; mr_old_str := old; mr_new_str := text |}
            (Some agent)) = Some agent2 /\
     lastModified (blocks agent2) = now).
Proof.
  intros Hhas Hclock.
  assert (Hmap : forall f : MemoryBlockI -> string,
            lastModified
              (map (fun b => if decide (label b = lbl)
                             then with_value b (f b) now else b)
                 (blocks agent)) = now).
  { intros f. unfold lastModified. apply N.le_antisymm.
    - apply fold_max_le; [lia|]. intros b' Hb'.
      apply list_elem_of_fmap in Hb' as (b & -> & Hb).
      destruct (decide (label b = lbl)); [cbn; lia | apply Hclock, Hb].
    - apply hasBlock_true in Hhas as (b & Hb & Hl).
      apply (proj2 (fold_max_ge _ 0%N) (with_value b (f b) now)).
      apply list_elem_of_fmap. exists b. split; [|exact Hb].
      rewrite decide_True by exact Hl. reflexivity. }
  split.
  - eexists. rewrite memoryInsert_known by exact Hhas. cbn [snd].
    split; [reflexivity|]. cbn [set_blocks blocks mi_label mi_new_str
      mi_insert_line]. apply (Hmap (fun b => _)).
  - eexists. rewrite memoryReplace_known by exact Hhas. cbn [snd].
    split; [reflexivity|]. cbn [set_blocks blocks mr_label mr_old_str
      mr_new_str]. apply (Hmap (fun b => _)).
Qed.

(** The theorem applied to the block "human", edited at time 7. *)
Lemma edit_sets_lastModified_witness :
  hasBlock Samples.sampleAgent "human" = true /\
  exists agent1 : World,
    snd (memoryInsert 7
           {| mi_label := "human"; mi_new_str := "Age: ?";
              mi_insert_line := 0 |}
           (Some Samples.sampleAgent)) = Some agent1 /\
    lastModified (blocks agent1) = 7%N.
Proof.
  split; [reflexivity|].
  apply (edit_sets_lastModified 7 Samples.sampleAgent "human" "Age: ?" "" 0).
  - reflexivity.
  - intros b Hb. apply list_elem_of_singleton in Hb as ->. cbn. lia.
Defined.
End UtilsFacts.

(** ** utils.ts and slack.ts: hexadecimal text and byte strings *)

Section HexFacts.
Import MyAgent Utils Slack.

Lemma hexDigitValue_lt (c : ascii) (d : N) :
  hexDigitValue c = Some d -> (d < 16)%N.
Proof.
  unfold hexDigitValue. intros H.
  repeat match type of H with
  | (if ?c then _ else _) = _ =>
      let E := fresh "E" in
      destruct c eqn:E;
      [apply andb_prop in E as [_ E]; apply N.leb_le in E|]
  end; simplify_eq; lia.
Qed.

Lemma parsePairs_shape (hex : string) : forall n : nat,
  String.length hex = (2 * n)%nat -> allHex hex = true ->
  length (parsePairs hex) = n /\
  Forall (fun b => (b < 256)%N) (parsePairs hex).
Proof.
  induction hex as [hex IH] using (well_founded_induction
    (well_founded_ltof _ String.length)).
  intros n Hlen Hall. destruct hex as [|hi [|lo rest]].
  - cbn in Hlen. assert (n = 0%nat) as -> by lia. split; [reflexivity|].
    constructor.
  - cbn in Hlen. lia.
  - cbn [String.length] in Hlen. destruct n as [|n]; [lia|].
    cbn [allHex] in Hall.
    apply andb_prop in Hall as [Hhi Hall].
    apply andb_prop in Hall as [Hlo Hall].
    apply bool_decide_eq_true in Hhi as [dhi Hhi].
    apply bool_decide_eq_true in Hlo as [dlo Hlo].
    destruct (IH rest) with (n := n) as [IHlen IHall];
      [unfold ltof; cbn; lia | lia | exact Hall |].
    cbn [parsePairs]. rewrite Hhi, Hlo. unfold default; cbn [from_option id].
    apply hexDigitValue_lt in Hhi, Hlo.
    split; [cbn [length]; rewrite IHlen; reflexivity|].
    constructor; [lia | exact IHall].
Qed.

(** X16. [hexToBytes] either throws "bad hex" or returns a buffer that
    is not empty, holds half as many bytes as the text has characters,
    and holds numbers below 256; it throws exactly when the text is
    empty, has a character that is no hexadecimal digit, or has odd
    length. *)
Theorem hexToBytes_total (hex : string) :
  (hexToBytes hex = Throw (ErrorObj "bad hex") /\
   (hex = EmptyString \/ allHex hex = false \/
    Nat.Odd (String.length hex))) \/
  (exists bytes : list N,
     hexToBytes hex = Normal bytes /\
     bytes <> [] /\
     (2 * length bytes)%nat = String.length hex /\
     Forall (fun b => (b < 256)%N) bytes /\
     hex <> EmptyString /\ allHex hex = true /\
     Nat.Even (String.length hex)).
Proof.
  unfold hexToBytes, isHex.
  destruct (decide (hex = EmptyString)) as [-> | Hne].
  { left. split; [reflexivity | left; reflexivity]. }
  rewrite bool_decide_eq_false_2 by exact Hne. cbn [negb andb].
  destruct (allHex hex) eqn:Hall; cbn [negb orb];
    [| left; split; [reflexivity | right; left; reflexivity]].
  destruct (String.length hex mod 2 =? 0)%nat eqn:Hpar; cbn [negb].
  - right. apply Nat.eqb_eq in Hpar.
    pose proof (Nat.div_mod_eq (String.length hex) 2) as Hdm.
    destruct (parsePairs_shape hex (String.length hex / 2)) as [Hlen Hbytes];
      [lia | exact Hall |].
    exists (parsePairs hex). repeat split; try assumption.
    + intros Hnil. rewrite Hnil in Hlen. cbn in Hlen.
      destruct hex; [congruence | cbn in *; lia].
    + lia.
    + exists (String.length hex / 2)%nat. lia.
  - left. split; [reflexivity|]. right; right.
    apply Nat.eqb_neq in Hpar.
    pose proof (Nat.div_mod_eq (String.length hex) 2) as Hdm.
    pose proof (Nat.mod_upper_bound (String.length hex) 2 ltac:(lia)).
    exists (String.length hex / 2)%nat. lia.
Qed.

Lemma hexDigit_value (d : N) :
  (d < 16)%N -> hexDigitValue (hexDigit d) = Some d.
Proof.
  intros Hd.
  assert (Hcases : In d (map N.of_nat (seq 0 16))).
  { apply in_map_iff. exists (N.to_nat d). split; [lia|].
    apply in_seq. lia. }
  cbn in Hcases.
  repeat (destruct Hcases as [<- | Hcases]; [reflexivity|]).
  destruct Hcases.
Qed.

Lemma padded_byte (b : N) :
  (b < 256)%N ->
  padStart2 (toString16 b)
  = String (hexDigit (b / 16)) (String (hexDigit (b mod 16)) EmptyString).
Proof.
  intros Hb. unfold toString16.
  destruct (b <? 16)%N eqn:Hlt.
  - apply N.ltb_lt in Hlt. cbn.
    rewrite N.div_small, N.mod_small by lia. reflexivity.
  - reflexivity.
Qed.

Lemma toHex_cons (b : N) (bytes : list N) :
  (b < 256)%N ->
  toHex (b :: bytes)
  = String (hexDigit (b / 16)) (String (hexDigit (b mod 16)) (toHex bytes)).
Proof.
  intros Hb. unfold toHex. cbn [foldr]. rewrite padded_byte by exact Hb.
  reflexivity.
Qed.

Lemma toHex_parse (bytes : list N) :
  Forall (fun b => (b < 256)%N) bytes ->
  allHex (toHex bytes) = true /\
  String.length (toHex bytes) = (2 * length bytes)%nat /\
  parsePairs (toHex bytes) = bytes.
Proof.
  induction 1 as [|b bytes Hb _ (IHall & IHlen & IHparse)];
    [repeat split|].
  rewrite toHex_cons by exact Hb.
  assert (Hhi : (b / 16 < 16)%N) by (apply N.Div0.div_lt_upper_bound; lia).
  assert (Hlo : (b mod 16 < 16)%N) by (apply N.mod_lt; lia).
  cbn [allHex parsePairs String.length length].
  rewrite !hexDigit_value by assumption.
  repeat split.
  - rewrite !bool_decide_eq_true_2 by eauto. exact IHall.
  - rewrite IHlen. lia.
  - unfold default; cbn [from_option id]. rewrite IHparse. f_equal.
    pose proof (N.div_mod b 16 ltac:(lia)). lia.
Qed.

(** X17. The hexadecimal text that [hmacSHA256] of slack.ts prints for a
    byte string is read back by [hexToBytes] of utils.ts as that byte
    string, when there is one byte or more; the text of no bytes is
    refused. *)
Theorem hexToBytes_reads_toHex (bytes : list N) :
  Forall (fun b => (b < 256)%N) bytes ->
  hexToBytes (toHex bytes)
  = if decide (bytes = []) then Throw (ErrorObj "bad hex") else Normal bytes.
Proof.
  intros Hbytes. destruct (toHex_parse bytes Hbytes) as (Hall & Hlen & Hparse).
  destruct (decide (bytes = [])) as [-> | Hne]; [reflexivity|].
  unfold hexToBytes, isHex. rewrite Hall, Hlen, Hparse.
  rewrite bool_decide_eq_false_2.
  - replace (2 * length bytes mod 2 =? 0)%nat with true; [reflexivity|].
    symmetry. apply Nat.eqb_eq.
    rewrite Nat.mul_comm. apply Nat.Div0.mod_mul.
  - intros Hempty. rewrite Hempty in Hlen. cbn in Hlen.
    destruct bytes; [congruence | cbn in Hlen; lia].
Qed.

(** The theorem applied to the bytes 0, 255, 26, 16. *)
Lemma hexToBytes_reads_toHex_witness :
  toHex [0; 255; 26; 16]%N = "00ff1a10" /\
  hexToBytes (toHex [0; 255; 26; 16]%N) = Normal [0; 255; 26; 16]%N.
Proof.
  split; [reflexivity|].
  apply (hexToBytes_reads_toHex [0; 255; 26; 16]%N).
  repeat constructor.
Defined.

Lemma utf8_cases (c : ascii) :
  let n := Z.of_N (N_of_ascii c) in
  (n < 128 /\ utf8 c = [n]) \/
  (128 <= n < 256 /\ utf8 c = [192 + n / 64; 128 + n mod 64]).
Proof.
  destruct c as [[] [] [] [] [] [] [] []]; cbv zeta;
    first [ left; split; [reflexivity | reflexivity]
          | right; split; [split; [discriminate | reflexivity]
                          | reflexivity] ].
Qed.

Lemma N_of_ascii_inj (c d : ascii) : N_of_ascii c = N_of_ascii d -> c = d.
Proof.
  intros H. rewrite <- (ascii_N_embedding c), <- (ascii_N_embedding d), H.
  reflexivity.
Qed.

Lemma utf8_prefix_free (c d : ascii) (r s : list Z) :
  utf8 c ++ r = utf8 d ++ s -> c = d /\ r = s.
Proof.
  pose proof (N_ascii_bounded c) as Hc.
  pose proof (N_ascii_bounded d) as Hd.
  destruct (utf8_cases c) as [[Hn ->] | [Hn ->]];
    destruct (utf8_cases d) as [[Hm ->] | [Hm ->]];
    cbn [app]; intros Heq; simplify_eq.
  - split; [|reflexivity]. apply N_of_ascii_inj. lia.
  - exfalso.
    pose proof (Z.div_pos (Z.of_N (N_of_ascii d)) 64 ltac:(lia) ltac:(lia)).
    lia.
  - exfalso.
    pose proof (Z.div_pos (Z.of_N (N_of_ascii c)) 64 ltac:(lia) ltac:(lia)).
    lia.
  - split; [|reflexivity]. apply N_of_ascii_inj.
    pose proof (Z.div_mod (Z.of_N (N_of_ascii c)) 64 ltac:(lia)).
    pose proof (Z.div_mod (Z.of_N (N_of_ascii d)) 64 ltac:(lia)).
    lia.
Qed.

Lemma encode_inj (a : string) : forall b : string,
  encode a = encode b -> a = b.
Proof.
  induction a as [|c a IH]; intros [|d b] Heq; cbn [encode] in Heq.
  - reflexivity.
  - destruct (utf8_cases d) as [[_ Hd] | [_ Hd]]; rewrite Hd in Heq;
      discriminate.
  - destruct (utf8_cases c) as [[_ Hc] | [_ Hc]]; rewrite Hc in Heq;
      discriminate.
  - apply utf8_prefix_free in Heq as [-> Heq]. f_equal. apply IH, Heq.
Qed.

Lemma accumulate_zero (A : list Z) : forall (B : list Z) (diff : Z),
  length A = length B ->
  accumulate A B diff = 0 <-> diff = 0 /\ A = B.
Proof.
  induction A as [|x A IH]; intros [|y B] diff Hlen; cbn in Hlen;
    try discriminate; cbn [accumulate].
  - split; [intros ->; split; reflexivity | intros [-> _]; reflexivity].
  - rewrite IH by lia. rewrite Z.lor_eq_0_iff, Z.lxor_eq_0_iff.
    split.
    + intros [[-> ->] ->]. split; reflexivity.
    + intros [-> Heq]. simplify_eq. repeat split.
Qed.

(** X18. [timingSafeEqual] of slack.ts answers true exactly for equal
    strings (strings of code units below 256, as the signature header
    and the printed digest are). *)
Theorem timingSafeEqual_iff (a b : string) :
  timingSafeEqual a b = true <-> a = b.
Proof.
  unfold timingSafeEqual. split.
  - destruct (length (encode a) =? length (encode b))%nat eqn:Hlen;
      cbn [negb]; [|discriminate].
    apply Nat.eqb_eq in Hlen. intros H. apply Z.eqb_eq in H.
    apply accumulate_zero in H as [_ H]; [|exact Hlen].
    apply encode_inj, H.
  - intros ->. rewrite Nat.eqb_refl. cbn [negb]. apply Z.eqb_eq.
    apply accumulate_zero; split; reflexivity.
Qed.
End HexFacts.

(** ** index.ts: the loop that answers a direct message *)

Section ChatInvariant.
Import MyAgent Tools Conversation Props Chat ChatFacts.

Variable cfg : Constants.BufferConfig.
Variable llm : LlmRequest -> Completion LlmMessage.
Variable chat : nat -> ChatRequest -> Completion LlmMessage.
Variable now : N.
Variable toolTime : nat -> N.
Variable fetch : nat -> nat -> Promise Response.
Variable randomUUID : nat -> string.
Variable JSON_parse : string -> Completion Args.
Variable system : string.
Variable CORE_MEMORY_LINE_NUMBER_WARNING : string.
Variable toDateString : N -> string.
Variable today : N.

Lemma bind_run {S A B} (m : M S A) (k : A -> M S B) (s : S) :
  (x ← m; k x) s
  = match m s with
    | (Normal a, s') => k a s'
    | (Throw e, s') => (Throw e, s')
    end.
Proof. reflexivity. Qed.

Lemma keeps_bind {A B} (P : Session -> Prop) (m : M Session A)
  (k : A -> M Session B) :
  keeps P m -> (forall a, keeps P (k a)) -> keeps P (x ← m; k x).
Proof.
  intros Hm Hk s Hs. rewrite bind_run. specialize (Hm s Hs).
  destruct (m s) as [[a | e] s']; cbn [snd] in *; [apply Hk, Hm | exact Hm].
Qed.

Lemma keeps_ret {A} (P : Session -> Prop) (a : A) : keeps P (mret a).
Proof. intros s Hs. exact Hs. Qed.

Lemma keeps_liftC {A} (P : Session -> Prop) (c : Completion A) :
  keeps P (liftC c).
Proof. intros s Hs. exact Hs. Qed.

Lemma addMessage_no_dangling (w : World) (message : MessageInput) :
  no_dangling w -> no_dangling (snd (addMessage message w)).
Proof.
  intros Hw id Hid. rewrite addMessage_result in Hid |- *.
  cbn [snd messages messageBuffer] in Hid |- *.
  apply elem_of_app in Hid as [Hid | Hid].
  - apply lookup_insert_is_Some'. right. apply Hw, Hid.
  - apply list_elem_of_singleton in Hid as ->.
    rewrite lookup_insert_eq. eauto.
Qed.

Lemma prune_no_dangling (w : World) :
  no_dangling w -> no_dangling (snd (summarizeAndPruneMessages cfg llm now w)).
Proof.
  intros Hw.
  destruct (Nat.le_gt_cases (length (messageBuffer w)) (MAX_MESSAGES cfg))
    as [Hle | Hgt].
  - rewrite (prune_noop cfg llm now w Hle). exact Hw.
  - destruct (llm (pruneRequest cfg w)) as [message | e] eqn:Hllm.
    + rewrite (prune_fires cfg llm now w message Hgt Hllm).
      intros id Hid. cbn [snd messages messageBuffer] in Hid |- *.
      apply elem_of_cons in Hid as [-> | Hid].
      * rewrite lookup_insert_eq. eauto.
      * apply slice_subseteq in Hid.
        apply lookup_insert_is_Some'. right. apply Hw, Hid.
    + rewrite (prune_throws cfg llm now w e Hgt Hllm). exact Hw.
Qed.

(** The tools read and write the memory blocks only. *)
Lemma callTool_frame (t : N) (f : nat -> Promise Response)
  (toolName : string) (args : Args) (w : World) :
  exists w' : World,
    snd (callTool t f toolName args (Some w)) = Some w' /\
    messages w' = messages w /\ messageBuffer w' = messageBuffer w /\
    channelCheckpoints w' = channelCheckpoints w /\ llmCalls w' = llmCalls w.
Proof.
  unfold callTool.
  destruct (decide (toolName = "memory_insert")) as [_|_];
    [|destruct (decide (toolName = "memory_replace")) as [_|_];
      [|destruct (decide (toolName = "internet_search")) as [_|_];
        [|destruct (decide (toolName = "read_website")) as [_|_]]]].
  - unfold tryReturn.
    destruct (hasBlock w (mi_label (insertParams args))) eqn:Hhas.
    + rewrite memoryInsert_known by exact Hhas. eexists.
      split; [reflexivity|]. repeat split.
    + rewrite memoryInsert_unknown by exact Hhas. eexists.
      split; [reflexivity|]. repeat split.
  - unfold tryReturn.
    destruct (hasBlock w (mr_label (replaceParams args))) eqn:Hhas.
    + rewrite memoryReplace_known by exact Hhas. eexists.
      split; [reflexivity|]. repeat split.
    + rewrite memoryReplace_unknown by exact Hhas. eexists.
      split; [reflexivity|]. repeat split.
  - eexists. split; [reflexivity|]. repeat split.
  - eexists. split; [reflexivity|]. repeat split.
  - eexists. split; [reflexivity|]. repeat split.
Qed.

Lemma keeps_uuid : keeps resolved (uuid randomUUID).
Proof. intros s Hs. exact Hs. Qed.

Lemma keeps_callChat (req : ChatRequest) : keeps resolved (callChat chat req).
Proof. intros s Hs. exact Hs. Qed.

Lemma keeps_addMessage (message : MessageInput) :
  keeps resolved (liftW (addMessage message)).
Proof.
  intros s Hs. unfold liftW.
  pose proof (addMessage_no_dangling (world s) message Hs) as H.
  destruct (addMessage message (world s)) as [c w]. exact H.
Qed.

Lemma keeps_prune :
  keeps resolved (liftW (summarizeAndPruneMessages cfg llm now)).
Proof.
  intros s Hs. unfold liftW.
  pose proof (prune_no_dangling (world s) Hs) as H.
  destruct (summarizeAndPruneMessages cfg llm now (world s)) as [c w].
  exact H.
Qed.

Lemma keeps_awaitTool (toolName : string) (args : Args) :
  keeps resolved (awaitTool toolTime fetch toolName args).
Proof.
  intros s Hs. unfold awaitTool.
  destruct (callTool_frame (toolTime (toolRuns s)) (fetch (toolRuns s))
              toolName args (world s)) as (w' & Hw' & Hm & Hb & _).
  destruct (callTool _ _ toolName args (Some (world s))) as [p slot].
  cbn [snd] in Hw' |- *. subst slot.
  unfold resolved. cbn [world default from_option id].
  intros id Hid. rewrite Hm. apply Hs.
  rewrite <- Hb. exact Hid.
Qed.

Lemma keeps_runTools (calls : list ToolCall) :
  keeps resolved (runTools toolTime fetch randomUUID JSON_parse calls).
Proof.
  induction calls as [|toolCall rest IH]; [apply keeps_ret|].
  cbn [runTools].
  apply keeps_bind; [apply keeps_liftC|]; intros args.
  apply keeps_bind; [apply keeps_awaitTool|]; intros response.
  apply keeps_bind; [apply keeps_uuid|]; intros id.
  apply keeps_bind; [apply keeps_addMessage|]; intros _.
  exact IH.
Qed.

Lemma keeps_chatLoop (fuel : nat) :
  keeps resolved
    (chatLoop chat toolTime fetch randomUUID JSON_parse system
       CORE_MEMORY_LINE_NUMBER_WARNING toDateString today fuel).
Proof.
  induction fuel as [|fuel IH]; [apply keeps_ret|].
  cbn [chatLoop].
  apply keeps_bind; [intros s Hs; exact Hs|]; intros w.
  apply keeps_bind;
    [intros s Hs; unfold liftW; rewrite getMessages_run; exact Hs|];
    intros messages.
  apply keeps_bind; [apply keeps_callChat|]; intros message.
  destruct (tool_calls message) as [[|toolCall rest]|].
  - apply keeps_bind; [apply keeps_uuid|]; intros id.
    apply keeps_bind; [apply keeps_addMessage|]; intros _.
    apply keeps_ret.
  - apply keeps_bind; [apply keeps_uuid|]; intros id.
    apply keeps_bind; [apply keeps_addMessage|]; intros _.
    apply keeps_bind; [apply keeps_runTools|]; intros _.
    exact IH.
  - apply keeps_bind; [apply keeps_uuid|]; intros id.
    apply keeps_bind; [apply keeps_addMessage|]; intros _.
    apply keeps_ret.
Qed.

(** X19. Whatever the model, the tools and the network do, and whether
    [doSomethingSmart] returns, rejects or is still looping, it leaves
    no id in the buffer without its row in the message table, if there
    was none before. *)
Theorem doSomethingSmart_keeps_buffer_resolved (fuel : nat)
  (userPrompt : string) (s : Session) :
  no_dangling (world s) ->
  no_dangling
    (world
       (snd (doSomethingSmart cfg llm chat now toolTime fetch randomUUID
               JSON_parse system CORE_MEMORY_LINE_NUMBER_WARNING
               toDateString today fuel userPrompt s))).
Proof.
  revert s. change (keeps resolved
    (doSomethingSmart cfg llm chat now toolTime fetch randomUUID
       JSON_parse system CORE_MEMORY_LINE_NUMBER_WARNING
       toDateString today fuel userPrompt)).
  unfold doSomethingSmart.
  apply keeps_bind; [apply keeps_uuid|]; intros id.
  apply keeps_bind; [apply keeps_addMessage|]; intros _.
  apply keeps_bind; [apply keeps_prune|]; intros _.
  apply keeps_chatLoop.
Qed.
End ChatInvariant.

Section ChatRuns.
Import MyAgent Tools Conversation Props Chat ChatFacts.

Variable cfg : Constants.BufferConfig.
Variable llm : LlmRequest -> Completion LlmMessage.
Variable chat : nat -> ChatRequest -> Completion LlmMessage.
Variable now : N.
Variable toolTime : nat -> N.
Variable fetch : nat -> nat -> Promise Response.
Variable randomUUID : nat -> string.
Variable JSON_parse : string -> Completion Args.
Variable system : string.
Variable CORE_MEMORY_LINE_NUMBER_WARNING : string.
Variable toDateString : N -> string.
Variable today : N.

(** The session after [this.addMessage({ id: crypto.randomUUID(), ... })]. *)
Lemma add_turn_run {A} (role : Role) (c : option string)
  (calls : option (list ToolCall)) (k : M Session A) (s : Session) :
  (id ← uuid randomUUID;
   liftW (addMessage
            {| mi_id := id; mi_role := role; mi_content := c;
               mi_tool_calls := calls; mi_tool_call_id := None |});; k) s
  = k {| world :=
           snd (addMessage
                  {| mi_id := randomUUID (uuids s); mi_role := role;
                     mi_content := c; mi_tool_calls := calls;
                     mi_tool_call_id := None |} (world s));
         chatCalls := chatCalls s; uuids := S (uuids s);
         toolRuns := toolRuns s |}.
Proof. reflexivity. Qed.

Lemma context_snoc (w : World) (m : MessageInput) :
  last (context (snd (addMessage m w))) = Some (message_of_input m) /\
  messageBuffer (snd (addMessage m w)) = messageBuffer w ++ [mi_id m] /\
  blocks (snd (addMessage m w)) = blocks w /\
  (mi_id m ∉ messageBuffer w ->
   context (snd (addMessage m w)) = context w ++ [message_of_input m]).
Proof.
  rewrite addMessage_result. unfold context.
  cbn [snd messages messageBuffer blocks].
  rewrite omap_app. cbn [omap list_omap]. rewrite lookup_insert_eq.
  cbn [fmap option_fmap option_map]. repeat split.
  - apply last_snoc.
  - intros Hfresh. f_equal. apply omap_ext_in. intros id Hid.
    rewrite lookup_insert_ne; [reflexivity|].
    intros Heq. apply Hfresh. rewrite Heq. exact Hid.
Qed.

(** One pass of the loop. *)
Lemma loop_step (fuel : nat) (s : Session) :
  (chatLoop chat toolTime fetch randomUUID JSON_parse system
     CORE_MEMORY_LINE_NUMBER_WARNING toDateString today (S fuel)) s
  = let req :=
      {| cr_system := (system +:+
       Utils.compile CORE_MEMORY_LINE_NUMBER_WARNING toDateString today
         (blocks (world s)));
         cr_messages := context (world s) |} in
    let s1 :=
      {| world := world s; chatCalls := chatCalls s ++ [req];
         uuids := uuids s; toolRuns := toolRuns s |} in
    match chat (length (chatCalls s)) req with
    | Throw e => (Throw e, s1)
    | Normal message =>
        match tool_calls message with
        | Some (toolCall :: rest) =>
            (runTools toolTime fetch randomUUID JSON_parse
               (toolCall :: rest);;
             (chatLoop chat toolTime fetch randomUUID JSON_parse system
     CORE_MEMORY_LINE_NUMBER_WARNING toDateString today fuel))
              {| world :=
                   snd (addMessage
                          {| mi_id := randomUUID (uuids s);
                             mi_role := RoleAssistant; mi_content := None;
                             mi_tool_calls := Some (toolCall :: rest);
                             mi_tool_call_id := None |} (world s));
                 chatCalls := chatCalls s ++ [req]; uuids := S (uuids s);
                 toolRuns := toolRuns s |}
        | _ =>
            (Normal (Some (content message)),
             {| world :=
                  snd (addMessage
                         {| mi_id := randomUUID (uuids s);
                            mi_role := RoleAssistant;
                            mi_content := stored (content message);
                            mi_tool_calls := None;
                            mi_tool_call_id := None |} (world s));
                chatCalls := chatCalls s ++ [req]; uuids := S (uuids s);
                toolRuns := toolRuns s |})
        end
    end.
Proof.
  cbv zeta. destruct s as [w calls u t]. cbn [chatLoop].
  rewrite bind_run. cbn [liftW get]. unfold set_world.
  cbn [world chatCalls uuids toolRuns].
  rewrite bind_run. unfold liftW. cbn [world]. rewrite getMessages_run.
  unfold set_world. cbn [world chatCalls uuids toolRuns]. rewrite bind_run.
  unfold callChat at 1. cbn [chatCalls world uuids toolRuns].
  fold (context w).
  destruct (chat (length calls) _) as [message | e]; [|reflexivity].
  destruct (tool_calls message) as [[|toolCall rest]|]; reflexivity.
Qed.

(** The steps before the loop, when the buffer is short of its bound. *)
Lemma run_start (fuel : nat) (userPrompt : string) (s : Session) :
  (length (messageBuffer (world s)) < MAX_MESSAGES cfg)%nat ->
  (doSomethingSmart cfg llm chat now toolTime fetch randomUUID JSON_parse
     system CORE_MEMORY_LINE_NUMBER_WARNING toDateString today fuel userPrompt) s
  = (chatLoop chat toolTime fetch randomUUID JSON_parse system
     CORE_MEMORY_LINE_NUMBER_WARNING toDateString today fuel)
      {| world :=
           snd (addMessage
                  {| mi_id := randomUUID (uuids s); mi_role := RoleUser;
                     mi_content := Some userPrompt; mi_tool_calls := None;
                     mi_tool_call_id := None |} (world s));
         chatCalls := chatCalls s; uuids := S (uuids s);
         toolRuns := toolRuns s |}.
Proof.
  intros Hlen. unfold doSomethingSmart. rewrite add_turn_run.
  rewrite bind_run. unfold liftW. cbn [world].
  rewrite prune_noop.
  - reflexivity.
  - rewrite addMessage_result. cbn [snd messageBuffer].
    rewrite length_app. cbn [length]. lia.
Qed.

(** X20. When the model cannot be reached and no pruning is due,
    [doSomethingSmart] rejects with the error of the request, and the
    turn of the user stays stored as the last turn of the history: the
    failed request is not undone. *)
Theorem model_failure_keeps_user_turn (fuel : nat) (userPrompt : string)
  (s : Session) (e : JsError) :
  (length (messageBuffer (world s)) < MAX_MESSAGES cfg)%nat ->
  (forall req, chat (length (chatCalls s)) req = Throw e) ->
  exists s' : Session,
    doSomethingSmart cfg llm chat now toolTime fetch randomUUID JSON_parse
      system CORE_MEMORY_LINE_NUMBER_WARNING toDateString today
      (S fuel) userPrompt s = (Throw e, s') /\
    messageBuffer (world s')
    = messageBuffer (world s) ++ [randomUUID (uuids s)] /\
    last (context (world s')) = Some (userTurn userPrompt) /\
    length (chatCalls s') = S (length (chatCalls s)).
Proof.
  intros Hlen Hchat. rewrite run_start by exact Hlen.
  rewrite loop_step. cbv zeta. cbn [chatCalls world uuids toolRuns].
  rewrite Hchat. eexists. split; [reflexivity|].
  cbn [world chatCalls].
  destruct (context_snoc (world s)
              {| mi_id := randomUUID (uuids s); mi_role := RoleUser;
                 mi_content := Some userPrompt; mi_tool_calls := None;
                 mi_tool_call_id := None |}) as (Hlast & Hbuf & _).
  split; [exact Hbuf|]. split; [exact Hlast|].
  rewrite length_app. cbn [length]. lia.
Qed.

(** X21. A search that fails leaves the history open: when the model
    asks for [internet_search] first and the promise of the tool is
    rejected, [doSomethingSmart] rejects with that error after it has
    stored the turn of the assistant that holds the tool calls, and no
    tool turn answers it. *)
Theorem failed_search_leaves_open_tool_call (fuel : nat)
  (userPrompt : string) (s : Session) (message : LlmMessage)
  (toolCall : ToolCall) (rest : list ToolCall) (args : Args) (e : JsError) :
  (length (messageBuffer (world s)) < MAX_MESSAGES cfg)%nat ->
  (forall req, chat (length (chatCalls s)) req = Normal message) ->
  tool_calls message = Some (toolCall :: rest) ->
  tc_name toolCall = "internet_search" ->
  JSON_parse (tc_arguments toolCall) = Normal args ->
  internetSearch (fetch (toolRuns s)) (arg_query args) = Rejected e ->
  exists s' : Session,
    doSomethingSmart cfg llm chat now toolTime fetch randomUUID JSON_parse
      system CORE_MEMORY_LINE_NUMBER_WARNING toDateString today
      (S fuel) userPrompt s = (Throw e, s') /\
    messageBuffer (world s')
    = messageBuffer (world s)
      ++ [randomUUID (uuids s); randomUUID (S (uuids s))] /\
    last (context (world s')) = Some (toolCallTurn (toolCall :: rest)).
Proof.
  intros Hlen Hchat Hcalls Hname Hparse Hsearch.
  rewrite run_start by exact Hlen.
  rewrite loop_step. cbv zeta. cbn [chatCalls world uuids toolRuns].
  rewrite Hchat, Hcalls.
  rewrite bind_run. cbn [runTools]. rewrite bind_run.
  unfold liftC at 1. rewrite Hparse. rewrite bind_run.
  unfold awaitTool at 1. cbn [world toolRuns chatCalls uuids].
  rewrite Hname.
  match goal with
  | |- context [callTool ?t ?f "internet_search" args ?slot] =>
      pose proof (callTool_search_unguarded t f args slot) as Hfst;
      destruct (callTool t f "internet_search" args slot) as [p slot']
        eqn:Hcall
  end.
  cbn [fst] in Hfst. rewrite Hsearch in Hfst. subst p. cbn [await].
  assert (Hslot : slot' = Some
            (snd (addMessage
                    {| mi_id := randomUUID (S (uuids s));
                       mi_role := RoleAssistant; mi_content := None;
                       mi_tool_calls := Some (toolCall :: rest);
                       mi_tool_call_id := None |}
                    (snd (addMessage
                            {| mi_id := randomUUID (uuids s);
                               mi_role := RoleUser;
                               mi_content := Some userPrompt;
                               mi_tool_calls := None;
                               mi_tool_call_id := None |} (world s)))))).
  { unfold callTool in Hcall. cbn [decide] in Hcall.
    rewrite decide_False in Hcall by discriminate.
    rewrite decide_False in Hcall by discriminate.
    rewrite decide_True in Hcall by reflexivity.
    unfold returnPromise in Hcall. congruence. }
  subst slot'. eexists. split; [reflexivity|].
  cbn [world default from_option id].
  match goal with
  | |- context [addMessage ?m2 (snd (addMessage ?m1 ?w))] =>
      destruct (context_snoc (snd (addMessage m1 w)) m2)
        as (Hlast & Hbuf & _);
      destruct (context_snoc w m1) as (_ & Hbuf1 & _)
  end.
  split; [|exact Hlast].
  rewrite Hbuf, Hbuf1. cbn [mi_id]. rewrite <- app_assoc. reflexivity.
Qed.

(** A tool that does not go to the network fulfils its promise. *)
Lemma callTool_quiet (t : N) (f : nat -> Promise Response)
  (toolName : string) (args : Args) (slot : AgentSlot) :
  toolName <> "internet_search" -> toolName <> "read_website" ->
  exists response : option string,
    fst (callTool t f toolName args slot) = Fulfilled response.
Proof.
  intros Hs Hr.
  destruct (decide (toolName = "memory_insert")) as [Hi | Hi].
  { destruct (callTool_memory_fulfilled t f toolName args slot) as [r Hr'];
      [left; exact Hi | eauto]. }
  destruct (decide (toolName = "memory_replace")) as [Hp | Hp].
  { destruct (callTool_memory_fulfilled t f toolName args slot) as [r Hr'];
      [right; exact Hp | eauto]. }
  unfold callTool. rewrite !decide_False by assumption.
  eexists. reflexivity.
Qed.

Lemma runTools_quiet (calls : list ToolCall) : forall s : Session,
  Forall (quiet JSON_parse) calls ->
  exists s' : Session,
    runTools toolTime fetch randomUUID JSON_parse calls s = (Normal tt, s') /\
    chatCalls s' = chatCalls s /\
    llmCalls (world s') = llmCalls (world s).
Proof.
  induction calls as [|toolCall rest IH]; intros s Hquiet.
  - eexists. split; [reflexivity|]. split; reflexivity.
  - inversion Hquiet as [|? ? [[args Hparse] [Hs Hr]] Hrest]; subst.
    cbn [runTools]. rewrite bind_run. unfold liftC at 1. rewrite Hparse.
    rewrite bind_run. unfold awaitTool at 1.
    destruct (callTool_quiet (toolTime (toolRuns s)) (fetch (toolRuns s))
                (tc_name toolCall) args (Some (world s)) Hs Hr)
      as [response Hresponse].
    destruct (callTool_frame (toolTime (toolRuns s)) (fetch (toolRuns s))
                (tc_name toolCall) args (world s))
      as (w1 & Hslot & _ & _ & _ & Hllm1).
    destruct (callTool _ _ (tc_name toolCall) args (Some (world s)))
      as [p slot].
    cbn [fst] in Hresponse. cbn [snd] in Hslot. subst p slot. cbn [await].
    rewrite bind_run. unfold uuid at 1.
    cbn [world chatCalls uuids toolRuns default from_option id].
    rewrite bind_run. unfold liftW at 1. cbn [world].
    rewrite addMessage_result. unfold set_world.
    cbn [world chatCalls uuids toolRuns].
    match goal with
    | |- context [runTools _ _ _ _ rest ?s1] =>
        destruct (IH s1 Hrest) as (s' & Hrun & Hcalls & Hllm)
    end.
    exists s'. split; [exact Hrun|]. split; [exact Hcalls|].
    rewrite Hllm. cbn [world llmCalls]. exact Hllm1.
Qed.

Lemma loop_unbounded (fuel : nat) : forall s : Session,
  (forall n req, exists message toolCall rest,
     chat n req = Normal message /\
     tool_calls message = Some (toolCall :: rest) /\
     Forall (quiet JSON_parse) (toolCall :: rest)) ->
  exists s' : Session,
    chatLoop chat toolTime fetch randomUUID JSON_parse system
      CORE_MEMORY_LINE_NUMBER_WARNING toDateString today fuel s
    = (Normal None, s') /\
    length (chatCalls s') = (length (chatCalls s) + fuel)%nat /\
    llmCalls (world s') = llmCalls (world s).
Proof.
  induction fuel as [|fuel IH]; intros s Hchat.
  - exists s. split; [reflexivity|]. split; [lia | reflexivity].
  - rewrite loop_step. cbv zeta.
    match goal with
    | |- context [chat ?n ?req] =>
        destruct (Hchat n req)
          as (message & toolCall & rest & -> & -> & Hquiet)
    end.
    rewrite bind_run.
    match goal with
    | |- context [runTools _ _ _ _ _ ?s1] =>
        destruct (runTools_quiet (toolCall :: rest) s1 Hquiet)
          as (s2 & -> & Hcalls & Hllm2)
    end.
    destruct (IH s2 Hchat) as (s' & Hrun & Hlen & Hllm).
    exists s'. split; [exact Hrun|]. split.
    + rewrite Hlen, Hcalls. cbn [chatCalls]. rewrite length_app.
      cbn [length]. lia.
    + rewrite Hllm, Hllm2. cbn [world]. rewrite addMessage_result.
      reflexivity.
Qed.

(** X22. The loop has no bound of its own: with a model that asks for
    tools in every answer (tools that do not go to the network, with
    arguments that parse) and a summary model that answers,
    [doSomethingSmart] is still running after any number n of passes. By
    then the loop has sent n requests to the model, one per pass, and the
    prune step before the loop has sent one summarisation request more
    if the buffer with the turn of the user was longer than
    MAX_MESSAGES, and none otherwise. *)
Theorem tool_loop_has_no_bound (fuel : nat) (userPrompt : string)
  (s : Session) :
  (forall req, exists summary, llm req = Normal summary) ->
  (forall n req, exists message toolCall rest,
     chat n req = Normal message /\
     tool_calls message = Some (toolCall :: rest) /\
     Forall (quiet JSON_parse) (toolCall :: rest)) ->
  exists s' : Session,
    doSomethingSmart cfg llm chat now toolTime fetch randomUUID JSON_parse
      system CORE_MEMORY_LINE_NUMBER_WARNING toDateString today
      fuel userPrompt s = (Normal None, s') /\
    length (chatCalls s') = (length (chatCalls s) + fuel)%nat /\
    length (llmCalls (world s'))
    = (length (llmCalls (world s))
       + if (MAX_MESSAGES cfg <? S (length (messageBuffer (world s))))%nat
         then 1 else 0)%nat.
Proof.
  intros Hllm Hchat. unfold doSomethingSmart. rewrite add_turn_run.
  rewrite bind_run. unfold liftW at 1. cbn [world].
  match goal with
  | |- context [summarizeAndPruneMessages cfg llm now ?w] => set (w1 := w)
  end.
  assert (Hw1 : length (messageBuffer w1)
                = S (length (messageBuffer (world s))) /\
                llmCalls w1 = llmCalls (world s)).
  { subst w1. rewrite addMessage_result. cbn [snd messageBuffer llmCalls].
    rewrite length_app. cbn [length]. split; [lia | reflexivity]. }
  destruct Hw1 as [Hlen1 Hllm1].
  assert (Hprune : exists w',
            summarizeAndPruneMessages cfg llm now w1 = (Normal tt, w') /\
            length (llmCalls w')
            = (length (llmCalls w1)
               + if (MAX_MESSAGES cfg <? length (messageBuffer w1))%nat
                 then 1 else 0)%nat).
  { destruct (Nat.ltb_spec (MAX_MESSAGES cfg) (length (messageBuffer w1)))
      as [Hgt | Hle].
    - destruct (Hllm (pruneRequest cfg w1)) as [summary Hsummary].
      rewrite (prune_fires cfg llm now w1 summary Hgt Hsummary).
      eexists. split; [reflexivity|]. cbn [llmCalls].
      rewrite length_app. reflexivity.
    - rewrite (prune_noop cfg llm now w1 Hle).
      eexists. split; [reflexivity | lia]. }
  destruct Hprune as (w' & -> & Hcount). unfold set_world.
  cbn [world chatCalls uuids toolRuns].
  match goal with
  | |- context [chatLoop _ _ _ _ _ _ _ _ _ fuel ?s1] =>
      destruct (loop_unbounded fuel s1 Hchat) as (s' & Hrun & Hlen & Hsame)
  end.
  exists s'. split; [exact Hrun|]. split; [exact Hlen|].
  rewrite Hsame. cbn [world]. rewrite Hcount, Hlen1, Hllm1. reflexivity.
Qed.

(** X23. The plain exchange: when no pruning is due, the ids drawn are
    new, and the model answers without tool calls, [doSomethingSmart]
    returns the content of the answer after one request. The request
    carried the system text followed by the compiled memory, and the
    history followed by the turn of the user; the history then ends with
    that turn and the answer, and the memory blocks are untouched. *)
Theorem plain_answer (fuel : nat) (userPrompt : string) (s : Session)
  (message : LlmMessage) :
  (length (messageBuffer (world s)) < MAX_MESSAGES cfg)%nat ->
  (randomUUID (uuids s) ∉ messageBuffer (world s)) ->
  (randomUUID (S (uuids s)) ∉ messageBuffer (world s)) ->
  randomUUID (S (uuids s)) <> randomUUID (uuids s) ->
  chat (length (chatCalls s))
    {| cr_system :=
         system +:+
         Utils.compile CORE_MEMORY_LINE_NUMBER_WARNING toDateString today
           (blocks (world s));
       cr_messages := context (world s) ++ [userTurn userPrompt] |}
  = Normal message ->
  tool_calls message = None \/ tool_calls message = Some [] ->
  exists s' : Session,
    doSomethingSmart cfg llm chat now toolTime fetch randomUUID JSON_parse
      system CORE_MEMORY_LINE_NUMBER_WARNING toDateString today
      (S fuel) userPrompt s = (Normal (Some (content message)), s') /\
    chatCalls s'
    = chatCalls s
      ++ [{| cr_system :=
               system +:+
               Utils.compile CORE_MEMORY_LINE_NUMBER_WARNING toDateString
                 today (blocks (world s));
             cr_messages := context (world s) ++ [userTurn userPrompt] |}] /\
    context (world s')
    = context (world s)
      ++ [userTurn userPrompt; answerTurn (content message)] /\
    blocks (world s') = blocks (world s).
Proof.
  intros Hlen Hfresh0 Hfresh1 Hne Hchat Hcalls.
  rewrite run_start by exact Hlen.
  rewrite loop_step. cbv zeta. cbn [chatCalls world uuids toolRuns].
  match goal with
  | |- context [addMessage ?m1 (world s)] =>
      destruct (context_snoc (world s) m1) as (_ & Hbuf1 & Hblocks1 & Hctx1);
      specialize (Hctx1 Hfresh0)
  end.
  cbn [mi_id] in Hbuf1.
  rewrite Hblocks1, Hctx1.
  change (message_of_input _) with (userTurn userPrompt).
  rewrite Hchat.
  destruct (context_snoc
              (snd (addMessage
                      {| mi_id := randomUUID (uuids s); mi_role := RoleUser;
                         mi_content := Some userPrompt;
                         mi_tool_calls := None; mi_tool_call_id := None |}
                      (world s)))
              {| mi_id := randomUUID (S (uuids s));
                 mi_role := RoleAssistant;
                 mi_content := stored (content message);
                 mi_tool_calls := None; mi_tool_call_id := None |})
    as (_ & _ & Hblocks2 & Hctx2).
  cbn [mi_id] in Hctx2. rewrite Hbuf1 in Hctx2.
  assert (Hfresh : randomUUID (S (uuids s))
                   ∉ messageBuffer (world s) ++ [randomUUID (uuids s)]).
  { intros Hin. apply elem_of_app in Hin as [Hin | Hin];
      [exact (Hfresh1 Hin)|].
    apply list_elem_of_singleton in Hin. exact (Hne Hin). }
  specialize (Hctx2 Hfresh). rewrite Hctx1 in Hctx2.
  rewrite <- app_assoc in Hctx2.
  destruct Hcalls as [-> | ->]; eexists;
    (split; [reflexivity|]); cbn [chatCalls world];
    (split; [reflexivity|]);
    (split; [exact Hctx2 | rewrite Hblocks2; exact Hblocks1]).
Qed.
End ChatRuns.

Section ChatWitnesses.
Import MyAgent Tools Conversation Props Chat ChatFacts ChatSamples Samples.

(** The invariant on a first message that makes the model ask for
    [memory_insert] three times. *)
Lemma doSomethingSmart_keeps_buffer_resolved_witness :
  no_dangling (world session0) /\
  no_dangling
    (world
       (snd (doSomethingSmart MESSAGE_BUFFER_CONFIG llm_ok chat_insert 0
               (fun _ => 7%N) fetch_down uuid_of parse_any "Be kind." ""
               date_of 9 3 "hello" session0))).
Proof.
  assert (H0 : no_dangling (world session0))
    by (intros id Hid; inversion Hid).
  split; [exact H0|].
  apply (doSomethingSmart_keeps_buffer_resolved MESSAGE_BUFFER_CONFIG llm_ok
           chat_insert 0 (fun _ => 7%N) fetch_down uuid_of parse_any
           "Be kind." "" date_of 9 3 "hello" session0 H0).
Defined.

(** The theorem applied to a first message while the model is down. *)
Lemma model_failure_keeps_user_turn_witness :
  (length (messageBuffer (world session0))
   < MAX_MESSAGES MESSAGE_BUFFER_CONFIG)%nat /\
  exists s' : Session,
    doSomethingSmart MESSAGE_BUFFER_CONFIG llm_ok chat_down 0
      (fun _ => 7%N) fetch_down uuid_of parse_any "Be kind." ""
      date_of 9 1 "hello" session0
    = (Throw (ErrorObj "fetch failed"), s') /\
    last (context (world s')) = Some (userTurn "hello").
Proof.
  assert (Hlen : (length (messageBuffer (world session0))
                  < MAX_MESSAGES MESSAGE_BUFFER_CONFIG)%nat)
    by (vm_compute; lia).
  split; [exact Hlen|].
  destruct (model_failure_keeps_user_turn MESSAGE_BUFFER_CONFIG llm_ok
              chat_down 0 (fun _ => 7%N) fetch_down uuid_of parse_any
              "Be kind." "" date_of 9 0 "hello" session0
              (ErrorObj "fetch failed") Hlen)
    as (s' & Hrun & _ & Hlast & _); [reflexivity|].
  exists s'. split; [exact Hrun | exact Hlast].
Defined.

(** The theorem applied to a search that is answered 500 three times. *)
Lemma failed_search_leaves_open_tool_call_witness :
  internetSearch (fetch_down 0) (arg_query sampleArgs)
  = Rejected
      (ErrorObj "Failed to search the internet: Internal Server Error") /\
  exists s' : Session,
    doSomethingSmart MESSAGE_BUFFER_CONFIG llm_ok chat_search 0
      (fun _ => 7%N) fetch_down uuid_of parse_any "Be kind." ""
      date_of 9 1 "weather?" session0
    = (Throw
         (ErrorObj "Failed to search the internet: Internal Server Error"),
       s') /\
    last (context (world s')) = Some (toolCallTurn [searchCall]).
Proof.
  assert (Hsearch : internetSearch (fetch_down 0) (arg_query sampleArgs)
            = Rejected
                (ErrorObj
                   "Failed to search the internet: Internal Server Error"))
    by reflexivity.
  split; [exact Hsearch|].
  destruct (failed_search_leaves_open_tool_call MESSAGE_BUFFER_CONFIG llm_ok
              chat_search 0 (fun _ => 7%N) fetch_down uuid_of parse_any
              "Be kind." "" date_of 9 0 "weather?" session0
              {| content := ContentNull; tool_calls := Some [searchCall] |}
              searchCall [] sampleArgs
              (ErrorObj
                 "Failed to search the internet: Internal Server Error"))
    as (s' & Hrun & _ & Hlast).
  - vm_compute; lia.
  - reflexivity.
  - reflexivity.
  - reflexivity.
  - reflexivity.
  - exact Hsearch.
  - exists s'. split; [exact Hrun | exact Hlast].
Defined.

(** The theorem applied to a model that asks for [memory_insert] in
    every answer, on a buffer of 50 ids: three passes, three requests of
    the loop and one summarisation request, no return. *)
Lemma tool_loop_has_no_bound_witness :
  exists s' : Session,
    doSomethingSmart MESSAGE_BUFFER_CONFIG llm_ok chat_insert 0
      (fun _ => 7%N) fetch_down uuid_of parse_any "Be kind." ""
      date_of 9 3 "hello" session50 = (Normal None, s') /\
    length (chatCalls s') = 3%nat /\
    length (llmCalls (world s')) = 1%nat.
Proof.
  apply (tool_loop_has_no_bound MESSAGE_BUFFER_CONFIG llm_ok chat_insert 0
           (fun _ => 7%N) fetch_down uuid_of parse_any "Be kind." ""
           date_of 9 3 "hello" session50).
  - intros req. eexists. reflexivity.
  - intros n req. eexists. exists insertCall, [].
    split; [reflexivity|]. split; [reflexivity|].
    constructor; [|constructor].
    split; [exists sampleArgs; reflexivity|].
    split; discriminate.
Defined.

(** The theorem applied to a first message that the model answers. *)
Lemma plain_answer_witness :
  (uuid_of 1 <> uuid_of 0) /\
  exists s' : Session,
    doSomethingSmart MESSAGE_BUFFER_CONFIG llm_ok chat_plain 0
      (fun _ => 7%N) fetch_down uuid_of parse_any "Be kind." ""
      date_of 9 1 "hello" session0
    = (Normal (Some (ContentString "hi")), s') /\
    context (world s')
    = [userTurn "hello"; answerTurn (ContentString "hi")].
Proof.
  assert (Hne : uuid_of 1 <> uuid_of 0) by (vm_compute; discriminate).
  split; [exact Hne|].
  destruct (plain_answer MESSAGE_BUFFER_CONFIG llm_ok chat_plain 0
              (fun _ => 7%N) fetch_down uuid_of parse_any "Be kind." ""
              date_of 9 0 "hello" session0
              {| content := ContentString "hi"; tool_calls := None |})
    as (s' & Hrun & _ & Hctx & _).
  - vm_compute; lia.
  - apply not_elem_of_nil.
  - apply not_elem_of_nil.
  - exact Hne.
  - reflexivity.
  - left; reflexivity.
  - exists s'. split; [exact Hrun | exact Hctx].
Defined.
End ChatWitnesses.

(** ** utils.ts and discord/agent.ts: requests to the Discord API *)

Section RestApi.
Import MyAgent Tools JsString StringFacts DiscordAgent Chat Rest RestFacts.

Variable server : nat -> Request -> Promise Response.
Variable retry_after : Response -> Completion Z.
Variable json_id : Response -> Completion (option string).

Lemma discordFetch_run (req : Request) (d : Discord) :
  discordFetch server retry_after req d
  = match server (length (sent d)) req with
    | Rejected e => (Throw e, set_sent (fun l => l ++ [req]) d)
    | Fulfilled r =>
        if (status r =? 429)%N then
          match retry_after r with
          | Normal _ =>
              (await (server (S (length (sent d))) req),
               set_sent (fun l => l ++ [req; req]) d)
          | Throw e => (Throw e, set_sent (fun l => l ++ [req]) d)
          end
        else (Normal r, set_sent (fun l => l ++ [req]) d)
    end.
Proof.
  unfold discordFetch. rewrite bind_run. unfold fetch at 1.
  destruct (server (length (sent d)) req) as [r | e]; cbn [await];
    [|reflexivity].
  destruct (status r =? 429)%N; cbn [negb]; [|reflexivity].
  rewrite bind_run. unfold liftC at 1.
  destruct (retry_after r) as [ms | e]; [|reflexivity].
  unfold fetch, set_sent. cbn [sent userId dmChannel errors].
  rewrite length_app, <- app_assoc. cbn [length app].
  replace (length (sent d) + 1)%nat with (S (length (sent d))) by lia.
  reflexivity.
Qed.

(** What a call of [discordFetch] leaves behind. *)
Lemma discordFetch_trace (req : Request) (d : Discord) :
  exists new : list Request,
    snd (discordFetch server retry_after req d)
    = set_sent (fun l => l ++ new) d /\
    (new = [req] \/ new = [req; req]).
Proof.
  rewrite discordFetch_run.
  destruct (server (length (sent d)) req) as [r | e]; [|eauto].
  destruct (status r =? 429)%N; [|eauto].
  destruct (retry_after r); eauto.
Qed.

(** X24. [discordFetch] sends the request once, or twice when the first
    answer is 429, and never more often: the second answer is handed to
    the caller as it is, also when it is 429 again or a failure of the
    network. *)
Theorem discordFetch_retries_once (req : Request) (d : Discord) :
  (exists new : list Request,
     sent (snd (discordFetch server retry_after req d)) = sent d ++ new /\
     (new = [req] \/ new = [req; req])) /\
  (forall (r : Response) (ms : Z),
     server (length (sent d)) req = Fulfilled r ->
     status r = 429%N -> retry_after r = Normal ms ->
     discordFetch server retry_after req d
     = (await (server (S (length (sent d))) req),
        set_sent (fun l => l ++ [req; req]) d)) /\
  (forall r : Response,
     server (length (sent d)) req = Fulfilled r ->
     status r <> 429%N ->
     discordFetch server retry_after req d
     = (Normal r, set_sent (fun l => l ++ [req]) d)).
Proof.
  split; [|split].
  - destruct (discordFetch_trace req d) as (new & -> & Hnew).
    exists new. split; [reflexivity | exact Hnew].
  - intros r ms Hr H429 Hms. rewrite discordFetch_run, Hr, H429, Hms.
    reflexivity.
  - intros r Hr H429. rewrite discordFetch_run, Hr.
    destruct (N.eqb_spec (status r) 429); [contradiction | reflexivity].
Qed.

Lemma splitMessage_total (text : string) :
  exists chunks : list string,
    splitMessageByNewline text 2000 = Some chunks /\
    Forall (short 2000) chunks.
Proof.
  unfold splitMessageByNewline.
  destruct (Nat.leb_spec (String.length text) 2000) as [Hle | Hgt].
  - eexists. split; [reflexivity|]. constructor; [exact Hle | constructor].
  - apply splitLoop_total; [lia | constructor].
Qed.

Lemma chunksOf_fit (text : string) : Forall (short 2000) (chunksOf text).
Proof.
  unfold chunksOf. destruct (splitMessage_total text) as (chunks & -> & H).
  exact H.
Qed.

Lemma sendChannelMessage_trace (channelId : option string) (msg : string)
  (d : Discord) :
  exists (new : list Request) (logged : list (N * string)),
    snd (sendChannelMessage server retry_after channelId msg d)
    = set_errors (fun l => l ++ logged) (set_sent (fun l => l ++ new) d) /\
    Forall (fun r => body r = MessageBody msg) new.
Proof.
  unfold sendChannelMessage. rewrite bind_run.
  match goal with
  | |- context [discordFetch server retry_after ?req d] =>
      destruct (discordFetch_trace req d) as (new & Hd & Hnew);
      destruct (discordFetch server retry_after req d) as [[res | e] d']
  end; cbn [snd] in Hd; subst d'.
  - exists new.
    assert (Hbodies : Forall (fun r => body r = MessageBody msg) new)
      by (destruct Hnew as [-> | ->]; repeat constructor).
    destruct (ok res); cbn [negb].
    + exists []. split; [|exact Hbodies].
      unfold set_errors, set_sent. cbn. rewrite app_nil_r. reflexivity.
    + rewrite bind_run. unfold liftC at 1.
      destruct (await (text res)) as [t | e].
      * exists [(status res, t)]. split; [reflexivity | exact Hbodies].
      * exists []. split; [|exact Hbodies].
        unfold set_errors, set_sent. cbn. rewrite app_nil_r. reflexivity.
  - exists new, []. split.
    + unfold set_errors, set_sent. cbn. rewrite app_nil_r. reflexivity.
    + destruct Hnew as [-> | ->]; repeat constructor.
Qed.

Lemma sendChunks_trace (channelId : option string) (chunks : list string) :
  forall d : Discord,
    Forall (short 2000) chunks ->
    exists (new : list Request) (logged : list (N * string)),
      snd (sendChunks server retry_after channelId chunks d)
      = set_errors (fun l => l ++ logged) (set_sent (fun l => l ++ new) d) /\
      Forall fits new.
Proof.
  induction chunks as [|chunk rest IH]; intros d Hfit.
  - exists [], []. split; [|constructor].
    destruct d. unfold set_errors, set_sent. cbn. rewrite !app_nil_r.
    reflexivity.
  - inversion Hfit as [|? ? Hchunk Hrest]; subst.
    cbn [sendChunks]. rewrite bind_run.
    destruct (sendChannelMessage_trace channelId chunk d)
      as (new1 & log1 & Hd1 & Hbody1).
    destruct (sendChannelMessage server retry_after channelId chunk d)
      as [[[] | e] d1]; cbn [snd] in Hd1; subst d1.
    + destruct (IH (set_errors (fun l => l ++ log1)
                      (set_sent (fun l => l ++ new1) d)) Hrest)
        as (new2 & log2 & -> & Hfit2).
      exists (new1 ++ new2), (log1 ++ log2). split.
      * unfold set_errors, set_sent. cbn. rewrite !app_assoc. reflexivity.
      * apply Forall_app. split; [|exact Hfit2].
        eapply Forall_impl; [exact Hbody1|].
        intros r Hr. unfold fits. rewrite Hr. exact Hchunk.
    + exists new1, log1. split; [reflexivity|].
      eapply Forall_impl; [exact Hbody1|].
      intros r Hr. unfold fits. rewrite Hr. exact Hchunk.
Qed.

Lemma ensureDmChannel_trace (d : Discord) :
  exists (new : list Request) (channel : option string),
    snd (ensureDmChannel server retry_after json_id d)
    = set_dmChannel channel (set_sent (fun l => l ++ new) d) /\
    Forall silent new.
Proof.
  unfold ensureDmChannel. rewrite bind_run. cbn [get].
  destruct (truthy_string (dmChannel d)) as [channel|].
  { exists [], (dmChannel d). split; [|constructor].
    destruct d. unfold set_dmChannel, set_sent. cbn. rewrite app_nil_r.
    reflexivity. }
  rewrite bind_run.
  match goal with
  | |- context [discordFetch server retry_after ?req d] =>
      destruct (discordFetch_trace req d) as (new & Hd & Hnew);
      destruct (discordFetch server retry_after req d) as [[res | e] d']
  end; cbn [snd] in Hd; subst d'.
  - assert (Hsilent : Forall silent new)
      by (destruct Hnew as [-> | ->]; repeat constructor).
    destruct (ok res); cbn [negb].
    + rewrite bind_run. unfold liftC at 1.
      destruct (json_id res) as [id | e].
      * exists new, id. split; [reflexivity | exact Hsilent].
      * exists new, (dmChannel d). split; [|exact Hsilent].
        destruct d; reflexivity.
    + rewrite bind_run. unfold liftC at 1.
      exists new, (dmChannel d). split; [|exact Hsilent].
      destruct (await (text res)); destruct d; reflexivity.
  - exists new, (dmChannel d). split; [destruct d; reflexivity|].
    destruct Hnew as [-> | ->]; repeat constructor.
Qed.

Lemma silent_fits (r : Request) : silent r -> fits r.
Proof. unfold silent, fits. destruct (body r); intros H; [exact I.. | destruct H]. Qed.

Lemma sendDm_trace (msg : Content) (d : Discord) :
  exists new : list Request,
    sent (snd (sendDm server retry_after json_id msg d)) = sent d ++ new /\
    Forall fits new /\
    userId (snd (sendDm server retry_after json_id msg d)) = userId d.
Proof.
  unfold sendDm. rewrite bind_run.
  destruct (ensureDmChannel_trace d) as (new1 & channel & Hd1 & Hsilent).
  assert (Hfit1 : Forall fits new1)
    by (eapply Forall_impl; [exact Hsilent | exact silent_fits]).
  destruct (ensureDmChannel server retry_after json_id d) as [[id | e] d1];
    cbn [snd] in Hd1; subst d1.
  - destruct msg as [text | |].
    + destruct (sendChunks_trace id (chunksOf text)
                  (set_dmChannel channel (set_sent (fun l => l ++ new1) d))
                  (chunksOf_fit text)) as (new2 & logged & -> & Hfit2).
      exists (new1 ++ new2). cbn. rewrite app_assoc.
      split; [reflexivity|]. split; [|reflexivity].
      apply Forall_app. split; assumption.
    + exists new1. cbn. repeat split; assumption.
    + exists new1. cbn. repeat split; assumption.
  - exists new1. cbn. repeat split; assumption.
Qed.

Lemma sendChunks_answered (channel : string) (chunks : list string) :
  (forall n req, answered (server n req)) ->
  forall d : Discord,
  exists d' : Discord,
    sendChunks server retry_after (Some channel) chunks d = (Normal tt, d') /\
    sent d' = sent d ++ map (post channel) chunks /\
    dmChannel d' = dmChannel d.
Proof.
  intros Hserver. induction chunks as [|chunk rest IH]; intros d.
  - exists d. cbn. rewrite app_nil_r. repeat split.
  - cbn [sendChunks]. rewrite bind_run. unfold sendChannelMessage.
    rewrite bind_run, discordFetch_run. cbn [shown].
    fold (post channel chunk).
    pose proof (Hserver (length (sent d)) (post channel chunk)) as Hans.
    destruct (server (length (sent d)) (post channel chunk)) as [r | e];
      [|destruct Hans].
    destruct Hans as (H429 & t & Htext).
    destruct (N.eqb_spec (status r) 429) as [|_]; [contradiction|].
    assert (Hstep : exists d1,
              (if negb (ok r)
               then text ← liftC (await (text r));
                    modify (set_errors (fun l => l ++ [(status r, text)]))
               else mret tt)
                (set_sent (fun l => l ++ [post channel chunk]) d)
              = (Normal tt, d1) /\
              sent d1 = sent d ++ [post channel chunk] /\
              dmChannel d1 = dmChannel d).
    { destruct (ok r); cbn [negb].
      - eexists. split; [reflexivity|]. split; reflexivity.
      - rewrite bind_run. unfold liftC at 1. rewrite Htext. cbn [await].
        eexists. split; [reflexivity|]. split; reflexivity. }
    destruct Hstep as (d1 & -> & Hsent1 & Hch1).
    destruct (IH d1) as (d' & -> & Hsent & Hch).
    exists d'. split; [reflexivity|]. split.
    + rewrite Hsent, Hsent1, <- app_assoc. reflexivity.
    + rewrite Hch. exact Hch1.
Qed.

(** X25. With a channel already opened and a service that answers every
    request (no failure of the network, no 429), [sendDm] posts the
    chunks of the text to that channel, all of them and in order, and
    returns normally, also when Discord refuses some or all of the
    posts: a refusal is logged and not reported. *)
Theorem sendDm_delivers_in_order (text channel : string) (d : Discord) :
  truthy_string (dmChannel d) = Some channel ->
  (forall n req, answered (server n req)) ->
  exists d' : Discord,
    sendDm server retry_after json_id (ContentString text) d
    = (Normal tt, d') /\
    sent d' = sent d ++ map (post channel) (chunksOf text).
Proof.
  intros Hchannel Hserver. unfold sendDm. rewrite bind_run.
  unfold ensureDmChannel at 1. rewrite bind_run. cbn [get].
  rewrite Hchannel. cbn [mret M_ret ret].
  destruct (sendChunks_answered channel (chunksOf text) Hserver d)
    as (d' & Hrun & Hsent & _).
  exists d'. split; [exact Hrun | exact Hsent].
Qed.
End RestApi.

Section RestWitnesses.
Import MyAgent Tools JsString Chat Rest RestFacts.

(** A service that stays over its rate limit: two requests, and the
    caller gets the second 429. *)
Lemma discordFetch_retries_once_witness :
  discordFetch server_busy one_second ping discord0
  = (Normal (response_of 429 "Too Many Requests" "{}"),
     set_sent (fun l => l ++ [ping; ping]) discord0).
Proof.
  apply (proj1 (proj2 (discordFetch_retries_once server_busy one_second
                         ping discord0))
           (response_of 429 "Too Many Requests" "{}") 1000);
    reflexivity.
Defined.

(** A short reply to a service that refuses every post. *)
Lemma sendDm_delivers_in_order_witness :
  exists d' : Discord,
    sendDm server_forbidden one_second id_dm7 (ContentString "hello") discord0
    = (Normal tt, d') /\
    sent d' = [post "dm1" "hello"].
Proof.
  apply (sendDm_delivers_in_order server_forbidden one_second id_dm7
           "hello" "dm1" discord0).
  - reflexivity.
  - intros n req. split; [discriminate | eexists; reflexivity].
Defined.
End RestWitnesses.

(** ** index.ts: a direct message arrives *)

Section DmFacts.
Import MyAgent Tools JsString StringFacts Conversation Chat Rest RestFacts Dm.

Lemma prefix_split (p : string) : forall s : string,
  String.prefix p s = true -> exists tail, s = p +:+ tail.
Proof.
  induction p as [|a p IH]; intros s H.
  - exists s. reflexivity.
  - destruct s as [|c s]; [discriminate|]. cbn [String.prefix] in H.
    destruct (ascii_dec a c) as [->|]; [|discriminate].
    destruct (IH s H) as [tail ->]. exists tail. reflexivity.
Qed.

Lemma replaceAll_skip (whole p r pre : string) : forall (rest : string)
  (pos : nat),
  replaceAll_from whole p r (pre +:+ rest) pos (String.length pre)
  = replaceAll_from whole p r rest (pos + String.length pre) 0.
Proof.
  induction pre as [|c pre IH]; intros rest pos.
  - cbn [String.length]. rewrite Nat.add_0_r. reflexivity.
  - change (String c pre +:+ rest) with (String c (pre +:+ rest)).
    cbn [String.length replaceAll_from]. rewrite IH. f_equal. lia.
Qed.

Lemma length_append_tail (p tail : string) :
  String.length (p +:+ tail) = (String.length p + String.length tail)%nat.
Proof.
  induction p as [|c p IH]; [reflexivity|].
  change (String c p +:+ tail) with (String c (p +:+ tail)).
  cbn [String.length]. rewrite IH. reflexivity.
Qed.

(** Replacing a text by itself changes nothing. *)
Lemma replaceAll_same (p : string) :
  p <> EmptyString -> occurs "$" p = false ->
  forall (n : nat) (rest whole : string) (pos : nat),
    (String.length rest < n)%nat ->
    replaceAll_from whole p p rest pos 0 = rest.
Proof.
  intros Hne Hplain. induction n as [|n IH]; intros rest whole pos Hn;
    [lia|].
  destruct rest as [|c rest'].
  - cbn [replaceAll_from]. destruct p; [contradiction | reflexivity].
  - cbn [replaceAll_from].
    destruct (String.prefix p (String c rest')) eqn:Hprefix.
    + destruct (prefix_split p _ Hprefix) as [tail Htail].
      destruct p as [|a p']; [contradiction|].
      change (String a p' +:+ tail) with (String a (p' +:+ tail)) in Htail.
      injection Htail as -> ->.
      rewrite GetSubstitution_plain by exact Hplain.
      cbn [String.length]. rewrite replaceAll_skip.
      rewrite IH.
      * reflexivity.
      * cbn [String.length] in Hn. rewrite length_append_tail in Hn. lia.
    + rewrite IH; [reflexivity|]. cbn [String.length] in Hn. lia.
Qed.

(** X26. The reply to [!block]: the value of the first block with the
    label is sent between two code fences exactly as it is stored. The
    call of [replaceAll] that is meant to escape code fences replaces
    each fence by itself, so that a fence inside the value reaches
    Discord unescaped. *)
Theorem blockReply_unescaped (blocks : list MemoryBlockI) (name : string)
  (b : MemoryBlockI) :
  List.find (fun b => bool_decide (Some (label b) = Some name)) blocks
  = Some b ->
  blockReply blocks (Some name)
  = "```" +:+ nl +:+ value b +:+ nl +:+ "```".
Proof.
  intros Hfind. unfold blockReply. rewrite Hfind.
  cbn [fmap option_fmap option_map shown]. unfold replaceAll.
  rewrite (replaceAll_same "```" ltac:(discriminate) ltac:(reflexivity)
             (S (String.length (value b)))) by lia.
  reflexivity.
Qed.

(** The theorem applied to a block whose value holds a code fence. *)
Lemma blockReply_unescaped_witness :
  blockReply
    [{| label := "notes"; description := ""; value := "a```b"; limit := 10;
        readOnly := None; lastUpdated := 0 |}] (Some "notes")
  = "```" +:+ nl +:+ "a```b" +:+ nl +:+ "```".
Proof.
  apply (blockReply_unescaped
           [{| label := "notes"; description := ""; value := "a```b";
               limit := 10; readOnly := None; lastUpdated := 0 |}]
           "notes"
           {| label := "notes"; description := ""; value := "a```b";
              limit := 10; readOnly := None; lastUpdated := 0 |}).
  reflexivity.
Defined.
End DmFacts.

Section DmHandler.
Import MyAgent Tools JsString StringFacts Conversation Chat Rest RestFacts.
Import Dm DmFacts.

Variable cfg : Constants.BufferConfig.
Variable llm : LlmRequest -> Completion LlmMessage.
Variable chat : nat -> ChatRequest -> Completion LlmMessage.
Variable now : N.
Variable toolTime : nat -> N.
Variable fetch : nat -> nat -> Promise Response.
Variable randomUUID : nat -> string.
Variable JSON_parse : string -> Completion Args.
Variable CORE_MEMORY_LINE_NUMBER_WARNING : string.
Variable toDateString : N -> string.
Variable today : N.
Variable server : nat -> Request -> Promise Response.
Variable retry_after : Response -> Completion Z.
Variable json_id : Response -> Completion (option string).
Variable JSON_stringify : list ChatMessage -> string.
Variable SYSTEM_INSTRUCTIONS : string.
Variable DEFAULT_DM_BLOCKS : list MemoryBlockI.

(** The first step of the handler. *)
Lemma boot_run (authorId : string) (a : Agent) :
  exists a1 : Agent,
    (match truthy_string (userId (discord a)) with
     | Some _ => mret tt
     | None => dmOnBoot SYSTEM_INSTRUCTIONS DEFAULT_DM_BLOCKS authorId
     end) a = (Normal tt, a1) /\
    conversation a1 = conversation a /\
    sent (discord a1) = sent (discord a) /\
    (is_Some (truthy_string (userId (discord a))) -> a1 = a).
Proof.
  destruct (truthy_string (userId (discord a))) as [u|].
  - exists a. repeat split.
  - eexists. split; [reflexivity|]. repeat split.
    intros [? H]. discriminate H.
Qed.

(** A message sent without waiting for it. *)
Lemma detached_sendDm_run (msg : Content) (a : Agent) :
  exists (d' : Discord) (new : list Request),
    detached (onDiscord (sendDm server retry_after json_id msg)) a
    = (Normal tt,
       {| session := session a; discord := d';
          systemText := systemText a |}) /\
    sent d' = sent (discord a) ++ new /\ Forall fits new.
Proof.
  unfold detached, onDiscord.
  destruct (sendDm_trace server retry_after json_id msg (discord a))
    as (new & Hsent & Hfit & _).
  destruct (sendDm server retry_after json_id msg (discord a)) as [c d'].
  cbn [snd] in *. exists d', new. repeat split; assumption.
Qed.

(** X27. A message that starts with an exclamation mark is a command:
    the handler returns normally, the model is not asked, and the
    message table and the buffer stay as they are. A command other than
    [!block] and [!messages] is dropped without any request to Discord. *)
Theorem commands_skip_model (fuel : nat) (authorId content : string)
  (a : Agent) :
  String.prefix "!" content = true ->
  exists a' : Agent,
    onDmMessage cfg llm chat now toolTime fetch randomUUID JSON_parse
      CORE_MEMORY_LINE_NUMBER_WARNING toDateString today server
      retry_after json_id JSON_stringify SYSTEM_INSTRUCTIONS
      DEFAULT_DM_BLOCKS fuel authorId content a = (Normal (Some tt), a') /\
    conversation a' = conversation a /\
    (commandOf content <> Some "!block" ->
     commandOf content <> Some "!messages" ->
     sent (discord a') = sent (discord a)).
Proof.
  intros Hbang. unfold onDmMessage. rewrite bind_run. cbn [get].
  rewrite bind_run.
  destruct (boot_run authorId a) as (a1 & -> & Hconv & Hsent & _).
  rewrite Hbang. fold (commandOf content).
  destruct (decide (commandOf content = Some "!block")) as [Hb | Hb].
  { rewrite bind_run. cbn [get]. rewrite bind_run.
    match goal with
    | |- context [detached (onDiscord (sendDm _ _ _ ?msg))] =>
        destruct (detached_sendDm_run msg a1) as (d' & new & -> & _ & _)
    end.
    eexists. split; [reflexivity|]. split; [exact Hconv|].
    intros H; contradiction. }
  destruct (decide (commandOf content = Some "!messages")) as [Hm | Hm].
  { rewrite bind_run. unfold onSession at 1, liftW at 1.
    rewrite getMessages_run. rewrite bind_run.
    match goal with
    | |- context [detached (onDiscord (sendDm _ _ _ ?msg)) ?a2] =>
        destruct (detached_sendDm_run msg a2) as (d' & new & -> & _ & _)
    end.
    eexists. split; [reflexivity|]. split.
    - rewrite <- Hconv. destruct a1 as [[w calls u t] d sys]. reflexivity.
    - intros _ H; contradiction. }
  exists a1. split; [reflexivity|]. split; [exact Hconv|].
  intros _ _. exact Hsent.
Qed.

(** X28. Whatever the message, the model, the tools and Discord do, the
    handler never posts a message of more than 2000 characters: every
    request that it adds to the ones sent carries no message or a chunk
    within the limit. *)
Theorem onDmMessage_posts_fit (fuel : nat) (authorId content : string)
  (a : Agent) :
  exists new : list Request,
    sent (discord
            (snd (onDmMessage cfg llm chat now toolTime fetch randomUUID
                    JSON_parse CORE_MEMORY_LINE_NUMBER_WARNING toDateString
                    today server retry_after json_id JSON_stringify
                    SYSTEM_INSTRUCTIONS DEFAULT_DM_BLOCKS fuel authorId
                    content a)))
    = sent (discord a) ++ new /\
    Forall fits new.
Proof.
  unfold onDmMessage. rewrite bind_run. cbn [get]. rewrite bind_run.
  destruct (boot_run authorId a) as (a1 & -> & _ & Hsent & _).
  rewrite <- Hsent. clear Hsent.
  destruct (String.prefix "!" content).
  - fold (commandOf content).
    destruct (decide (commandOf content = Some "!block")) as [Hb | Hb].
    { rewrite bind_run. cbn [get]. rewrite bind_run.
      match goal with
      | |- context [detached (onDiscord (sendDm _ _ _ ?msg))] =>
          destruct (detached_sendDm_run msg a1)
            as (d' & new & -> & Hnew & Hfit)
      end.
      exists new. split; [exact Hnew | exact Hfit]. }
    destruct (decide (commandOf content = Some "!messages")) as [Hm | Hm].
    { rewrite bind_run. unfold onSession at 1, liftW at 1.
      rewrite getMessages_run. rewrite bind_run.
      match goal with
      | |- context [detached (onDiscord (sendDm _ _ _ ?msg)) ?a2] =>
          destruct (detached_sendDm_run msg a2)
            as (d' & new & -> & Hnew & Hfit)
      end.
      exists new. split; [exact Hnew | exact Hfit]. }
    exists []. split; [cbn; rewrite app_nil_r; reflexivity | constructor].
  - rewrite bind_run. cbn [get]. rewrite bind_run. unfold onSession at 1.
    destruct (doSomethingSmart cfg llm chat now toolTime fetch randomUUID
                JSON_parse (systemText a1) CORE_MEMORY_LINE_NUMBER_WARNING
                toDateString today fuel content (session a1))
      as [[[reply|] | e] s'].
    + rewrite bind_run. unfold onDiscord at 1. cbn [discord].
      destruct (sendDm_trace server retry_after json_id reply (discord a1))
        as (new & Hnew & Hfit & _).
      destruct (sendDm server retry_after json_id reply (discord a1))
        as [[[] | e] d']; cbn [snd] in Hnew; exists new;
        (split; [exact Hnew | exact Hfit]).
    + exists []. split; [cbn; rewrite app_nil_r; reflexivity | constructor].
    + exists []. split; [cbn; rewrite app_nil_r; reflexivity | constructor].
Qed.

(** X29. When the run of the model fails, the user is told nothing: for
    a message that is no command, on an agent that has booted, a
    rejection of [doSomethingSmart] is the rejection of the handler, and
    no request goes to Discord. *)
Theorem failed_run_sends_nothing (fuel : nat) (authorId content : string)
  (a : Agent) (e : JsError) :
  is_Some (truthy_string (userId (discord a))) ->
  String.prefix "!" content = false ->
  fst (doSomethingSmart cfg llm chat now toolTime fetch randomUUID
         JSON_parse (systemText a) CORE_MEMORY_LINE_NUMBER_WARNING
         toDateString today fuel content (session a)) = Throw e ->
  exists a' : Agent,
    onDmMessage cfg llm chat now toolTime fetch randomUUID JSON_parse
      CORE_MEMORY_LINE_NUMBER_WARNING toDateString today server
      retry_after json_id JSON_stringify SYSTEM_INSTRUCTIONS
      DEFAULT_DM_BLOCKS fuel authorId content a = (Throw e, a') /\
    discord a' = discord a.
Proof.
  intros Hbooted Hplain Hrun. unfold onDmMessage.
  rewrite bind_run. cbn [get]. rewrite bind_run.
  destruct (boot_run authorId a) as (a1 & -> & _ & _ & Hsame).
  rewrite (Hsame Hbooted). rewrite Hplain.
  rewrite bind_run. cbn [get]. rewrite bind_run. unfold onSession at 1.
  destruct (doSomethingSmart cfg llm chat now toolTime fetch randomUUID
              JSON_parse (systemText a) CORE_MEMORY_LINE_NUMBER_WARNING
              toDateString today fuel content (session a)) as [c s'].
  cbn [fst] in Hrun. subst c. eexists. split; reflexivity.
Qed.

(** X30. An answer without text is stored and not sent: when the model
    ends its turn with [content: null], the handler keeps the session
    that [doSomethingSmart] left, asks Discord for the channel at most,
    posts no message, and rejects. *)
Theorem null_answer_is_not_sent (fuel : nat) (authorId content : string)
  (a : Agent) (s' : Session) :
  is_Some (truthy_string (userId (discord a))) ->
  String.prefix "!" content = false ->
  doSomethingSmart cfg llm chat now toolTime fetch randomUUID
    JSON_parse (systemText a) CORE_MEMORY_LINE_NUMBER_WARNING
    toDateString today fuel content (session a)
  = (Normal (Some ContentNull), s') ->
  exists (e : JsError) (a' : Agent) (new : list Request),
    onDmMessage cfg llm chat now toolTime fetch randomUUID JSON_parse
      CORE_MEMORY_LINE_NUMBER_WARNING toDateString today server
      retry_after json_id JSON_stringify SYSTEM_INSTRUCTIONS
      DEFAULT_DM_BLOCKS fuel authorId content a = (Throw e, a') /\
    session a' = s' /\
    sent (discord a') = sent (discord a) ++ new /\
    Forall silent new.
Proof.
  intros Hbooted Hplain Hrun. unfold onDmMessage.
  rewrite bind_run. cbn [get]. rewrite bind_run.
  destruct (boot_run authorId a) as (a1 & -> & _ & _ & Hsame).
  rewrite (Hsame Hbooted). rewrite Hplain.
  rewrite bind_run. cbn [get]. rewrite bind_run. unfold onSession at 1.
  rewrite Hrun. rewrite bind_run. unfold onDiscord at 1. cbn [discord].
  unfold sendDm. rewrite bind_run.
  destruct (ensureDmChannel_trace server retry_after json_id (discord a))
    as (new & channel & Hd & Hsilent).
  destruct (ensureDmChannel server retry_after json_id (discord a))
    as [[id | e] d1]; cbn [snd] in Hd; subst d1.
  - eexists _, _, new. split; [reflexivity|]. repeat split. exact Hsilent.
  - eexists _, _, new. split; [reflexivity|]. repeat split. exact Hsilent.
Qed.
End DmHandler.

Section DmWitnesses.
Import MyAgent Tools JsString Conversation Chat ChatSamples Samples.
Import Rest RestFacts Dm DmFacts.

(** The command [!help], which the handler does not know. *)
Lemma commands_skip_model_witness :
  exists a' : Agent,
    onDmMessage MESSAGE_BUFFER_CONFIG llm_ok chat_plain 0 (fun _ => 7%N)
      fetch_down uuid_of parse_any "" date_of 9 server_ok one_second
      id_dm7 stringify_any "You are kind." [sampleBlock] 1 "42" "!help"
      agent0 = (Normal (Some tt), a') /\
    conversation a' = conversation agent0 /\
    sent (discord a') = sent (discord agent0).
Proof.
  destruct (commands_skip_model MESSAGE_BUFFER_CONFIG llm_ok chat_plain 0
              (fun _ => 7%N) fetch_down uuid_of parse_any "" date_of 9
              server_ok one_second id_dm7 stringify_any "You are kind."
              [sampleBlock] 1 "42" "!help" agent0)
    as (a' & Hrun & Hconv & Hsent); [reflexivity|].
  exists a'. split; [exact Hrun|]. split; [exact Hconv|].
  apply Hsent; vm_compute; discriminate.
Defined.

(** The theorem applied while the model is down. *)
Lemma failed_run_sends_nothing_witness :
  exists a' : Agent,
    onDmMessage MESSAGE_BUFFER_CONFIG llm_ok chat_down 0 (fun _ => 7%N)
      fetch_down uuid_of parse_any "" date_of 9 server_ok one_second
      id_dm7 stringify_any "You are kind." [sampleBlock] 1 "42" "hello"
      agent0 = (Throw (ErrorObj "fetch failed"), a') /\
    discord a' = discord agent0.
Proof.
  apply (failed_run_sends_nothing MESSAGE_BUFFER_CONFIG llm_ok chat_down 0
           (fun _ => 7%N) fetch_down uuid_of parse_any "" date_of 9
           server_ok one_second id_dm7 stringify_any "You are kind."
           [sampleBlock] 1 "42" "hello" agent0 (ErrorObj "fetch failed")).
  - eexists. reflexivity.
  - reflexivity.
  - reflexivity.
Defined.

(** The theorem applied to a model that answers [content: null]. *)
Lemma null_answer_is_not_sent_witness :
  exists (e : JsError) (a' : Agent) (new : list Request),
    onDmMessage MESSAGE_BUFFER_CONFIG llm_ok chat_null 0 (fun _ => 7%N)
      fetch_down uuid_of parse_any "" date_of 9 server_ok one_second
      id_dm7 stringify_any "You are kind." [sampleBlock] 1 "42" "hello"
      agent0 = (Throw e, a') /\
    session a'
    = snd (doSomethingSmart MESSAGE_BUFFER_CONFIG llm_ok chat_null 0
             (fun _ => 7%N) fetch_down uuid_of parse_any "Be kind."
             "" date_of 9 1 "hello" session0) /\
    sent (discord a') = sent (discord agent0) ++ new /\
    Forall silent new.
Proof.
  apply (null_answer_is_not_sent MESSAGE_BUFFER_CONFIG llm_ok chat_null 0
           (fun _ => 7%N) fetch_down uuid_of parse_any "" date_of 9
           server_ok one_second id_dm7 stringify_any "You are kind."
           [sampleBlock] 1 "42" "hello" agent0).
  - eexists. reflexivity.
  - reflexivity.
  - reflexivity.
Defined.
End DmWitnesses.
